(** * CSD dataset pipeline: loader, normalizer and metrics

    A shallow embedding of the parts of
    [final_deliverable/scripts/data_loader.py],
    [final_deliverable/scripts/eda_analysis.py] and
    [final_deliverable/scripts/geographic_analysis.py]
    that reshape the wide spreadsheet into the long table, clean it and
    compute the shares, the concentration index, the growth rates and the
    rankings.

    Conventions of the model.
    - A pandas [DataFrame] is a list of column names and a list of rows of
      cells; the row labels (the index) are left out, no modelled operation
      reads them.
    - Numeric cells hold integers ([Z]); results of [/] are exact rationals
      extended with the IEEE special values ([fnum]), so rounding of binary64
      is outside the model, division by zero is inside it.
    - Python exceptions are a result [Raise e]; printing appends a message
      to [stdout].
    - numpy's [argsort] with the default [kind], "quicksort", is a parameter
      of the development: the library promises a sorted rearrangement and
      nothing about the order of equal keys. *)

From Stdlib Require Import String Ascii Bool Arith ZArith QArith Qround Lia.
From Stdlib Require Import List Permutation Sorted.
Import ListNotations.

Local Open Scope string_scope.
Local Open Scope Z_scope.
Local Open Scope list_scope.

(** ** Strings *)

Module Str.

(** [sub in s] of Python for strings. *)
Fixpoint contains (sub s : string) : bool :=
  String.prefix sub s ||
  match s with
  | EmptyString => false
  | String _ t => contains sub t
  end.

(** [s.replace(c, "")] for a pattern of one character. *)
Fixpoint remove_char (c : ascii) (s : string) : string :=
  match s with
  | EmptyString => EmptyString
  | String a t =>
      if Ascii.eqb a c then remove_char c t else String a (remove_char c t)
  end.

Definition lower_char (c : ascii) : ascii :=
  let n := nat_of_ascii c in
  if (Nat.leb 65 n && Nat.leb n 90)%bool then ascii_of_nat (n + 32) else c.

Fixpoint lower (s : string) : string :=
  match s with
  | EmptyString => EmptyString
  | String a t => String (lower_char a) (lower t)
  end.

Definition digit (c : ascii) : option Z :=
  let n := nat_of_ascii c in
  if (Nat.leb 48 n && Nat.leb n 57)%bool then Some (Z.of_nat (n - 48)) else None.

Fixpoint index_of (x : string) (l : list string) : option nat :=
  match l with
  | [] => None
  | y :: t => if String.eqb x y then Some O else option_map S (index_of x t)
  end.

End Str.

(** ** Cells, frames, exceptions *)

Inductive cell : Type :=
| Str (s : string)            (* an object cell holding a str *)
| Num (z : Z)                 (* a number *)
| Timestamp (year month : Z)  (* first day of that month *)
| NaN.                        (* missing *)

Definition cell_eqb (a b : cell) : bool :=
  match a, b with
  | Str s, Str t => String.eqb s t
  | Num x, Num y => Z.eqb x y
  | Timestamp y m, Timestamp y' m' => Z.eqb y y' && Z.eqb m m'
  | NaN, NaN => true   (* duplicated() hashes missing values as equal *)
  | _, _ => false
  end.

Definition row := list cell.

Fixpoint row_eqb (r s : row) : bool :=
  match r, s with
  | [], [] => true
  | a :: r', b :: s' => cell_eqb a b && row_eqb r' s'
  | _, _ => false
  end.

Record DataFrame : Type := mkDF { columns : list string; rows : list row }.

(** A Series with a label per entry, as [groupby(...).sum()] returns. *)
Definition Series (K : Type) : Type := list (K * Z).

Inductive exn : Type :=
| KeyError (key : string)
| ValueError (data : string)    (* time data [data] does not match the format *)
| AttributeError (attr : string)
| IndexError
| IOError.

Inductive outcome (A : Type) : Type :=
| Ok (a : A)
| Raise (e : exn).
Arguments Ok {A} a.
Arguments Raise {A} e.

(** ** Dates: [pd.to_datetime(..., format='%b%y')] on one string *)

Definition month_abbr : list string :=
  ["jan"; "feb"; "mar"; "apr"; "may"; "jun";
   "jul"; "aug"; "sep"; "oct"; "nov"; "dec"].

Definition month_name : list string :=
  ["January"; "February"; "March"; "April"; "May"; "June"; "July";
   "August"; "September"; "October"; "November"; "December"].

(** The directive %b matches an abbreviated month name without regard to
    case, %y two digits; 00..68 are 2000..2068 and 69..99 are 1969..1999.
    Nothing may follow. *)
Definition strptime_b_y (s : string) : option (Z * Z) :=
  match s with
  | String a (String b (String c (String d1 (String d2 EmptyString)))) =>
      match Str.index_of (Str.lower (String a (String b (String c EmptyString))))
                         month_abbr,
            Str.digit d1, Str.digit d2 with
      | Some i, Some x, Some y =>
          let yy := 10 * x + y in
          Some (if yy <=? 68 then 2000 + yy else 1900 + yy, Z.of_nat (S i))
      | _, _, _ => None
      end
  | _ => None
  end.

(** ** Frame operations *)

Definition cell_at (i : nat) (r : row) : cell := nth i r NaN.

Fixpoint set_nth (i : nat) (v : cell) (r : row) : row :=
  match r, i with
  | [], _ => []
  | _ :: t, O => v :: t
  | a :: t, S j => a :: set_nth j v t
  end.

(** [df[name]] *)
Definition get_column (name : string) (df : DataFrame) : outcome (list cell) :=
  match Str.index_of name (columns df) with
  | Some i => Ok (map (cell_at i) (rows df))
  | None => Raise (KeyError name)
  end.

Definition set_cell (i : option nat) (v : cell) (r : row) : row :=
  match i with
  | Some i => set_nth i v r
  | None => r ++ [v]
  end.

(** [df[name] = vals]: an existing column is overwritten in place, a new
    one is added on the right. [vals] always comes from the frame itself
    and has one value per row. *)
Definition set_column (name : string) (vals : list cell) (df : DataFrame)
  : DataFrame :=
  let i := Str.index_of name (columns df) in
  {| columns := match i with
                | Some _ => columns df
                | None => columns df ++ [name]
                end;
     rows := map (fun rv => set_cell i (snd rv) (fst rv))
                 (combine (rows df) vals) |}.

Fixpoint indices (names cols : list string) : outcome (list nat) :=
  match names with
  | [] => Ok []
  | n :: t =>
      match Str.index_of n cols with
      | None => Raise (KeyError n)
      | Some i =>
          match indices t cols with
          | Ok l => Ok (i :: l)
          | Raise e => Raise e
          end
      end
  end.

(** [pd.melt(frame, id_vars, value_vars, var_name, value_name)]: one block
    of rows per value column, in the order of [value_vars]; inside a block
    the rows of [frame] in their order. A name that is not a column raises
    KeyError. *)
Definition melt (frame : DataFrame) (id_vars value_vars : list string)
  (var_name value_name : string) : outcome DataFrame :=
  match indices id_vars (columns frame) with
  | Raise e => Raise e
  | Ok ids =>
      match indices value_vars (columns frame) with
      | Raise e => Raise e
      | Ok vals =>
          Ok {| columns := id_vars ++ [var_name; value_name];
                rows :=
                  flat_map
                    (fun vc =>
                       map (fun r => map (fun i => cell_at i r) ids
                                     ++ [Str (fst vc); cell_at (snd vc) r])
                           (rows frame))
                    (combine value_vars vals) |}
      end
  end.

(** [series.str.replace("'", "")]: cells that are not strings give NaN. *)
Definition str_replace_quote (c : cell) : cell :=
  match c with
  | Str s => Str (Str.remove_char "'"%char s)
  | _ => NaN
  end.

(** [pd.to_datetime(series, format='%b%y')]: the first string that does not
    match raises ValueError naming it; a missing value stays missing. *)
Fixpoint to_datetime (vals : list cell) : outcome (list cell) :=
  match vals with
  | [] => Ok []
  | c :: t =>
      let head :=
        match c with
        | Str s =>
            match strptime_b_y s with
            | Some (y, m) => Ok (Timestamp y m)
            | None => Raise (ValueError s)
            end
        | Timestamp y m => Ok (Timestamp y m)
        | NaN => Ok NaN
        | Num _ => Raise (ValueError "")
        end in
      match head with
      | Raise e => Raise e
      | Ok d =>
          match to_datetime t with
          | Ok l => Ok (d :: l)
          | Raise e => Raise e
          end
      end
  end.

(** Accessors of [series.dt]. *)
Definition dt_strftime_B (c : cell) : cell :=
  match c with
  | Timestamp _ m => Str (nth (Z.to_nat (m - 1)) month_name "")
  | _ => NaN
  end.

Definition dt_month (c : cell) : cell :=
  match c with Timestamp _ m => Num m | _ => NaN end.

Definition dt_quarter (c : cell) : cell :=
  match c with Timestamp _ m => Num ((m - 1) / 3 + 1) | _ => NaN end.

Definition dt_year (c : cell) : cell :=
  match c with Timestamp y _ => Num y | _ => NaN end.

(** The key a cell contributes to a sort. The modelled code sorts a column
    of dates and Series of sums, none with a missing value. *)
Definition sort_key (c : cell) : Z :=
  match c with
  | Timestamp y m => 12 * y + m
  | Num z => z
  | _ => 0
  end.

Definition take {A : Type} (d : A) (idx : list nat) (l : list A) : list A :=
  map (fun i => nth i l d) idx.

(** ** The library's sorting kernel

    [sort_values] computes an indexer with numpy's [argsort]; the source
    never passes [kind], so the default "quicksort" runs, which leaves the
    order of equal keys open. The kernel is a parameter; [nargsort_spec]
    is what the library promises of it. *)

Definition sorter : Type := list Z -> bool -> list nat.

Definition in_order (ascending : bool) (a b : Z) : Prop :=
  if ascending then a <= b else b <= a.

Definition in_orderb (ascending : bool) (a b : Z) : bool :=
  if ascending then a <=? b else b <=? a.

Definition nargsort_spec (nargsort : sorter) : Prop :=
  forall keys ascending,
    Permutation (nargsort keys ascending) (seq 0 (length keys)) /\
    StronglySorted (in_order ascending) (take 0 (nargsort keys ascending) keys).

(** Two kernels that keep the promise: insertion sort that keeps equal
    keys in their order, and insertion sort that reverses them. *)
Fixpoint insert_key (strict ascending : bool) (keys : list Z)
  (i : nat) (sorted : list nat) : list nat :=
  match sorted with
  | [] => [i]
  | j :: t =>
      let ki := nth i keys 0 in
      let kj := nth j keys 0 in
      let before :=
        if strict then negb (in_orderb ascending kj ki)
        else in_orderb ascending ki kj in
      if before then i :: j :: t
      else j :: insert_key strict ascending keys i t
  end.

Definition insertion_argsort (strict : bool) : sorter :=
  fun keys ascending =>
    fold_left (fun acc i => insert_key strict ascending keys i acc)
              (seq 0 (length keys)) [].

Definition stable_argsort : sorter := insertion_argsort true.
Definition reversing_argsort : sorter := insertion_argsort false.

(** [frame.sort_values(by)] and [series.sort_values(ascending=...)]. *)
Definition sort_values (nargsort : sorter) (by_ : string) (df : DataFrame)
  : outcome DataFrame :=
  match get_column by_ df with
  | Raise e => Raise e
  | Ok k =>
      Ok {| columns := columns df;
            rows := take [] (nargsort (map sort_key k) true) (rows df) |}
  end.

Definition series_sort_values {K : Type} (nargsort : sorter) (d : K)
  (ascending : bool) (s : Series K) : Series K :=
  take (d, 0) (nargsort (map snd s) ascending) s.

(** ** The loader object, the console and the monad of its methods *)

Record CSDDatasetLoader : Type := mkLoader {
  df_original : option DataFrame;
  df_long : option DataFrame;
  monthly_cols : list string
}.

(** [CSDDatasetLoader.__init__] *)
Definition init : CSDDatasetLoader :=
  {| df_original := None; df_long := None; monthly_cols := [] |}.

Inductive message : Type :=
| LoadingDataset
| DatasetLoaded (nrows ncols : nat)
| ErrorLoading (e : exn)
| FoundMonthlyColumns (n : nat) (first3 last3 : list string)
| PleaseLoadFirst
| ConvertingToLong
| LongFormatCreated (nrows : nat)
| ErrorConverting (e : exn)
| PleaseConvertFirst
| CleaningDataset
| FoundMissing (per_column : list (string * nat))
| FoundDuplicates (n : nat)
| RemovedDuplicates (now : nat)
| FoundNegative (n : nat)
| CleaningCompleted.

Record world : Type := mkWorld {
  self : CSDDatasetLoader;
  stdout : list message
}.

Definition M (A : Type) : Type := world -> outcome A * world.

Definition ret {A : Type} (a : A) : M A := fun w => (Ok a, w).

Definition bind {A B : Type} (m : M A) (k : A -> M B) : M B :=
  fun w =>
    match m w with
    | (Ok a, w') => k a w'
    | (Raise e, w') => (Raise e, w')
    end.

Definition raise {A : Type} (e : exn) : M A := fun w => (Raise e, w).

Definition lift {A : Type} (o : outcome A) : M A := fun w => (o, w).

(** [try: body  except Exception as e: handler e]; what [body] did to the
    object and the console before it raised stays done. *)
Definition try_except {A : Type} (body : M A) (handler : exn -> M A) : M A :=
  fun w =>
    match body w with
    | (Ok a, w') => (Ok a, w')
    | (Raise e, w') => handler e w'
    end.

Definition print (m : message) : M unit :=
  fun w => (Ok tt, {| self := self w; stdout := stdout w ++ [m] |}).

Definition get_self : M CSDDatasetLoader := fun w => (Ok (self w), w).

Definition set_df_original (df : DataFrame) : M unit :=
  fun w => (Ok tt, {| self := {| df_original := Some df;
                                 df_long := df_long (self w);
                                 monthly_cols := monthly_cols (self w) |};
                      stdout := stdout w |}).

Definition set_df_long (df : DataFrame) : M unit :=
  fun w => (Ok tt, {| self := {| df_original := df_original (self w);
                                 df_long := Some df;
                                 monthly_cols := monthly_cols (self w) |};
                      stdout := stdout w |}).

Definition set_monthly_cols (cols : list string) : M unit :=
  fun w => (Ok tt, {| self := {| df_original := df_original (self w);
                                 df_long := df_long (self w);
                                 monthly_cols := cols |};
                      stdout := stdout w |}).

(** [self.df_long], which the methods only read after it was assigned. *)
Definition the_df_long : M DataFrame :=
  fun w =>
    match df_long (self w) with
    | Some df => (Ok df, w)
    | None => (Raise (AttributeError "df_long"), w)
    end.

Notation "x <- m ;; k" := (bind m (fun x => k))
  (at level 61, m at next level, right associativity).
Notation "m ;; k" := (bind m (fun _ => k))
  (at level 61, right associativity).

Definition when (b : bool) (m : M unit) : M unit := if b then m else ret tt.

Definition lastn {A : Type} (n : nat) (l : list A) : list A :=
  skipn (length l - n) l.

(** ** data_loader.py *)

(** [load_data]; [read_excel] is what [pd.read_excel] gives for the
    loader's path and sheet. *)
Definition load_data (read_excel : outcome DataFrame) : M bool :=
  try_except
    (print LoadingDataset ;;
     df <- lift read_excel ;;
     set_df_original df ;;
     print (DatasetLoaded (length (rows df)) (length (columns df))) ;;
     ret true)
    (fun e => print (ErrorLoading e) ;; ret false).

Definition identify_monthly_columns : M (list string) :=
  s <- get_self ;;
  match df_original s with
  | None => raise (AttributeError "columns")
  | Some df =>
      let cols := filter (Str.contains "'24") (columns df) in
      set_monthly_cols cols ;;
      print (FoundMonthlyColumns (length cols) (firstn 3 cols) (lastn 3 cols)) ;;
      ret cols
  end.

Definition id_vars : list string :=
  ["Region"; "Province"; "Precision Area"; "MARKET"; "KEY MANU  & KINZA";
   "BRAND"; "Brand-2"; "CSD & CSD +"; "CSD Flavor Segment"; "REG/DIET";
   "KEY PACKS"; "SUB-BRAND"; "PACK TYPE"; "PACK SIZE"; "ITEM"].

(** [df[name] = f(df[src])], cell by cell. *)
Definition derive_column (name src : string) (f : cell -> cell) : M unit :=
  df <- the_df_long ;;
  v <- lift (get_column src df) ;;
  set_df_long (set_column name (map f v) df).

Definition convert_to_long_format (nargsort : sorter) : M bool :=
  s <- get_self ;;
  match df_original s with
  | None => print PleaseLoadFirst ;; ret false
  | Some original =>
      try_except
        (print ConvertingToLong ;;
         melted <- lift (melt original id_vars (monthly_cols s) "Month" "Sales") ;;
         set_df_long melted ;;
         derive_column "Month" "Month" str_replace_quote ;;
         df <- the_df_long ;;
         months <- lift (get_column "Month" df) ;;
         dates <- lift (to_datetime months) ;;
         set_df_long (set_column "Date" dates df) ;;
         df <- the_df_long ;;
         sorted <- lift (sort_values nargsort "Date" df) ;;
         set_df_long sorted ;;
         derive_column "Month_Name" "Date" dt_strftime_B ;;
         derive_column "Month_Num" "Date" dt_month ;;
         derive_column "Quarter" "Date" dt_quarter ;;
         derive_column "Year" "Date" dt_year ;;
         df <- the_df_long ;;
         print (LongFormatCreated (length (rows df))) ;;
         ret true)
        (fun e => print (ErrorConverting e) ;; ret false)
  end.

(** [df.isnull().sum()], one count per column. *)
Definition is_nan (c : cell) : bool :=
  match c with NaN => true | _ => false end.

Definition isnull_sum (df : DataFrame) : list (string * nat) :=
  map (fun ic => (snd ic,
                  length (filter is_nan (map (cell_at (fst ic)) (rows df)))))
      (combine (seq 0 (length (columns df))) (columns df)).

(** [df.duplicated()]: a row is marked when an earlier row equals it in
    every column. *)
Fixpoint duplicated_from (seen rest : list row) : list bool :=
  match rest with
  | [] => []
  | r :: t => existsb (row_eqb r) seen :: duplicated_from (r :: seen) t
  end.

Definition duplicated (df : DataFrame) : list bool :=
  duplicated_from [] (rows df).

(** [df[mask]] for a boolean mask with one entry per row. *)
Definition mask_rows (rs : list row) (mask : list bool) : list row :=
  map fst (filter snd (combine rs mask)).

(** [df.drop_duplicates()] keeps the rows that [duplicated] leaves
    unmarked. *)
Definition drop_duplicates (df : DataFrame) : DataFrame :=
  {| columns := columns df;
     rows := mask_rows (rows df) (map negb (duplicated df)) |}.

(** [series < 0] on one cell; a missing value compares false. *)
Definition lt0 (c : cell) : bool :=
  match c with Num z => z <? 0 | _ => false end.

Definition count_true (l : list bool) : nat := length (filter id l).

(** [df.loc[df['Sales'] < 0, 'Sales'] = 0], on one row and on the frame. *)
Definition zero_if_negative (i : nat) (r : row) : row :=
  if lt0 (cell_at i r) then set_nth i (Num 0) r else r.

Definition loc_negative_sales_zero (df : DataFrame) : DataFrame :=
  match Str.index_of "Sales" (columns df) with
  | None => df
  | Some i =>
      {| columns := columns df; rows := map (zero_if_negative i) (rows df) |}
  end.

Definition clean_data : M bool :=
  s <- get_self ;;
  match df_long s with
  | None => print PleaseConvertFirst ;; ret false
  | Some df =>
      print CleaningDataset ;;
      let missing_values := isnull_sum df in
      when (0 <? fold_right Nat.add O (map snd missing_values))%nat
           (print (FoundMissing
                     (filter (fun p => (0 <? snd p)%nat) missing_values))) ;;
      let duplicates := count_true (duplicated df) in
      when (0 <? duplicates)%nat
           (print (FoundDuplicates duplicates) ;;
            set_df_long (drop_duplicates df) ;;
            df' <- the_df_long ;;
            print (RemovedDuplicates (length (rows df')))) ;;
      df <- the_df_long ;;
      sales <- lift (get_column "Sales" df) ;;
      let negative_sales := count_true (map lt0 sales) in
      when (0 <? negative_sales)%nat
           (print (FoundNegative negative_sales) ;;
            set_df_long (loc_negative_sales_zero df)) ;;
      print CleaningCompleted ;;
      ret true
  end.

(** [main], up to and with [clean_data]; [rest] stands for the calls that
    follow it ([create_derived_features], the summary, the save). *)
Definition main (nargsort : sorter) (read_excel : outcome DataFrame)
  (rest : M unit) : M unit :=
  loaded <- load_data read_excel ;;
  if loaded then
    identify_monthly_columns ;;
    convert_to_long_format nargsort ;;
    clean_data ;;
    rest
  else ret tt.

(** ** Numbers that [/] produces

    A float is an exact rational or one of the IEEE special values; the
    sign of zero is not kept. numpy division by zero gives an infinity
    or NaN and a warning, which the scripts switch off. *)

Inductive fnum : Type :=
| Fin (q : Q)
| PInf
| NInf
| FNaN.

Definition Qltb (a b : Q) : bool := negb (Qle_bool b a).

Definition of_Z (z : Z) : fnum := Fin (inject_Z z).

Definition fneg (a : fnum) : fnum :=
  match a with
  | Fin q => Fin (- q)%Q
  | PInf => NInf
  | NInf => PInf
  | FNaN => FNaN
  end.

Definition fadd (a b : fnum) : fnum :=
  match a, b with
  | FNaN, _ | _, FNaN => FNaN
  | Fin x, Fin y => Fin (x + y)%Q
  | PInf, NInf | NInf, PInf => FNaN
  | PInf, _ | _, PInf => PInf
  | NInf, _ | _, NInf => NInf
  end.

Definition fsub (a b : fnum) : fnum := fadd a (fneg b).

(** The infinity with the sign of [q], NaN at zero. *)
Definition signed_inf (positive : bool) (q : Q) : fnum :=
  if Qeq_bool q 0 then FNaN
  else if Qltb 0 q then (if positive then PInf else NInf)
  else (if positive then NInf else PInf).

Definition fmul (a b : fnum) : fnum :=
  match a, b with
  | FNaN, _ | _, FNaN => FNaN
  | Fin x, Fin y => Fin (x * y)%Q
  | PInf, Fin q | Fin q, PInf => signed_inf true q
  | NInf, Fin q | Fin q, NInf => signed_inf false q
  | PInf, PInf | NInf, NInf => PInf
  | PInf, NInf | NInf, PInf => NInf
  end.

Definition fdiv (a b : fnum) : fnum :=
  match a, b with
  | FNaN, _ | _, FNaN => FNaN
  | Fin x, Fin y => if Qeq_bool y 0 then signed_inf true x else Fin (x / y)%Q
  | Fin _, _ => Fin 0
  | PInf, Fin y => if Qltb y 0 then NInf else PInf
  | NInf, Fin y => if Qltb y 0 then PInf else NInf
  | _, _ => FNaN
  end.

(** [a > b]; false when either is NaN. *)
Definition fgtb (a b : fnum) : bool :=
  match a, b with
  | FNaN, _ | _, FNaN => false
  | Fin x, Fin y => Qltb y x
  | PInf, PInf | NInf, NInf => false
  | PInf, _ | _, NInf => true
  | _, _ => false
  end.

(** [series.sum()] of floats, missing values skipped. *)
Definition fsum (l : list fnum) : fnum :=
  fold_left fadd
            (filter (fun a => match a with FNaN => false | _ => true end) l)
            (Fin 0).

Definition is_finite (a : fnum) : Prop :=
  match a with Fin _ => True | _ => False end.

(** ** Group-by sums *)

(** The value a cell adds to [sum()]: a missing value is skipped. *)
Definition cell_value (c : cell) : Z :=
  match c with Num z => z | _ => 0 end.

(** [df[name].sum()] *)
Definition column_sum (name : string) (df : DataFrame) : outcome Z :=
  match get_column name df with
  | Raise e => Raise e
  | Ok v => Ok (fold_right Z.add 0 (map cell_value v))
  end.

(** Adds [v] to the group of [k] in a Series kept in the order of the
    keys, as [groupby] (with its default [sort=True]) returns it. *)
Fixpoint group_add {K : Type} (cmp : K -> K -> comparison) (k : K) (v : Z)
  (s : Series K) : Series K :=
  match s with
  | [] => [(k, v)]
  | (k', v') :: t =>
      match cmp k k' with
      | Eq => (k', v' + v) :: t
      | Lt => (k, v) :: (k', v') :: t
      | Gt => (k', v') :: group_add cmp k v t
      end
  end.

(** Rows whose key is missing belong to no group ([dropna=True]). *)
Definition groupby_sum {K : Type} (cmp : K -> K -> comparison)
  (key : row -> option K) (val : row -> Z) (rs : list row) : Series K :=
  fold_left (fun acc r => match key r with
                          | Some k => group_add cmp k (val r) acc
                          | None => acc
                          end)
            rs [].

Definition str_key (c : cell) : option string :=
  match c with Str s => Some s | _ => None end.

Definition num_key (c : cell) : option Z :=
  match c with Num z => Some z | _ => None end.

Definition date_key (c : cell) : option (Z * Z) :=
  match c with Timestamp y m => Some (y, m) | _ => None end.

Definition pair_compare {A B : Type} (ca : A -> A -> comparison)
  (cb : B -> B -> comparison) (x y : A * B) : comparison :=
  match ca (fst x) (fst y) with
  | Eq => cb (snd x) (snd y)
  | c => c
  end.

(** [df.groupby(by)[val].sum()] for a column of strings. *)
Definition groupby_str_sum (by_ val : string) (df : DataFrame)
  : outcome (Series string) :=
  match Str.index_of by_ (columns df), Str.index_of val (columns df) with
  | None, _ => Raise (KeyError by_)
  | _, None => Raise (KeyError val)
  | Some i, Some j =>
      Ok (groupby_sum String.compare (fun r => str_key (cell_at i r))
                      (fun r => cell_value (cell_at j r)) (rows df))
  end.

Definition million : fnum := of_Z 1000000.
Definition hundred : fnum := of_Z 100.

(** ** eda_analysis.py, geographic_analysis.py *)

Record share_line : Type := mkLine {
  line_key : string;
  line_sales_millions : fnum;
  line_share : fnum
}.

(** The loop that prints a group, its sales in millions and its share:
    [for key, sales in sales_millions.items():
       share = (sales / total_sales) * 100]. *)
Definition share_lines (sales_millions : list (string * fnum))
  (total_sales : Z) : list share_line :=
  map (fun ks => {| line_key := fst ks;
                    line_sales_millions := snd ks;
                    line_share := fmul (fdiv (snd ks) (of_Z total_sales))
                                       hundred |})
      sales_millions.

Definition in_millions (s : Series string) : list (string * fnum) :=
  map (fun kv => (fst kv, fdiv (of_Z (snd kv)) million)) s.

Record geographic_report : Type := mkGeo {
  regional_lines : list share_line;     (* printed under A *)
  province_lines : list share_line;     (* printed under B *)
  hhi_regional : fnum;
  concentration_level : string;
  top_region : string;
  region_market_share : fnum
}.

(** [CSDExploratoryAnalysis.geographic_analysis] *)
Definition geographic_analysis (nargsort : sorter) (df : DataFrame)
  : outcome geographic_report :=
  match column_sum "Sales" df with
  | Raise e => Raise e
  | Ok total_sales =>
  match groupby_str_sum "Region" "Sales" df with
  | Raise e => Raise e
  | Ok by_region =>
  let regional_sales := series_sort_values nargsort "" false by_region in
  let regional_sales_millions := in_millions regional_sales in
  match groupby_str_sum "Province" "Sales" df with
  | Raise e => Raise e
  | Ok by_province =>
  let province_sales := series_sort_values nargsort "" false by_province in
  let province_sales_millions := in_millions province_sales in
  let regional_shares :=
    map (fun kv => fdiv (of_Z (snd kv)) (of_Z total_sales)) regional_sales in
  let hhi := fsum (map (fun x => fmul x x) regional_shares) in
  match head regional_sales with
  | None => Raise IndexError          (* [regional_sales.index[0]] *)
  | Some top =>
  Ok {| regional_lines := share_lines regional_sales_millions total_sales;
        province_lines :=
          share_lines (firstn 10 province_sales_millions) total_sales;
        hhi_regional := hhi;
        concentration_level :=
          if fgtb hhi (Fin (25 # 100)) then "High"
          else if fgtb hhi (Fin (15 # 100)) then "Moderate" else "Low";
        top_region := fst top;
        region_market_share :=
          fmul (fdiv (of_Z (snd top)) (of_Z total_sales)) hundred |}
  end end end end.


(** [series.mean()] *)
Definition mean (l : list Z) : fnum :=
  fdiv (of_Z (fold_right Z.add 0 l)) (of_Z (Z.of_nat (length l))).

(** [df[name].unique()], the strings in the order of their first
    appearance. A missing value, which [unique] also lists, selects no
    row of a grouped frame and is left out. *)
Fixpoint unique_from (seen : list string) (l : list cell) : list string :=
  match l with
  | [] => []
  | Str s :: t =>
      if existsb (String.eqb s) seen then unique_from seen t
      else s :: unique_from (s :: seen) t
  | _ :: t => unique_from seen t
  end.

Definition unique (l : list cell) : list string := unique_from [] l.

(** [list.sort(key=lambda x: x[1], reverse=True)] of Python: descending,
    equal keys stay in their order. *)
Fixpoint insert_desc {A : Type} (x : A * fnum) (l : list (A * fnum))
  : list (A * fnum) :=
  match l with
  | [] => [x]
  | y :: t => if fgtb (snd x) (snd y) then x :: y :: t
              else y :: insert_desc x t
  end.

Definition sort_reverse {A : Type} (l : list (A * fnum)) : list (A * fnum) :=
  fold_left (fun acc x => insert_desc x acc) l [].

(** [regional_growth[regional_growth['Region'] == region]
      .sort_values('Month_Num')] *)
Definition region_data (nargsort : sorter)
  (regional_growth : Series (string * Z)) (region : string)
  : Series (string * Z) :=
  let selected :=
    filter (fun kv => String.eqb (fst (fst kv)) region) regional_growth in
  take (("", 0), 0)
       (nargsort (map (fun kv => snd (fst kv)) selected) true) selected.

(** One pass of the loop over the regions in
    [regional_performance_analysis]: what it appends to
    [growth_analysis]. *)
Definition region_growth (nargsort : sorter)
  (regional_growth : Series (string * Z)) (region : string)
  : list (string * fnum) :=
  let region_data := region_data nargsort regional_growth region in
  if (6 <=? length region_data)%nat then
    let recent_avg := mean (map snd (lastn 3 region_data)) in
    let early_avg := mean (map snd (firstn 3 region_data)) in
    if fgtb early_avg (Fin 0) then
      [(region,
        fmul (fdiv (fsub recent_avg early_avg) early_avg) hundred)]
    else []
  else [].

(** [df.groupby(['Region', 'Month_Num'])['Sales'].sum().reset_index()] *)
Definition regional_growth_frame (df : DataFrame)
  : outcome (Series (string * Z)) :=
  match Str.index_of "Region" (columns df),
        Str.index_of "Month_Num" (columns df),
        Str.index_of "Sales" (columns df) with
  | None, _, _ => Raise (KeyError "Region")
  | _, None, _ => Raise (KeyError "Month_Num")
  | _, _, None => Raise (KeyError "Sales")
  | Some i, Some j, Some k =>
      Ok (groupby_sum (pair_compare String.compare Z.compare)
            (fun r => match str_key (cell_at i r), num_key (cell_at j r) with
                      | Some a, Some b => Some (a, b)
                      | _, _ => None
                      end)
            (fun r => cell_value (cell_at k r)) (rows df))
  end.

Definition tier (share : fnum) : string :=
  if fgtb share (Fin 20) then "TIER 1"
  else if fgtb share (Fin 10) then "TIER 2"
  else if fgtb share (Fin 5) then "TIER 3" else "TIER 4".

Record regional_report : Type := mkRegional {
  performance_lines : list (share_line * string);   (* with the tier *)
  growth_analysis : list (string * fnum);           (* printed growth rates *)
  rp_top_region : string;
  top_region_share : fnum;
  growth_leaders : list string;
  declining_regions : list string
}.

(** [CSDGeographicAnalysis.regional_performance_analysis] *)
Definition regional_performance_analysis (nargsort : sorter) (df : DataFrame)
  : outcome regional_report :=
  match column_sum "Sales" df with
  | Raise e => Raise e
  | Ok total_sales =>
  match groupby_str_sum "Region" "Sales" df with
  | Raise e => Raise e
  | Ok by_region =>
  let regional_sales := series_sort_values nargsort "" false by_region in
  let regional_sales_millions := in_millions regional_sales in
  match regional_growth_frame df with
  | Raise e => Raise e
  | Ok regional_growth =>
  match get_column "Region" df with
  | Raise e => Raise e
  | Ok regions =>
  let growth :=
    sort_reverse
      (flat_map (region_growth nargsort regional_growth) (unique regions)) in
  match head regional_sales with
  | None => Raise IndexError
  | Some top =>
  Ok {| performance_lines :=
          map (fun l => (l, tier (line_share l)))
              (share_lines regional_sales_millions total_sales);
        growth_analysis := growth;
        rp_top_region := fst top;
        top_region_share :=
          fmul (fdiv (of_Z (snd top)) (of_Z total_sales)) hundred;
        growth_leaders :=
          map fst (filter (fun g => fgtb (snd g) (Fin 20)) growth);
        declining_regions :=
          map fst (filter (fun g => fgtb (Fin (- 10)) (snd g)) growth) |}
  end end end end end.

(** [CSDExploratoryAnalysis.time_series_analysis]: the monthly totals and
    the comparison of the two halves of the year. *)
Definition monthly_total (df : DataFrame) : outcome (Series (Z * Z)) :=
  match Str.index_of "Date" (columns df), Str.index_of "Sales" (columns df) with
  | None, _ => Raise (KeyError "Date")
  | _, None => Raise (KeyError "Sales")
  | Some i, Some j =>
      Ok (groupby_sum (pair_compare Z.compare Z.compare)
                      (fun r => date_key (cell_at i r))
                      (fun r => cell_value (cell_at j r)) (rows df))
  end.

Definition h1_h2_growth (df : DataFrame) : outcome fnum :=
  match monthly_total df with
  | Raise e => Raise e
  | Ok monthly =>
      let h1_total :=
        fold_right Z.add 0
          (map snd (filter (fun kv => snd (fst kv) <=? 6) monthly)) in
      let h2_total :=
        fold_right Z.add 0
          (map snd (filter (fun kv => 6 <? snd (fst kv)) monthly)) in
      Ok (if 0 <? h1_total
          then fmul (fdiv (of_Z (h2_total - h1_total)) (of_Z h1_total)) hundred
          else Fin 0)
  end.

(** ** Vocabulary of the statements *)

(** The state of a loader right after [load_data] read table [t]. *)
Definition loaded (t : DataFrame) : CSDDatasetLoader :=
  {| df_original := Some t; df_long := None; monthly_cols := [] |}.

(** The state of a loader whose long table is [df]. *)
Definition holding (df : DataFrame) : CSDDatasetLoader :=
  {| df_original := None; df_long := Some df; monthly_cols := [] |}.

Definition has_columns (names : list string) (df : DataFrame) : bool :=
  forallb (fun n => existsb (String.eqb n) (columns df)) names.

(** The cell of row [r] of [df] under the column [name]. *)
Definition field (df : DataFrame) (name : string) (r : row) : cell :=
  match Str.index_of name (columns df) with
  | Some i => cell_at i r
  | None => NaN
  end.

Definition month_columns (t : DataFrame) : list string :=
  filter (Str.contains "'24") (columns t).

Definition month_token (c : string) : string := Str.remove_char "'"%char c.

Definition parses (c : string) : bool :=
  match strptime_b_y (month_token c) with Some _ => true | None => false end.

Definition date_cell (c : string) : cell :=
  match strptime_b_y (month_token c) with
  | Some (y, m) => Timestamp y m
  | None => NaN
  end.

(** The LongRecord of the WideRecord [r] of [t] for the month column [c],
    and all the LongRecords of [r]. *)
Definition long_record (t : DataFrame) (r : row) (c : string) : row :=
  let d := date_cell c in
  map (fun n => field t n r) id_vars
  ++ [Str (month_token c); field t c r; d;
      dt_strftime_B d; dt_month d; dt_quarter d; dt_year d].

Definition long_records (t : DataFrame) (r : row) : list row :=
  map (long_record t r) (month_columns t).

(** Columns 15, 16 and 17 of the long table are Month, Sales and Date. *)
Definition sales_of (lr : row) : cell := cell_at 16 lr.
Definition date_of (lr : row) : cell := cell_at 17 lr.

Definition total (l : list Z) : Z := fold_right Z.add 0 l.

(** Chronological order of two Date cells. *)
Definition date_le (a b : cell) : Prop :=
  match a, b with
  | Timestamp y m, Timestamp y' m' => y < y' \/ (y = y' /\ m <= m')
  | _, _ => False
  end.

(** What a LongRecord carries from the wide table: the fifteen
    identifiers and the sales value. *)
Definition carried (lr : row) : row := firstn 15 lr ++ [sales_of lr].

Definition same_date (d : Z * Z) (c : cell) : bool :=
  match c with
  | Timestamp y m => (y =? fst d) && (m =? snd d)
  | _ => false
  end.

(** The records of a date come out in the order in which [pd.melt] laid
    them down. *)
Definition ties_keep_melt_order (melted out : list row) : Prop :=
  forall d : Z * Z,
    map carried (filter (fun r => same_date d (date_of r)) out) =
    map carried
        (filter (fun r => match cell_at 15 r with
                          | Str c => same_date d (date_cell c)
                          | _ => false
                          end) melted).



(** What [clean_data] prints for the long table [df]. *)
Definition negative_count (df : DataFrame) : nat :=
  match get_column "Sales" df with
  | Ok v => count_true (map lt0 v)
  | Raise _ => O
  end.

Definition clean_report (df : DataFrame) : list message :=
  [CleaningDataset]
  ++ (if (0 <? fold_right Nat.add O (map snd (isnull_sum df)))%nat
      then [FoundMissing (filter (fun p => (0 <? snd p)%nat) (isnull_sum df))]
      else [])
  ++ (if (0 <? count_true (duplicated df))%nat
      then [FoundDuplicates (count_true (duplicated df));
            RemovedDuplicates (length (rows (drop_duplicates df)))]
      else [])
  ++ (if (0 <? negative_count (drop_duplicates df))%nat
      then [FoundNegative (negative_count (drop_duplicates df))]
      else [])
  ++ [CleaningCompleted].

(** The messages of [clean_data] that report a removal or a clipping. *)
Definition reports_change (m : message) : bool :=
  match m with
  | FoundDuplicates _ | RemovedDuplicates _ | FoundNegative _ => true
  | _ => false
  end.


Definition is_found_negative (m : message) : bool :=
  match m with FoundNegative _ => true | _ => false end.

(** The rows [pd.melt] builds from the wide table [t]. *)
Definition melted_rows (t : DataFrame) : list row :=
  flat_map (fun c => map (fun r => map (fun n => field t n r) id_vars
                                   ++ [Str c; field t c r])
                         (rows t))
           (month_columns t).

(** The date [to_datetime] gives for a cell when it raises nothing. *)
Definition parsed_date (c : cell) : cell :=
  match c with
  | Str s => match strptime_b_y s with
             | Some (y, m) => Timestamp y m
             | None => NaN
             end
  | Timestamp y m => Timestamp y m
  | _ => NaN
  end.

(** One row of [df[name] = f(df[src])] for a new column, [src] being
    column [j]. *)
Definition added (f : cell -> cell) (j : nat) (r : row) : row :=
  r ++ [f (cell_at j r)].

(** The rows of the long table when the sort is about to run, and what
    the statements after the sort make of one row. *)
Definition before_sort (t : DataFrame) : list row :=
  map (fun r => added parsed_date 15
                  (set_nth 15 (str_replace_quote (cell_at 15 r)) r))
      (melted_rows t).

Definition after_sort (r : row) : row :=
  added dt_year 17 (added dt_quarter 17 (added dt_month 17
    (added dt_strftime_B 17 r))).

(** The indexer the sort applies. *)
Definition date_indexer (nargsort : sorter) (t : DataFrame) : list nat :=
  nargsort (map sort_key (map (cell_at 17) (before_sort t))) true.

(** The long table as [convert_to_long_format] leaves it when a month does
    not parse: melted, the quote taken out of the month names. *)
Definition melted_only (t : DataFrame) : DataFrame :=
  {| columns := id_vars ++ ["Month"; "Sales"];
     rows := map (fun r => set_nth 15 (str_replace_quote (cell_at 15 r)) r)
                 (melted_rows t) |}.

(** The sums by province, as [province_level_deep_dive] sorts them. *)
Definition province_sales (nargsort : sorter) (df : DataFrame)
  : Series string :=
  match groupby_str_sum "Province" "Sales" df with
  | Ok by_province => series_sort_values nargsort "" false by_province
  | Raise _ => []
  end.

(** The grand total of the sales of a table. *)
Definition total_sales (df : DataFrame) : Z :=
  total (map (fun r => cell_value (field df "Sales" r)) (rows df)).

(** ** Tables the statements are tried on *)

(** Numbered test records. *)
Definition numbered (n : nat) : string :=
  String (ascii_of_nat (65 + n / 10)) (String (ascii_of_nat (48 + n mod 10)) "").

(** The columns of the long table after a conversion. *)
Definition long_columns : list string :=
  id_vars ++ ["Month"; "Sales"; "Date"; "Month_Name"; "Month_Num"; "Quarter";
              "Year"].

(** A LongRecord for tests: every identifier is [item], the month column
    is [c], the sales value [sales]. *)
Definition sample_record (item c : string) (sales : cell) : row :=
  let d := date_cell c in
  map (fun _ => Str item) id_vars
  ++ [Str (month_token c); sales; d;
      dt_strftime_B d; dt_month d; dt_quarter d; dt_year d].

(** Long tables for the metrics. *)
Definition long_table (rs : list row) : DataFrame :=
  {| columns := long_columns; rows := rs |}.

Definition months_2024 : list string :=
  ["Jan'24"; "Feb'24"; "Mar'24"; "Apr'24"; "May'24"; "Jun'24";
   "Jul'24"; "Aug'24"; "Sep'24"; "Oct'24"; "Nov'24"; "Dec'24"].

(** A wide table of two WideRecords: every identifier of the first is
    "X1" and its monthly values are 100, 0, ..., 0; every identifier of the
    second is "X2" and its monthly values are 1, 2, ..., 12. *)
Definition year_2024 : DataFrame :=
  {| columns := id_vars ++ months_2024;
     rows := [map (fun _ => Str "X1") id_vars
              ++ Num 100 :: repeat (Num 0) 11;
              map (fun _ => Str "X2") id_vars
              ++ map (fun n => Num (Z.of_nat n)) (seq 1 12)] |}.

(** A wide table with one month column and twenty WideRecords, numbered
    in their identifiers, each with sales 10. *)
Definition twenty_rows : DataFrame :=
  {| columns := id_vars ++ ["Jan'24"];
     rows := map (fun n => map (fun _ => Str (numbered n)) id_vars ++ [Num 10])
                 (seq 0 20) |}.



(** Two LongRecords, the second with sales -50. *)
Definition two_records : DataFrame :=
  {| columns := long_columns;
     rows := [sample_record "X1" "Jan'24" (Num 100);
              sample_record "X1" "Feb'24" (Num (-50))] |}.

(** Two records that differ in their sales only, -5 and -3. *)
Definition twins : DataFrame :=
  {| columns := long_columns;
     rows := [sample_record "X1" "Jan'24" (Num (-5));
              sample_record "X1" "Jan'24" (Num (-3))] |}.


(** Two regions with sales 100 and 300. *)
Definition east_and_west : DataFrame :=
  long_table [sample_record "East" "Jan'24" (Num 100);
              sample_record "West" "Jan'24" (Num 300)].

(** Six months of two regions: East sells nothing in the first three
    months and 5 a month afterwards, West 1 a month and then 5. *)
Definition half_year : DataFrame :=
  long_table
    (map (fun mc => sample_record "East" (fst mc) (Num (snd mc)))
         [("Jan'24", 0); ("Feb'24", 0); ("Mar'24", 0);
          ("Apr'24", 5); ("May'24", 5); ("Jun'24", 5)]
     ++ map (fun mc => sample_record "West" (fst mc) (Num (snd mc)))
            [("Jan'24", 1); ("Feb'24", 1); ("Mar'24", 1);
             ("Apr'24", 5); ("May'24", 5); ("Jun'24", 5)]).


(** ** Vocabulary of the further statements *)

(** [identify_monthly_columns] and then [convert_to_long_format], on a
    loader that has just read the table [t]. *)
Definition identify_and_convert (nargsort : sorter) (t : DataFrame)
  : outcome bool * world :=
  (identify_monthly_columns ;; convert_to_long_format nargsort)
    {| self := loaded t; stdout := [] |}.

(** What [identify_monthly_columns] prints for the table [t]. *)
Definition found_columns (t : DataFrame) : message :=
  FoundMonthlyColumns (length (month_columns t))
                      (firstn 3 (month_columns t)) (lastn 3 (month_columns t)).

(** A wide table that lacks the identifier columns: twelve months of one
    record. *)
Definition months_only : DataFrame :=
  {| columns := months_2024;
     rows := [map (fun n => Num (Z.of_nat n)) (seq 1 12)] |}.

(** A long table without its Sales column: the same record twice. *)
Definition no_sales_column : DataFrame :=
  {| columns := ["Region"; "Month"];
     rows := [[Str "East"; Str "Jan24"]; [Str "East"; Str "Jan24"]] |}.

(** Two records with a missing region, the second also with negative
    sales. *)
Definition missing_regions : DataFrame :=
  {| columns := ["Region"; "Sales"];
     rows := [[NaN; Num 4]; [NaN; Num (-4)]] |}.

(** The sales of the records of [df] whose column [by_] holds [k]. *)
Definition sales_where (df : DataFrame) (by_ k : string) : Z :=
  total (map (fun r => cell_value (field df "Sales" r))
             (filter (fun r => cell_eqb (field df by_ r) (Str k)) (rows df))).

(** A long table that has lost its Province column. *)
Definition no_province_column : DataFrame :=
  {| columns := ["Region"; "Sales"];
     rows := [[Str "East"; Num 4]] |}.

(** ** geographic_analysis.py: the hotspots *)



(** Descending order of two growth rates. *)
Definition at_least (a b : fnum) : Prop :=
  match a, b with
  | Fin x, Fin y => (y <= x)%Q
  | _, _ => False
  end.


(** A year of three regions: East sells 10 a month, then 13 a month from
    October on; North 10 a month, then 8; West 10 a month throughout. *)
Definition three_regions : DataFrame :=
  long_table
    (flat_map (fun c => [sample_record "East" c (Num 10);
                         sample_record "North" c (Num 10);
                         sample_record "West" c (Num 10)])
              (firstn 9 months_2024)
     ++ flat_map (fun c => [sample_record "East" c (Num 13);
                            sample_record "North" c (Num 8);
                            sample_record "West" c (Num 10)])
                 (skipn 9 months_2024)).

(** ** eda_analysis.py: the products *)

(** [series.get(key, default)] *)
Definition series_get (key : string) (default : Z) (s : Series string) : Z :=
  match find (fun kv => String.eqb (fst kv) key) s with
  | Some kv => snd kv
  | None => default
  end.

(** [df.groupby(by)['Sales'].sum().sort_values(ascending=False)] *)
Definition ranked_sales (nargsort : sorter) (by_ : string) (df : DataFrame)
  : outcome (Series string) :=
  match groupby_str_sum by_ "Sales" df with
  | Raise e => Raise e
  | Ok s => Ok (series_sort_values nargsort "" false s)
  end.

Record product_report : Type := mkProduct {
  manufacturer_lines : list share_line;   (* printed under A *)
  brand_lines : list share_line;          (* printed under B *)
  flavor_lines : list share_line;         (* printed under C *)
  pack_type_lines : list share_line;      (* printed under D *)
  reg_diet_lines : list share_line;       (* printed under E *)
  top_manufacturer : string;
  top_manufacturer_share : fnum;
  top_brand : string;
  top_flavor : string;
  top_pack_type : string;
  diet_penetration : fnum
}.

(** [CSDExploratoryAnalysis.product_performance_analysis] *)
Definition product_performance_analysis (nargsort : sorter) (df : DataFrame)
  : outcome product_report :=
  match column_sum "Sales" df with
  | Raise e => Raise e
  | Ok total_sales =>
  match ranked_sales nargsort "KEY MANU  & KINZA" df with
  | Raise e => Raise e
  | Ok manu_sales =>
  match ranked_sales nargsort "BRAND" df with
  | Raise e => Raise e
  | Ok brand_sales =>
  match ranked_sales nargsort "CSD Flavor Segment" df with
  | Raise e => Raise e
  | Ok flavor_sales =>
  match ranked_sales nargsort "PACK TYPE" df with
  | Raise e => Raise e
  | Ok pack_type_sales =>
  match ranked_sales nargsort "REG/DIET" df with
  | Raise e => Raise e
  | Ok reg_diet_sales =>
  match head manu_sales, head brand_sales, head flavor_sales,
        head pack_type_sales with
  | Some manu, Some brand, Some flavor, Some pack_type =>
      Ok {| manufacturer_lines :=
              share_lines (in_millions manu_sales) total_sales;
            brand_lines :=
              share_lines (firstn 15 (in_millions brand_sales)) total_sales;
            flavor_lines :=
              share_lines (in_millions flavor_sales) total_sales;
            pack_type_lines :=
              share_lines (in_millions pack_type_sales) total_sales;
            reg_diet_lines :=
              share_lines (in_millions reg_diet_sales) total_sales;
            top_manufacturer := fst manu;
            top_manufacturer_share :=
              fmul (fdiv (of_Z (snd manu)) (of_Z total_sales)) hundred;
            top_brand := fst brand;
            top_flavor := fst flavor;
            top_pack_type := fst pack_type;
            diet_penetration :=
              fmul (fdiv (of_Z (series_get "DIET" 0 reg_diet_sales))
                         (of_Z total_sales))
                   hundred |}
  | _, _, _, _ => Raise IndexError    (* [manu_sales.index[0]] and the like *)
  end end end end end end end.

(** A product table: the columns that [product_performance_analysis]
    reads, and records given by manufacturer, brand, flavor, pack type,
    regular or diet, and sales. *)
Definition product_columns : list string :=
  ["KEY MANU  & KINZA"; "BRAND"; "CSD Flavor Segment"; "PACK TYPE";
   "REG/DIET"; "Sales"].

Definition product_table (rs : list (string * string * Z)) : DataFrame :=
  {| columns := product_columns;
     rows := map (fun r => [Str "M"; Str (fst (fst r)); Str "Cola"; Str "CAN";
                            Str (snd (fst r)); Num (snd r)]) rs |}.

(** Three brands, one of them diet, one labelled Diet in lower case. *)
Definition colas : DataFrame :=
  product_table [("A", "REGULAR", 60); ("B", "DIET", 30); ("C", "Diet", 10)].
(** ** eda_analysis.py: the seasonality *)









(** Four months: sales of 5, 9, 9 and 5. *)
Definition four_months : DataFrame :=
  long_table [sample_record "East" "Jan'24" (Num 5);
              sample_record "East" "Feb'24" (Num 9);
              sample_record "East" "Mar'24" (Num 9);
              sample_record "East" "Apr'24" (Num 5)].
(** ** data_loader.py: the market tiers of [create_derived_features] *)

(** Values in ascending order, as a quantile reads them. *)
Fixpoint insert_ascending (x : Z) (l : list Z) : list Z :=
  match l with
  | [] => [x]
  | y :: t => if x <=? y then x :: y :: t else y :: insert_ascending x t
  end.

Definition sort_ascending (l : list Z) : list Z :=
  fold_right insert_ascending [] l.

(** [series.quantile(q)] with the default linear interpolation, on the
    values in ascending order, of which there is at least one: the value
    at position (n-1)*q, between its two neighbours when the position is
    no integer. *)
Definition quantile (sorted : list Z) (q : Q) : Q :=
  let h := (inject_Z (Z.of_nat (length sorted - 1)) * q)%Q in
  let lower := Z.to_nat (Qfloor h) in
  let a := nth lower sorted 0 in
  let b := nth (S lower) sorted a in
  (inject_Z a + inject_Z (b - a) * (h - inject_Z (Qfloor h)))%Q.

(** [np.linspace(0, 1, 5)] *)
Definition quartiles : list Q := [0; 1 # 4; 1 # 2; 3 # 4; 1]%Q.

Fixpoint has_duplicate (bins : list Q) : bool :=
  match bins with
  | [] => false
  | b :: t => existsb (Qeq_bool b) t || has_duplicate t
  end.

(** [bins.searchsorted(x, side='left')] on bins in ascending order: the
    position of the first bin that is not below [x]. *)
Fixpoint searchsorted_left (bins : list Q) (x : Q) : nat :=
  match bins with
  | [] => O
  | b :: t => if Qle_bool x b then O else S (searchsorted_left t x)
  end.

(** The number of the bin of [x], with [include_lowest=True]: the lowest
    edge belongs to the first bin. *)
Definition bin_of (bins : list Q) (x : Q) : nat :=
  if Qeq_bool x (hd 0%Q bins) then 1%nat else searchsorted_left bins x.

(** [pd.qcut(x, q=4, labels=labels)]: the edges of the bins are the
    quartiles of the values; edges that coincide raise ValueError, and so
    does a series of no values, whose edges are all missing. A value
    outside every bin has no label. *)
Definition qcut (x : Series string) (labels : list string)
  : outcome (list (string * cell)) :=
  match x with
  | [] => Raise (ValueError "Bin edges must be unique")
  | _ :: _ =>
      let bins := map (quantile (sort_ascending (map snd x))) quartiles in
      if has_duplicate bins then Raise (ValueError "Bin edges must be unique")
      else
        Ok (map (fun kv =>
                   let ids := bin_of bins (inject_Z (snd kv)) in
                   (fst kv,
                    if ((ids =? 0) || (ids =? length bins))%nat then NaN
                    else Str (nth (ids - 1) labels "")))
                x)
  end.

Definition tier_labels : list string := ["Tier 4"; "Tier 3"; "Tier 2"; "Tier 1"].

(** [market_sizes = df.groupby('MARKET')['Sales'].sum()
                      .sort_values(ascending=False)]
    [market_tiers = pd.qcut(market_sizes, q=4, labels=[...])] *)
Definition market_tiers (nargsort : sorter) (df : DataFrame)
  : outcome (list (string * cell)) :=
  match groupby_str_sum "MARKET" "Sales" df with
  | Raise e => Raise e
  | Ok by_market =>
      qcut (series_sort_values nargsort "" false by_market) tier_labels
  end.

(** [series.map(other)] on one cell: the value of [other] at that label,
    missing when there is none. *)
Definition series_map (other : list (string * cell)) (c : cell) : cell :=
  match c with
  | Str k =>
      match find (fun kv => String.eqb (fst kv) k) other with
      | Some kv => snd kv
      | None => NaN
      end
  | _ => NaN
  end.

(** [df['Market_Tier'] = df['MARKET'].map(market_tiers)] *)
Definition market_tier_column (nargsort : sorter) (df : DataFrame)
  : outcome (list cell) :=
  match market_tiers nargsort df with
  | Raise e => Raise e
  | Ok tiers =>
      match get_column "MARKET" df with
      | Raise e => Raise e
      | Ok markets => Ok (map (series_map tiers) markets)
      end
  end.

(** The number in a tier's label; 0 for anything else. *)
Definition tier_number (c : cell) : Z :=
  match c with
  | Str s =>
      if String.eqb s "Tier 1" then 1
      else if String.eqb s "Tier 2" then 2
      else if String.eqb s "Tier 3" then 3
      else if String.eqb s "Tier 4" then 4 else 0
  | _ => 0
  end.

(** A table of markets and their sales. *)
Definition market_table (rs : list (string * Z)) : DataFrame :=
  {| columns := ["MARKET"; "Sales"];
     rows := map (fun r => [Str (fst r); Num (snd r)]) rs |}.

(** Five markets with sales 10, 20, 30, 40 and 50. *)
Definition five_markets : DataFrame :=
  market_table [("A", 10); ("B", 20); ("C", 30); ("D", 40); ("E", 50)].

(** ** geographic_analysis.py: the seasons *)

(** [df.groupby([a, b])['Sales'].sum().reset_index()], [a] a column of
    names; rows that lack either key belong to no group. *)
Definition groupby_pair_sum {K : Type} (cmp : K -> K -> comparison)
  (key : cell -> option K) (a b : string) (df : DataFrame)
  : outcome (Series (string * K)) :=
  match Str.index_of a (columns df), Str.index_of b (columns df),
        Str.index_of "Sales" (columns df) with
  | None, _, _ => Raise (KeyError a)
  | _, None, _ => Raise (KeyError b)
  | _, _, None => Raise (KeyError "Sales")
  | Some i, Some j, Some k =>
      Ok (groupby_sum (pair_compare String.compare cmp)
            (fun r => match str_key (cell_at i r), key (cell_at j r) with
                      | Some x, Some y => Some (x, y)
                      | _, _ => None
                      end)
            (fun r => cell_value (cell_at k r)) (rows df))
  end.

(** A frame of groups, pivoted: [frame.pivot(index=a, columns=b,
    values='Sales').fillna(0)]. Its index holds the labels of [a], each
    once, in their order; its columns hold the labels of [b]; a cell
    without a group holds 0. *)
Fixpoint distinct (seen : list string) (l : list string) : list string :=
  match l with
  | [] => []
  | s :: t =>
      if existsb (String.eqb s) seen then distinct seen t
      else s :: distinct (s :: seen) t
  end.

Definition pivot_index {K : Type} (grouped : Series (string * K))
  : list string :=
  distinct [] (map (fun kv => fst (fst kv)) grouped).

Definition in_pivot_columns {K : Type} (eqb : K -> K -> bool)
  (grouped : Series (string * K)) (label : K) : bool :=
  existsb (fun kv => eqb (snd (fst kv)) label) grouped.

Definition pivot_cell {K : Type} (eqb : K -> K -> bool)
  (grouped : Series (string * K)) (row_label : string) (label : K) : Z :=
  match find (fun kv => String.eqb (fst (fst kv)) row_label
                        && eqb (snd (fst kv)) label) grouped with
  | Some kv => snd kv
  | None => 0
  end.

(** [pivot.loc[row_label, label]] for a row label of the index: a label
    that is no column raises KeyError. *)
Definition loc (grouped : Series (string * string)) (row_label label : string)
  : outcome Z :=
  if in_pivot_columns String.eqb grouped label
  then Ok (pivot_cell String.eqb grouped row_label label)
  else Raise (KeyError label).

Record seasonal_line : Type := mkSeasonal {
  line_region : string;
  winter_share : fnum;
  spring_share : fnum;
  summer_share : fnum;
  fall_share : fnum
}.

(** The loop over [regional_seasonal_pivot.index]: the lines it prints. *)
Fixpoint seasonal_lines (pivot : Series (string * string))
  (regions : list string) : outcome (list seasonal_line) :=
  match regions with
  | [] => Ok []
  | region :: rest =>
      match loc pivot region "Winter" with
      | Raise e => Raise e
      | Ok winter =>
      match loc pivot region "Spring" with
      | Raise e => Raise e
      | Ok spring =>
      match loc pivot region "Summer" with
      | Raise e => Raise e
      | Ok summer =>
      match loc pivot region "Fall" with
      | Raise e => Raise e
      | Ok fall =>
          let total := winter + spring + summer + fall in
          let share := fun v => fmul (fdiv (of_Z v) (of_Z total)) hundred in
          match seasonal_lines pivot rest with
          | Raise e => Raise e
          | Ok lines =>
              Ok (if 0 <? total
                  then {| line_region := region;
                          winter_share := share winter;
                          spring_share := share spring;
                          summer_share := share summer;
                          fall_share := share fall |} :: lines
                  else lines)
          end
      end end end end
  end.

(** One pass of the loop over [ramadan_pivot.index]: what it appends to
    [ramadan_impact]. *)
Definition ramadan_impact_of (pivot : Series (string * Z)) (region : string)
  : list (string * fnum) :=
  let ramadan_sales :=
    if in_pivot_columns Z.eqb pivot 1 then pivot_cell Z.eqb pivot region 1
    else 0 in
  let non_ramadan_sales :=
    if in_pivot_columns Z.eqb pivot 0 then pivot_cell Z.eqb pivot region 0
    else 0 in
  let total_months_ramadan := 1 in
  let total_months_non_ramadan := 11 in
  if 0 <? non_ramadan_sales then
    let ramadan_avg := fdiv (of_Z ramadan_sales) (of_Z total_months_ramadan) in
    let non_ramadan_avg :=
      fdiv (of_Z non_ramadan_sales) (of_Z total_months_non_ramadan) in
    [(region,
      fmul (fdiv (fsub ramadan_avg non_ramadan_avg) non_ramadan_avg) hundred)]
  else [].

Record seasonal_report : Type := mkSeasonalReport {
  seasonal_performance : list seasonal_line;     (* printed first *)
  ramadan_impact : list (string * fnum);         (* printed second *)
  ramadan_highest_impact : option string;
  ramadan_highest_impact_pct : fnum
}.

(** [CSDGeographicAnalysis.seasonal_geographic_patterns] *)
Definition seasonal_geographic_patterns (df : DataFrame)
  : outcome seasonal_report :=
  match groupby_pair_sum String.compare str_key "Region" "Season" df with
  | Raise e => Raise e
  | Ok regional_seasonal =>
  match seasonal_lines regional_seasonal (pivot_index regional_seasonal) with
  | Raise e => Raise e
  | Ok lines =>
  match groupby_pair_sum Z.compare num_key "Region" "Ramadan_Period" df with
  | Raise e => Raise e
  | Ok ramadan_data =>
  let impact :=
    sort_reverse (flat_map (ramadan_impact_of ramadan_data)
                           (pivot_index ramadan_data)) in
  Ok {| seasonal_performance := lines;
        ramadan_impact := impact;
        ramadan_highest_impact := option_map fst (head impact);
        ramadan_highest_impact_pct :=
          match head impact with
          | Some first => snd first
          | None => Fin 0
          end |}
  end end end.

(** ** data_loader.py: the seasons of [create_derived_features] *)

(** [df['Month_Num'].map({12: 'Winter', 1: 'Winter', ..., 11: 'Fall'})] on
    one cell. *)
Definition season (month_num : cell) : cell :=
  match month_num with
  | Num 12 | Num 1 | Num 2 => Str "Winter"
  | Num 3 | Num 4 | Num 5 => Str "Spring"
  | Num 6 | Num 7 | Num 8 => Str "Summer"
  | Num 9 | Num 10 | Num 11 => Str "Fall"
  | _ => NaN
  end.

(** [df['Month_Num'].apply(lambda x: 1 if x == 10 else 0)] on one cell. *)
Definition ramadan_period (month_num : cell) : cell :=
  match month_num with
  | Num 10 => Num 1
  | _ => Num 0
  end.

(** The two columns that [create_derived_features] adds for the seasonal
    analysis, Season and Ramadan_Period. *)
Definition add_season_columns (df : DataFrame) : outcome DataFrame :=
  match get_column "Month_Num" df with
  | Raise e => Raise e
  | Ok month_num =>
      let with_season := set_column "Season" (map season month_num) df in
      match get_column "Month_Num" with_season with
      | Raise e => Raise e
      | Ok month_num =>
          Ok (set_column "Ramadan_Period" (map ramadan_period month_num)
                         with_season)
      end
  end.

(** Some record of [df] with a region is of the season [s]. *)
Definition has_season (df : DataFrame) (s : string) : Prop :=
  exists x a, In x (rows df) /\ field df "Region" x = Str a /\
              field df "Season" x = Str s.

(** The sales of the records of the region [region] whose column [by_]
    holds [label]. *)
Definition sales_of_pair (df : DataFrame) (by_ region : string) (label : cell)
  : Z :=
  total (map (fun r => cell_value (field df "Sales" r))
             (filter (fun r => cell_eqb (field df "Region" r) (Str region)
                               && cell_eqb (field df by_ r) label)
                     (rows df))).

(** A year of two regions: East sells 10 a month and 12 more in October,
    West 5 a month. *)
Definition year_of_two_regions : DataFrame :=
  long_table
    (flat_map (fun c => [sample_record "East" c (Num 10);
                         sample_record "West" c (Num 5)])
              months_2024
     ++ [sample_record "East" "Oct'24" (Num 12)]).

(** [half_year] and [year_of_two_regions] with the columns of the
    seasons. *)
Definition with_seasons (df : DataFrame) : DataFrame :=
  match add_season_columns df with
  | Ok d => d
  | Raise _ => df
  end.

(** The sales of a region in a season, and in the four seasons. *)
Definition season_sales (df : DataFrame) (region s : string) : Z :=
  sales_of_pair df "Season" region (Str s).

Definition seasons_total (df : DataFrame) (region : string) : Z :=
  season_sales df region "Winter" + season_sales df region "Spring"
  + season_sales df region "Summer" + season_sales df region "Fall".

(** The share of [v] in [t], in percent. *)
Definition percent (v t : Z) : fnum := fmul (fdiv (of_Z v) (of_Z t)) hundred.

(** The sales of a region in the records of the Ramadan period, and in
    the others. *)
Definition ramadan_sales (df : DataFrame) (region : string) : Z :=
  sales_of_pair df "Ramadan_Period" region (Num 1).

Definition other_sales (df : DataFrame) (region : string) : Z :=
  sales_of_pair df "Ramadan_Period" region (Num 0).

(** Some record of [df] is of the region [region] and has a season; a
    Ramadan period. *)
Definition has_a_season (df : DataFrame) (region : string) : Prop :=
  exists x s, In x (rows df) /\ field df "Region" x = Str region /\
              field df "Season" x = Str s.

Definition has_a_period (df : DataFrame) (region : string) : Prop :=
  exists x n, In x (rows df) /\ field df "Region" x = Str region /\
              field df "Ramadan_Period" x = Num n.

(** The sales of the records of the first half of the year (January to
    June), and of the second. *)
Definition half_sales (df : DataFrame) (first : bool) : Z :=
  total (map (fun r => cell_value (field df "Sales" r))
             (filter (fun r => match field df "Date" r with
                               | Timestamp _ m =>
                                   if first then m <=? 6 else 6 <? m
                               | _ => false
                               end)
                     (rows df))).

(** The sales of the records that have a date. *)
Definition dated_sales (df : DataFrame) : Z :=
  total (map (fun r => cell_value (field df "Sales" r))
             (filter (fun r => match field df "Date" r with
                               | Timestamp _ _ => true
                               | _ => false
                               end)
                     (rows df))).

(** Some month column of the wide table [t] is a month of the season
    [s]. *)
Definition covers_season (t : DataFrame) (s : string) : Prop :=
  exists c y m, In c (month_columns t) /\
                strptime_b_y (month_token c) = Some (y, m) /\
                season (Num m) = Str s.

(** Some WideRecord of [t] has a region. *)
Definition has_a_region (t : DataFrame) : Prop :=
  exists r a, In r (rows t) /\ field t "Region" r = Str a.

(** A LongRecord with its Season and Ramadan_Period cells, both read from
    its Month_Num, the twentieth column. *)
Definition with_season_cells (r : row) : row :=
  (r ++ [season (cell_at 19 r)])
  ++ [ramadan_period (cell_at 19 (r ++ [season (cell_at 19 r)]))].

(** * Proofs *)

(** ** Lists and indexers *)

Lemma nth_take_seq {A : Type} (d : A) (l p : list A) :
  map (fun i => nth i (p ++ l) d) (seq (length p) (length l)) = l.
Proof.
  revert p. induction l as [|a l IH]; intros p; simpl.
  - reflexivity.
  - rewrite app_nth2, Nat.sub_diag by lia. simpl. f_equal.
    specialize (IH (p ++ [a])).
    rewrite <- app_assoc, length_app in IH. simpl in IH.
    rewrite Nat.add_1_r in IH. exact IH.
Qed.

Lemma take_seq {A : Type} (d : A) (l : list A) :
  take d (seq 0 (length l)) l = l.
Proof. exact (nth_take_seq d l []). Qed.

Lemma take_perm {A : Type} (d : A) (idx : list nat) (l : list A) :
  Permutation idx (seq 0 (length l)) -> Permutation (take d idx l) l.
Proof.
  intros H. rewrite <- (take_seq d l) at 2.
  unfold take. apply Permutation_map. exact H.
Qed.

Lemma take_map {A B : Type} (f : A -> B) (d : A) (idx : list nat) (l : list A) :
  map f (take d idx l) = take (f d) idx (map f l).
Proof.
  unfold take. rewrite map_map. apply map_ext. intros i.
  symmetry. apply map_nth.
Qed.

Lemma take_length {A : Type} (d : A) (idx : list nat) (l : list A) :
  length (take d idx l) = length idx.
Proof. unfold take. apply length_map. Qed.

Lemma StronglySorted_map {A B : Type} (R : B -> B -> Prop) (f : A -> B) l :
  StronglySorted (fun x y => R (f x) (f y)) l -> StronglySorted R (map f l).
Proof.
  induction 1; simpl; constructor; auto.
  rewrite Forall_map. assumption.
Qed.

Lemma StronglySorted_map_inv {A B : Type} (R : B -> B -> Prop) (f : A -> B) l :
  StronglySorted R (map f l) -> StronglySorted (fun x y => R (f x) (f y)) l.
Proof.
  induction l as [|a l IH]; simpl; intros H; [constructor|].
  inversion H; subst. constructor; auto.
  rewrite <- Forall_map. assumption.
Qed.

(** ** The two insertion kernels keep the library's promise *)

Lemma in_orderb_spec asc a b : in_orderb asc a b = true <-> in_order asc a b.
Proof. destruct asc; simpl; apply Z.leb_le. Qed.

Lemma in_order_total asc a b : in_order asc a b \/ in_order asc b a.
Proof. destruct asc; simpl; lia. Qed.

Lemma in_order_trans asc a b c :
  in_order asc a b -> in_order asc b c -> in_order asc a c.
Proof. destruct asc; simpl; lia. Qed.

Lemma insert_key_perm strict asc keys i l :
  Permutation (insert_key strict asc keys i l) (i :: l).
Proof.
  induction l as [|j t IH]; simpl; [reflexivity|].
  destruct (if strict then _ else _); [reflexivity|].
  rewrite IH. apply perm_swap.
Qed.

Lemma insert_key_sorted strict asc keys i l :
  StronglySorted (fun x y => in_order asc (nth x keys 0) (nth y keys 0)) l ->
  StronglySorted (fun x y => in_order asc (nth x keys 0) (nth y keys 0))
                 (insert_key strict asc keys i l).
Proof.
  induction 1 as [|j t Hs IH Hall]; simpl.
  - repeat constructor.
  - set (before := if strict then _ else _).
    assert (Hb : before = true -> in_order asc (nth i keys 0) (nth j keys 0)).
    { subst before. destruct strict; intros E.
      - apply negb_true_iff in E.
        destruct (in_order_total asc (nth i keys 0) (nth j keys 0)) as [|C];
          [assumption|].
        apply in_orderb_spec in C. congruence.
      - apply in_orderb_spec. exact E. }
    assert (Hn : before = false -> in_order asc (nth j keys 0) (nth i keys 0)).
    { subst before. destruct strict; intros E.
      - apply negb_false_iff in E. apply in_orderb_spec. exact E.
      - destruct (in_order_total asc (nth i keys 0) (nth j keys 0)) as [C|];
          [|assumption].
        apply in_orderb_spec in C. congruence. }
    destruct before.
    + constructor; [constructor; assumption|].
      constructor; [auto|].
      eapply Forall_impl; [|exact Hall]. intros x Hx.
      eapply in_order_trans; [apply Hb; reflexivity | exact Hx].
    + constructor; [assumption|].
      eapply Permutation_Forall; [symmetry; apply insert_key_perm|].
      constructor; auto.
Qed.

Lemma insertion_fold strict asc keys l acc :
  Permutation (fold_left (fun a i => insert_key strict asc keys i a) l acc)
              (l ++ acc) /\
  (StronglySorted (fun x y => in_order asc (nth x keys 0) (nth y keys 0)) acc ->
   StronglySorted (fun x y => in_order asc (nth x keys 0) (nth y keys 0))
     (fold_left (fun a i => insert_key strict asc keys i a) l acc)).
Proof.
  revert acc. induction l as [|i l IH]; intros acc; simpl.
  - split; [reflexivity | auto].
  - destruct (IH (insert_key strict asc keys i acc)) as [P S]. split.
    + rewrite P, insert_key_perm. symmetry. apply Permutation_middle.
    + intros H. apply S, insert_key_sorted, H.
Qed.

Lemma insertion_argsort_spec strict : nargsort_spec (insertion_argsort strict).
Proof.
  intros keys asc. unfold insertion_argsort.
  destruct (insertion_fold strict asc keys (seq 0 (length keys)) []) as [P S].
  split.
  - rewrite P, app_nil_r. reflexivity.
  - unfold take. apply StronglySorted_map, S. constructor.
Qed.

(** ** Equality of cells and rows *)

Lemma cell_eqb_eq a b : cell_eqb a b = true <-> a = b.
Proof.
  destruct a, b; simpl; split; intros H; try discriminate; try reflexivity.
  - apply String.eqb_eq in H. congruence.
  - inversion H. apply String.eqb_refl.
  - apply Z.eqb_eq in H. congruence.
  - inversion H. apply Z.eqb_refl.
  - apply andb_true_iff in H. destruct H as [H1 H2].
    apply Z.eqb_eq in H1, H2. congruence.
  - inversion H. rewrite !Z.eqb_refl. reflexivity.
Qed.

Lemma row_eqb_eq r s : row_eqb r s = true <-> r = s.
Proof.
  revert s. induction r as [|a r IH]; intros [|b s]; simpl;
    split; intros H; try discriminate; try reflexivity.
  - apply andb_true_iff in H. destruct H as [H1 H2].
    apply cell_eqb_eq in H1. apply IH in H2. congruence.
  - inversion H; subst. apply andb_true_iff. split.
    + apply cell_eqb_eq. reflexivity.
    + apply IH. reflexivity.
Qed.

Lemma seen_In r seen : existsb (row_eqb r) seen = true <-> In r seen.
Proof.
  rewrite existsb_exists. split.
  - intros [x [Hx E]]. apply row_eqb_eq in E. subst. exact Hx.
  - intros H. exists r. split; [exact H | apply row_eqb_eq; reflexivity].
Qed.

Lemma row_eq_dec (r s : row) : {r = s} + {r <> s}.
Proof.
  destruct (row_eqb r s) eqn:E.
  - left. apply row_eqb_eq. exact E.
  - right. intros H. apply row_eqb_eq in H. congruence.
Qed.

(** ** Duplicates *)

Lemma kept_cons r l seen :
  mask_rows (r :: l) (map negb (duplicated_from seen (r :: l))) =
  if existsb (row_eqb r) seen
  then mask_rows l (map negb (duplicated_from (r :: seen) l))
  else r :: mask_rows l (map negb (duplicated_from (r :: seen) l)).
Proof.
  unfold mask_rows. simpl. destruct (existsb (row_eqb r) seen); reflexivity.
Qed.

Lemma kept_spec l : forall seen,
  NoDup (mask_rows l (map negb (duplicated_from seen l))) /\
  forall x, In x (mask_rows l (map negb (duplicated_from seen l))) <->
            In x l /\ ~ In x seen.
Proof.
  induction l as [|r l IH]; intros seen.
  - split; [constructor|]. simpl. tauto.
  - rewrite kept_cons. destruct (IH (r :: seen)) as [N I].
    destruct (existsb (row_eqb r) seen) eqn:E.
    + split; [exact N|]. intros x. rewrite I. simpl.
      apply seen_In in E. split.
      * intros [H1 H2]. tauto.
      * intros [[->|H1] H2]; [contradiction|]. split; [exact H1|].
        intros [<-|H3]; contradiction.
    + assert (Hr : ~ In r seen).
      { intros H. apply seen_In in H. congruence. }
      split.
      * constructor; [|exact N]. rewrite I. simpl. tauto.
      * intros x. simpl. rewrite I. simpl. split.
        -- intros [<-|[H1 H2]]; [tauto|]. tauto.
        -- intros [[->|H1] H2]; [tauto|].
           destruct (row_eq_dec r x) as [->|D]; [tauto|].
           right. tauto.
Qed.

Lemma count_true_cons b l :
  count_true (b :: l) = ((if b then 1 else 0) + count_true l)%nat.
Proof. unfold count_true. simpl. destruct b; reflexivity. Qed.

Lemma no_duplicate_flags l : forall seen,
  NoDup l -> (forall x, In x l -> ~ In x seen) ->
  count_true (duplicated_from seen l) = O.
Proof.
  induction l as [|r l IH]; intros seen N D; [reflexivity|].
  simpl. rewrite count_true_cons. inversion N; subst.
  destruct (existsb (row_eqb r) seen) eqn:E.
  - apply seen_In in E. exfalso. apply (D r); simpl; auto.
  - simpl. apply IH; [assumption|].
    intros x Hx [<-|Hs]; [contradiction|]. apply (D x); simpl; auto.
Qed.

Lemma unmarked_kept l : forall seen,
  count_true (duplicated_from seen l) = O ->
  mask_rows l (map negb (duplicated_from seen l)) = l.
Proof.
  induction l as [|r l IH]; intros seen H; [reflexivity|].
  rewrite kept_cons. simpl in H. rewrite count_true_cons in H.
  destruct (existsb (row_eqb r) seen); [discriminate|].
  f_equal. apply IH. exact H.
Qed.

Lemma drop_duplicates_same df :
  count_true (duplicated df) = O -> drop_duplicates df = df.
Proof.
  intros H. unfold drop_duplicates, duplicated in *.
  rewrite unmarked_kept by exact H. destruct df; reflexivity.
Qed.

Lemma drop_duplicates_NoDup df : NoDup (rows (drop_duplicates df)).
Proof. apply (kept_spec (rows df) []). Qed.

Lemma drop_duplicates_In df x :
  In x (rows (drop_duplicates df)) <-> In x (rows df).
Proof.
  unfold drop_duplicates, duplicated. simpl.
  rewrite (proj2 (kept_spec (rows df) []) x). simpl. tauto.
Qed.

(** ** Negative sales *)

Lemma cell_at_set_nth i v r :
  (i < length r)%nat -> cell_at i (set_nth i v r) = v.
Proof.
  unfold cell_at. revert i. induction r as [|a r IH]; intros [|i] H;
    simpl in *; try lia; [reflexivity|]. apply IH. lia.
Qed.

Lemma cell_at_set_nth_other i j v r :
  i <> j -> cell_at j (set_nth i v r) = cell_at j r.
Proof.
  unfold cell_at. revert i j. induction r as [|a r IH]; intros [|i] [|j] H;
    simpl; try reflexivity; try congruence. apply IH. congruence.
Qed.


Lemma lt0_in_range i r : lt0 (cell_at i r) = true -> (i < length r)%nat.
Proof.
  unfold cell_at. intros H. destruct (Nat.lt_ge_cases i (length r)) as [|G];
    [assumption|].
  rewrite nth_overflow in H by exact G. discriminate.
Qed.

Lemma zero_if_negative_clean i r : lt0 (cell_at i (zero_if_negative i r)) = false.
Proof.
  unfold zero_if_negative. destruct (lt0 (cell_at i r)) eqn:E; [|exact E].
  rewrite cell_at_set_nth by (apply lt0_in_range; exact E). reflexivity.
Qed.

Lemma count_true_zero_map {A : Type} (f : A -> bool) l :
  count_true (map f l) = O <-> forall x, In x l -> f x = false.
Proof.
  induction l as [|a l IH]; simpl.
  - split; [intros _ x [] | reflexivity].
  - rewrite count_true_cons. destruct (f a) eqn:E; simpl.
    + split; [discriminate|]. intros H. specialize (H a (or_introl eq_refl)).
      congruence.
    + rewrite IH. split.
      * intros H x [<-|Hx]; auto.
      * intros H x Hx. apply H. auto.
Qed.

Lemma no_negative_same df :
  negative_count df = O -> loc_negative_sales_zero df = df.
Proof.
  unfold negative_count, loc_negative_sales_zero, get_column.
  destruct (Str.index_of "Sales" (columns df)) as [i|]; [|reflexivity].
  rewrite map_map. intros H.
  rewrite (count_true_zero_map (fun r => lt0 (cell_at i r))) in H.
  destruct df as [c rs]. simpl in *. f_equal.
  rewrite <- (map_id rs) at 2. apply map_ext_in. intros r Hr.
  unfold zero_if_negative. rewrite (H r Hr). reflexivity.
Qed.

Lemma negative_count_clean df :
  negative_count (loc_negative_sales_zero df) = O.
Proof.
  unfold negative_count, loc_negative_sales_zero, get_column.
  destruct (Str.index_of "Sales" (columns df)) as [i|] eqn:E.
  - simpl. rewrite E, !map_map.
    apply (count_true_zero_map (fun r => lt0 (cell_at i (zero_if_negative i r)))).
    intros r _. apply zero_if_negative_clean.
  - rewrite E. reflexivity.
Qed.

(** ** What one run of [clean_data] does *)

Lemma clean_data_run w df i :
  df_long (self w) = Some df ->
  Str.index_of "Sales" (columns df) = Some i ->
  clean_data w =
  (Ok true,
   {| self := {| df_original := df_original (self w);
                 df_long := Some (loc_negative_sales_zero (drop_duplicates df));
                 monthly_cols := monthly_cols (self w) |};
      stdout := stdout w ++ clean_report df |}).
Proof.
  intros Hdf Hs. destruct w as [[o l m] out]. simpl in Hdf. subst l.
  assert (Hn : forall x, columns x = columns df ->
             count_true (map lt0 (map (cell_at i) (rows x))) = negative_count x).
  { intros x Hx. unfold negative_count, get_column. rewrite Hx, Hs.
    reflexivity. }
  unfold clean_report.
  destruct (0 <? fold_right Nat.add O (map snd (isnull_sum df)))%nat eqn:Em;
    destruct (0 <? count_true (duplicated df))%nat eqn:Ed;
    destruct (0 <? negative_count (drop_duplicates df))%nat eqn:En.
  all: unfold clean_data, bind, get_self, when, print, set_df_long,
         the_df_long, lift, ret, get_column;
       cbn [self df_long df_original monthly_cols stdout];
       rewrite Em, Ed;
       cbn [self df_long df_original monthly_cols stdout columns
            drop_duplicates];
       rewrite Hs.
  all: try (apply Nat.ltb_ge in Ed;
            assert (Ed0 : count_true (duplicated df) = O) by lia;
            rewrite (drop_duplicates_same df Ed0) in *).
  all: try rewrite (Hn (drop_duplicates df) eq_refl).
  all: try rewrite (Hn df eq_refl).
  all: rewrite En;
       cbn [self df_long df_original monthly_cols stdout columns].
  all: try (apply Nat.ltb_ge in En;
            match type of En with
            | (negative_count ?x <= 0)%nat =>
                assert (En0 : negative_count x = O) by lia;
                rewrite (no_negative_same x En0)
            end).
  all: rewrite <- ?app_assoc; reflexivity.
Qed.

(** ** The Normalizer: order of its steps, clipping, a second run *)

Lemma negative_count_zero df i :
  Str.index_of "Sales" (columns df) = Some i ->
  negative_count df = O <->
  forall r, In r (rows df) -> lt0 (cell_at i r) = false.
Proof.
  intros Hs. unfold negative_count, get_column. rewrite Hs, map_map.
  apply (count_true_zero_map (fun r => lt0 (cell_at i r))).
Qed.




Lemma clean_report_negative df :
  filter is_found_negative (clean_report df) =
  if (0 <? negative_count (drop_duplicates df))%nat
  then [FoundNegative (negative_count (drop_duplicates df))] else [].
Proof.
  unfold clean_report.
  destruct (0 <? fold_right Nat.add O (map snd (isnull_sum df)))%nat;
    destruct (0 <? count_true (duplicated df))%nat;
    destruct (0 <? negative_count (drop_duplicates df))%nat; reflexivity.
Qed.



(** C10: [clean_data] drops repeated rows first and clips negative sales
    second, so what it leaves can hold the same record twice: two records
    that differ only in their sales, -5 and -3, are not duplicates when the
    first step looks, and come out as two identical records with sales 0. *)
Theorem clean_data_can_leave_duplicates :
  (forall w df i,
      df_long (self w) = Some df ->
      Str.index_of "Sales" (columns df) = Some i ->
      df_long (self (snd (clean_data w))) =
      Some (loc_negative_sales_zero (drop_duplicates df))) /\
  exists r1 r2 r0 : row,
    rows twins = [r1; r2] /\
    sales_of r1 = Num (-5) /\ sales_of r2 = Num (-3) /\
    r1 = set_nth 16 (Num (-5)) r0 /\ r2 = set_nth 16 (Num (-3)) r0 /\
    count_true (duplicated twins) = O /\
    clean_data {| self := holding twins; stdout := [] |} =
      (Ok true,
       {| self := holding {| columns := long_columns; rows := [r0; r0] |};
          stdout := [CleaningDataset; FoundNegative 2; CleaningCompleted] |}) /\
    sales_of r0 = Num 0.
Proof.
  split.
  - intros w df i Hdf Hs. rewrite (clean_data_run w df i Hdf Hs). reflexivity.
  - exists (sample_record "X1" "Jan'24" (Num (-5))),
           (sample_record "X1" "Jan'24" (Num (-3))),
           (sample_record "X1" "Jan'24" (Num 0)).
    repeat split; vm_compute; reflexivity.
Qed.

Lemma NoDup_map_on {A B : Type} (f : A -> B) (l : list A) :
  (forall x y, In x l -> In y l -> f x = f y -> x = y) ->
  NoDup l -> NoDup (map f l).
Proof.
  induction l as [|a l IH]; intros Inj N; simpl; [constructor|].
  inversion N; subst. constructor.
  - rewrite in_map_iff. intros [x [E Hx]].
    assert (x = a) by (apply Inj; simpl; auto). subst. contradiction.
  - apply IH; [|assumption]. intros x y Hx Hy. apply Inj; simpl; auto.
Qed.

Lemma clean_report_quiet df :
  count_true (duplicated df) = O ->
  negative_count (drop_duplicates df) = O ->
  filter reports_change (clean_report df) = [].
Proof.
  intros H1 H2. unfold clean_report. rewrite H1, H2.
  destruct (0 <? fold_right Nat.add O (map snd (isnull_sum df)))%nat;
    reflexivity.
Qed.

Lemma clean_report_never_negative df i :
  Str.index_of "Sales" (columns df) = Some i ->
  negative_count df = O ->
  filter is_found_negative (clean_report df) = [].
Proof.
  intros Hs H. rewrite clean_report_negative.
  assert (E : negative_count (drop_duplicates df) = O).
  { apply (negative_count_zero (drop_duplicates df) i Hs).
    intros r Hr. apply (proj1 (drop_duplicates_In df r)) in Hr.
    apply (proj1 (negative_count_zero df i Hs) H r Hr). }
  rewrite E. reflexivity.
Qed.

(** C7, as the code has it: a second run of [clean_data] on what the first
    run left never clips a value; it removes no row and changes nothing
    when no record with negative sales agrees in every other field with a
    different record whose sales are negative or zero, that is when
    clipping maps different records of the table to different records. *)
Theorem clean_data_second_run (w : world) (df : DataFrame) (i : nat) :
  df_long (self w) = Some df ->
  Str.index_of "Sales" (columns df) = Some i ->
  exists w1 w2 said,
    clean_data w = (Ok true, w1) /\
    clean_data w1 = (Ok true, w2) /\
    stdout w2 = stdout w1 ++ said /\
    filter is_found_negative said = [] /\
    ((forall r1 r2, In r1 (rows df) -> In r2 (rows df) ->
                    zero_if_negative i r1 = zero_if_negative i r2 -> r1 = r2) ->
     self w2 = self w1 /\ filter reports_change said = []).
Proof.
  intros Hdf Hs.
  set (df1 := loc_negative_sales_zero (drop_duplicates df)).
  assert (Hs1 : Str.index_of "Sales" (columns df1) = Some i).
  { unfold df1, loc_negative_sales_zero.
    change (columns (drop_duplicates df)) with (columns df).
    rewrite Hs. exact Hs. }
  assert (Hrows : rows df1 = map (zero_if_negative i) (rows (drop_duplicates df))).
  { unfold df1, loc_negative_sales_zero.
    change (columns (drop_duplicates df)) with (columns df).
    rewrite Hs. reflexivity. }
  assert (Hneg : negative_count df1 = O) by apply negative_count_clean.
  set (w1 := {| self := {| df_original := df_original (self w);
                          df_long := Some df1;
                          monthly_cols := monthly_cols (self w) |};
                stdout := stdout w ++ clean_report df |}).
  exists w1.
  exists {| self := {| df_original := df_original (self w1);
                       df_long := Some (loc_negative_sales_zero
                                          (drop_duplicates df1));
                       monthly_cols := monthly_cols (self w1) |};
            stdout := stdout w1 ++ clean_report df1 |}.
  exists (clean_report df1).
  split; [apply (clean_data_run w df i Hdf Hs)|].
  split; [apply (clean_data_run w1 df1 i eq_refl Hs1)|].
  split; [reflexivity|].
  split; [apply (clean_report_never_negative df1 i Hs1 Hneg)|].
  intros Inj.
  assert (Hdup : count_true (duplicated df1) = O).
  { unfold duplicated. apply no_duplicate_flags; [|intros x _ []].
    rewrite Hrows. apply NoDup_map_on; [|apply drop_duplicates_NoDup].
    intros x y Hx Hy.
    apply Inj; [apply (proj1 (drop_duplicates_In df x) Hx)
               |apply (proj1 (drop_duplicates_In df y) Hy)]. }
  assert (Hsame : drop_duplicates df1 = df1) by (apply drop_duplicates_same, Hdup).
  split.
  - cbn [self]. rewrite Hsame, no_negative_same by exact Hneg. reflexivity.
  - apply clean_report_quiet; [exact Hdup|]. rewrite Hsame. exact Hneg.
Qed.

(** The statement of C7 at a table of two records. *)
Lemma clean_data_second_run_witness :
  exists w1 w2 said,
    clean_data {| self := holding two_records; stdout := [] |} = (Ok true, w1) /\
    clean_data w1 = (Ok true, w2) /\
    stdout w2 = stdout w1 ++ said /\
    self w2 = self w1 /\ filter reports_change said = [].
Proof.
  destruct (clean_data_second_run
              {| self := holding two_records; stdout := [] |}
              two_records 16%nat eq_refl eq_refl)
    as [w1 [w2 [said [H1 [H2 [H3 [_ H4]]]]]]].
  exists w1, w2, said. repeat split; try assumption; apply H4;
    intros r1 r2 [<-|[<-|[]]] [<-|[<-|[]]] E;
    try reflexivity; vm_compute in E; discriminate E.
Defined.

(** C7 as the spec states it fails: the first run turns the two records
    of [twins] into one record twice, and the second run removes one. *)
Lemma clean_data_second_run_removes :
  exists w1 w2,
    clean_data {| self := holding twins; stdout := [] |} = (Ok true, w1) /\
    clean_data w1 = (Ok true, w2) /\
    stdout w2 = stdout w1 ++ [CleaningDataset; FoundDuplicates 1;
                              RemovedDuplicates 1; CleaningCompleted] /\
    option_map (fun d => length (rows d)) (df_long (self w1)) = Some 2%nat /\
    option_map (fun d => length (rows d)) (df_long (self w2)) = Some 1%nat.
Proof.
  eexists. eexists. split; [vm_compute; reflexivity|].
  split; [vm_compute; reflexivity|]. repeat split.
Qed.

(** ** Columns and [pd.melt] *)

Lemma index_of_In n cols : In n cols -> exists i, Str.index_of n cols = Some i.
Proof.
  induction cols as [|c cols IH]; simpl; intros H; [contradiction|].
  destruct (String.eqb n c) eqn:E; [eauto|].
  destruct H as [->|H]; [rewrite String.eqb_refl in E; discriminate|].
  destruct (IH H) as [i ->]. simpl. eauto.
Qed.

Lemma has_columns_In names df :
  has_columns names df = true -> forall n, In n names -> In n (columns df).
Proof.
  unfold has_columns. rewrite forallb_forall. intros H n Hn.
  specialize (H n Hn). apply existsb_exists in H. destruct H as [c [Hc E]].
  apply String.eqb_eq in E. subst. exact Hc.
Qed.

Lemma indices_ok names cols :
  (forall n, In n names -> In n cols) ->
  exists l, indices names cols = Ok l /\
            Forall2 (fun n i => Str.index_of n cols = Some i) names l.
Proof.
  induction names as [|n names IH]; intros H; simpl.
  - exists []. split; [reflexivity | constructor].
  - destruct (index_of_In n cols (H n (or_introl eq_refl))) as [i Hi].
    destruct IH as [l [E F]]; [intros m Hm; apply H; right; exact Hm|].
    rewrite Hi, E. exists (i :: l). split; [reflexivity|].
    constructor; assumption.
Qed.

Lemma fields_by_index t names l r :
  Forall2 (fun n i => Str.index_of n (columns t) = Some i) names l ->
  map (fun i => cell_at i r) l = map (fun n => field t n r) names.
Proof.
  induction 1 as [|n i names l H F IH]; simpl; [reflexivity|].
  unfold field at 1. rewrite H, IH. reflexivity.
Qed.

Lemma melt_blocks t (f : row -> row) names l :
  Forall2 (fun n i => Str.index_of n (columns t) = Some i) names l ->
  flat_map (fun vc => map (fun r => f r ++ [Str (fst vc); cell_at (snd vc) r])
                          (rows t))
           (combine names l) =
  flat_map (fun c => map (fun r => f r ++ [Str c; field t c r]) (rows t)) names.
Proof.
  induction 1 as [|n i names l H F IH]; simpl; [reflexivity|].
  rewrite IH. f_equal. apply map_ext. intros r. unfold field. rewrite H.
  reflexivity.
Qed.

Lemma month_columns_In t c : In c (month_columns t) -> In c (columns t).
Proof. unfold month_columns. rewrite filter_In. tauto. Qed.

Lemma melt_ok t :
  has_columns id_vars t = true ->
  melt t id_vars (month_columns t) "Month" "Sales" =
  Ok {| columns := id_vars ++ ["Month"; "Sales"]; rows := melted_rows t |}.
Proof.
  intros H. unfold melt.
  destruct (indices_ok id_vars (columns t) (has_columns_In _ _ H))
    as [ids [E1 F1]].
  destruct (indices_ok (month_columns t) (columns t) (month_columns_In t))
    as [vals [E2 F2]].
  rewrite E1, E2. f_equal. f_equal. unfold melted_rows.
  rewrite <- (melt_blocks t (fun r => map (fun n => field t n r) id_vars)
                _ _ F2).
  apply flat_map_ext. intros vc. apply map_ext. intros r.
  rewrite (fields_by_index t id_vars ids r F1). reflexivity.
Qed.

(** ** Columns assigned from a column *)

Lemma combine_with_map {A B C : Type} (g : A * B -> C) (h : A -> B) l :
  map g (combine l (map h l)) = map (fun x => g (x, h x)) l.
Proof. induction l as [|a l IH]; simpl; [reflexivity | rewrite IH; reflexivity]. Qed.

Lemma set_column_from cols rs name (f : row -> cell) :
  set_column name (map f rs) {| columns := cols; rows := rs |} =
  {| columns := match Str.index_of name cols with
                | Some _ => cols
                | None => cols ++ [name]
                end;
     rows := map (fun r => set_cell (Str.index_of name cols) (f r) r) rs |}.
Proof.
  unfold set_column. cbn [columns rows]. f_equal.
  apply (combine_with_map
           (fun rv => set_cell (Str.index_of name cols) (snd rv) (fst rv))).
Qed.

Lemma derive_column_run name src f w df j :
  df_long (self w) = Some df ->
  Str.index_of src (columns df) = Some j ->
  derive_column name src f w =
  (Ok tt,
   {| self := {| df_original := df_original (self w);
                 df_long :=
                   Some {| columns := match Str.index_of name (columns df) with
                                      | Some _ => columns df
                                      | None => columns df ++ [name]
                                      end;
                           rows := map (fun r =>
                                          set_cell (Str.index_of name (columns df))
                                                   (f (cell_at j r)) r)
                                       (rows df) |};
                 monthly_cols := monthly_cols (self w) |};
      stdout := stdout w |}).
Proof.
  intros Hdf Hj. destruct df as [cols rs].
  unfold derive_column, bind, the_df_long, lift, get_column, set_df_long.
  rewrite Hdf. cbn [columns rows] in *. rewrite Hj, map_map.
  rewrite (set_column_from cols rs name (fun r => f (cell_at j r))).
  reflexivity.
Qed.

(** ** [to_datetime] *)

Lemma to_datetime_ok l :
  Forall (fun c => exists s, c = Str s /\ strptime_b_y s <> None) l ->
  to_datetime l = Ok (map parsed_date l).
Proof.
  induction 1 as [|c l [s [-> Hs]] F IH]; simpl; [reflexivity|].
  destruct (strptime_b_y s) as [[y m]|]; [|congruence].
  rewrite IH. reflexivity.
Qed.

Lemma to_datetime_fails l :
  Forall (fun c => exists s, c = Str s) l ->
  Exists (fun c => exists s, c = Str s /\ strptime_b_y s = None) l ->
  exists s, In (Str s) l /\ strptime_b_y s = None /\
            to_datetime l = Raise (ValueError s).
Proof.
  induction 1 as [|c l [s ->] F IH]; intros E; [inversion E|].
  simpl. destruct (strptime_b_y s) as [[y m]|] eqn:P.
  - inversion E as [? ? [s' [E' P']]|? ? E']; subst.
    + inversion E'; subst. congruence.
    + destruct (IH E') as [s' [I [P' R]]]. exists s'. rewrite R.
      simpl. auto.
  - exists s. simpl. auto.
Qed.

Lemma melted_shape t r :
  In r (melted_rows t) ->
  exists I c v, r = I ++ [Str c; v] /\ length I = 15%nat /\
                In c (month_columns t).
Proof.
  unfold melted_rows. rewrite in_flat_map. intros [c [Hc Hr]].
  apply in_map_iff in Hr. destruct Hr as [r0 [<- _]].
  exists (map (fun n => field t n r0) id_vars), c, (field t c r0).
  split; [reflexivity|]. split; [reflexivity | exact Hc].
Qed.

Lemma cell_at_app (I : row) x rest : cell_at (length I) (I ++ x :: rest) = x.
Proof. unfold cell_at. apply nth_middle. Qed.

Lemma set_nth_app (I : row) v x rest :
  set_nth (length I) v (I ++ x :: rest) = I ++ v :: rest.
Proof. induction I as [|a I IH]; simpl; [reflexivity | rewrite IH; reflexivity]. Qed.

Lemma parses_token c : parses c = true -> strptime_b_y (month_token c) <> None.
Proof. unfold parses. destruct (strptime_b_y (month_token c)); congruence. Qed.

Lemma month_cells t :
  forallb parses (month_columns t) = true ->
  Forall (fun c => exists s, c = Str s /\ strptime_b_y s <> None)
         (map (cell_at 15)
              (map (fun r => set_cell (Some 15%nat)
                                      (str_replace_quote (cell_at 15 r)) r)
                   (melted_rows t))).
Proof.
  intros Hp. rewrite map_map. apply Forall_map. apply Forall_forall.
  intros r Hr. destruct (melted_shape t r Hr) as [I [c [v [-> [HL Hc]]]]].
  unfold set_cell. rewrite <- HL, cell_at_app, set_nth_app, cell_at_app.
  unfold str_replace_quote.
  exists (month_token c). split; [reflexivity|].
  apply parses_token. rewrite forallb_forall in Hp. apply Hp, Hc.
Qed.

Ltac step :=
  unfold bind at 1;
  cbn [self stdout df_original df_long monthly_cols columns rows].

(** Looks the named columns up in the (closed) lists of column names. *)
Ltac indexes :=
  repeat match goal with
         | |- context [Str.index_of ?n ?c] =>
             let v := eval vm_compute in (Str.index_of n c) in
             change (Str.index_of n c) with v
         end;
  cbn iota.

Lemma convert_run nargsort t l out :
  has_columns id_vars t = true ->
  forallb parses (month_columns t) = true ->
  convert_to_long_format nargsort
    {| self := {| df_original := Some t; df_long := l;
                  monthly_cols := month_columns t |};
       stdout := out |} =
  (Ok true,
   {| self := {| df_original := Some t;
                 df_long :=
                   Some {| columns := long_columns;
                           rows := map after_sort
                                       (take [] (date_indexer nargsort t)
                                             (before_sort t)) |};
                 monthly_cols := month_columns t |};
      stdout := out ++ [ConvertingToLong;
                        LongFormatCreated
                          (length (date_indexer nargsort t))] |}).
Proof.
  intros Hc Hp.
  unfold convert_to_long_format, bind at 1, get_self.
  cbn [self df_original monthly_cols].
  unfold try_except.
  step. unfold print at 1. step.
  unfold lift at 1. rewrite (melt_ok t Hc).
  step. unfold set_df_long at 1. step.
  erewrite derive_column_run; [|reflexivity|reflexivity]. step. indexes.
  unfold the_df_long at 1. step.
  unfold lift at 1, get_column at 1. step. indexes. step.
  unfold lift at 1. rewrite (to_datetime_ok _ (month_cells t Hp)). step.
  unfold set_df_long at 1. step.
  rewrite (map_map (cell_at 15) parsed_date).
  rewrite set_column_from. indexes. rewrite map_map.
  unfold the_df_long at 1. step.
  unfold lift at 1, sort_values, get_column. cbn [columns rows]. indexes. step.
  unfold set_df_long at 1. step.
  erewrite derive_column_run; [|reflexivity|reflexivity]. step. indexes.
  erewrite derive_column_run; [|reflexivity|reflexivity]. step. indexes.
  erewrite derive_column_run; [|reflexivity|reflexivity]. step. indexes.
  erewrite derive_column_run; [|reflexivity|reflexivity]. step. indexes.
  unfold the_df_long, print, ret.
  cbn [self stdout df_original df_long monthly_cols columns rows].
  rewrite !length_map, take_length.
  rewrite !(map_map _ _ (take _ _ _)).
  apply f_equal. apply f_equal2; [reflexivity|].
  rewrite <- app_assoc. reflexivity.
Qed.

(** ** The long table, row by row *)

Lemma finish_row (I : row) c v :
  length I = 15%nat ->
  after_sort
    (added parsed_date 15
       (set_nth 15 (str_replace_quote (cell_at 15 (I ++ [Str c; v])))
                (I ++ [Str c; v]))) =
  I ++ [Str (month_token c); v; date_cell c; dt_strftime_B (date_cell c);
        dt_month (date_cell c); dt_quarter (date_cell c);
        dt_year (date_cell c)].
Proof.
  intros HL.
  do 15 (destruct I as [|? I]; [discriminate HL|]).
  destruct I; [reflexivity | discriminate HL].
Qed.

Lemma finished_rows t :
  map after_sort (before_sort t) =
  flat_map (fun c => map (fun r => long_record t r c) (rows t))
           (month_columns t).
Proof.
  unfold before_sort, melted_rows. rewrite map_map.
  induction (month_columns t) as [|c cs IH]; cbn [flat_map]; [reflexivity|].
  rewrite map_app. f_equal; [|exact IH].
  rewrite map_map. apply map_ext. intros r.
  apply (finish_row (map (fun n => field t n r) id_vars) c (field t c r)).
  reflexivity.
Qed.

Lemma by_rows_or_by_columns {A B C : Type} (f : A -> B -> C) (xs : list A)
  (ys : list B) :
  Permutation (flat_map (fun y => map (fun x => f x y) xs) ys)
              (flat_map (fun x => map (f x) ys) xs).
Proof.
  induction ys as [|y ys IH]; simpl.
  - induction xs as [|x xs IHx]; simpl; [constructor | exact IHx].
  - rewrite IH. clear IH. induction xs as [|x xs IHx]; simpl; [constructor|].
    constructor. rewrite <- IHx.
    rewrite !app_assoc. apply Permutation_app_tail. apply Permutation_app_comm.
Qed.

Lemma date_indexer_perm nargsort t :
  nargsort_spec nargsort ->
  Permutation (date_indexer nargsort t) (seq 0 (length (before_sort t))).
Proof.
  intros H. unfold date_indexer.
  destruct (H (map sort_key (map (cell_at 17) (before_sort t))) true) as [P _].
  rewrite !length_map in P. exact P.
Qed.

Lemma long_rows_perm nargsort t :
  nargsort_spec nargsort ->
  Permutation (map after_sort (take [] (date_indexer nargsort t) (before_sort t)))
              (flat_map (long_records t) (rows t)).
Proof.
  intros H. rewrite (take_perm [] _ _ (date_indexer_perm nargsort t H)).
  rewrite finished_rows. apply by_rows_or_by_columns.
Qed.

Lemma identify_run t :
  identify_monthly_columns {| self := loaded t; stdout := [] |} =
  (Ok (month_columns t),
   {| self := {| df_original := Some t; df_long := None;
                 monthly_cols := month_columns t |};
      stdout := [FoundMonthlyColumns (length (month_columns t))
                   (firstn 3 (month_columns t)) (lastn 3 (month_columns t))] |}).
Proof. reflexivity. Qed.

Lemma total_app l l' : total (l ++ l') = total l + total l'.
Proof. unfold total. induction l as [|a l IH]; simpl; lia. Qed.

Lemma total_perm l l' : Permutation l l' -> total l = total l'.
Proof. unfold total. induction 1; simpl; lia. Qed.

Lemma sales_of_long_record t r c : sales_of (long_record t r c) = field t c r.
Proof. reflexivity. Qed.

(** C1: for a wide table with the fifteen identifier columns and twelve
    month columns, whose names are dates, the conversion succeeds and its
    long table is, up to the order of the rows, the LongRecords of every
    WideRecord: twelve for each, one per month column, carrying the
    monthly values unchanged, so that their sales add up to the sum of the
    WideRecord's monthly fields; and so do the totals of the two tables. *)
Theorem reshape_is_sum_preserving (nargsort : sorter) (t : DataFrame) :
  nargsort_spec nargsort ->
  has_columns id_vars t = true ->
  length (month_columns t) = 12%nat ->
  forallb parses (month_columns t) = true ->
  exists long w,
    (identify_monthly_columns ;; convert_to_long_format nargsort)
      {| self := loaded t; stdout := [] |} = (Ok true, w) /\
    df_long (self w) = Some long /\
    Permutation (rows long) (flat_map (long_records t) (rows t)) /\
    (forall r, In r (rows t) ->
       length (long_records t r) = 12%nat /\
       map sales_of (long_records t r) =
         map (fun c => field t c r) (month_columns t) /\
       total (map cell_value (map sales_of (long_records t r))) =
         total (map (fun c => cell_value (field t c r)) (month_columns t))) /\
    total (map cell_value (map sales_of (rows long))) =
      total (map (fun r => total (map (fun c => cell_value (field t c r))
                                      (month_columns t)))
                 (rows t)).
Proof.
  intros Hk Hc H12 Hp.
  exists {| columns := long_columns;
            rows := map after_sort
                        (take [] (date_indexer nargsort t) (before_sort t)) |}.
  eexists. split.
  { unfold bind. rewrite identify_run. apply convert_run; assumption. }
  split; [reflexivity|]. cbn [rows].
  assert (Hrec : forall r,
             map sales_of (long_records t r) =
             map (fun c => field t c r) (month_columns t)).
  { intros r. unfold long_records. rewrite map_map. reflexivity. }
  split; [apply long_rows_perm, Hk|]. split.
  - intros r _. split; [|split].
    + unfold long_records. rewrite length_map. exact H12.
    + apply Hrec.
    + rewrite Hrec, map_map. reflexivity.
  - rewrite (total_perm _ _
               (Permutation_map cell_value
                  (Permutation_map sales_of (long_rows_perm nargsort t Hk)))).
    induction (rows t) as [|r rs IH]; [reflexivity|].
    simpl. rewrite !map_app, total_app, IH, Hrec, map_map. reflexivity.
Qed.

(** The statement of C1 at the table [year_2024], sorted by insertion. *)
Lemma reshape_is_sum_preserving_witness :
  exists long w,
    (identify_monthly_columns ;; convert_to_long_format stable_argsort)
      {| self := loaded year_2024; stdout := [] |} = (Ok true, w) /\
    df_long (self w) = Some long /\
    Permutation (rows long) (flat_map (long_records year_2024) (rows year_2024)) /\
    total (map cell_value (map sales_of (rows long))) = 178.
Proof.
  destruct (reshape_is_sum_preserving stable_argsort year_2024
              (insertion_argsort_spec true) eq_refl eq_refl eq_refl)
    as [long [w [Hrun [Hlong [Hperm [_ Htotal]]]]]].
  exists long, w. split; [exact Hrun|]. split; [exact Hlong|].
  split; [exact Hperm | exact Htotal].
Defined.

(** ** Order of the dates *)

Lemma index_of_lt x l i : Str.index_of x l = Some i -> (i < length l)%nat.
Proof.
  revert i. induction l as [|y l IH]; simpl; intros i H; [discriminate|].
  destruct (String.eqb x y).
  - inversion H. lia.
  - destruct (Str.index_of x l) as [j|]; [|discriminate].
    inversion H. specialize (IH j eq_refl). lia.
Qed.

Lemma strptime_month s y m : strptime_b_y s = Some (y, m) -> 1 <= m <= 12.
Proof.
  unfold strptime_b_y.
  destruct s as [|a [|b [|c [|d1 [|d2 [|? ?]]]]]]; try discriminate.
  destruct (Str.index_of _ month_abbr) as [i|] eqn:E; [|discriminate].
  destruct (Str.digit d1); [|discriminate].
  destruct (Str.digit d2); [|discriminate].
  intros H. inversion H. apply index_of_lt in E. simpl in E. lia.
Qed.

Lemma date_cell_parsed c :
  parses c = true ->
  exists y m, date_cell c = Timestamp y m /\ 1 <= m <= 12.
Proof.
  unfold parses, date_cell.
  destruct (strptime_b_y (month_token c)) as [[y m]|] eqn:E; [|discriminate].
  intros _. exists y, m. split; [reflexivity|]. eapply strptime_month, E.
Qed.

Lemma before_sort_dates t r :
  forallb parses (month_columns t) = true ->
  In r (before_sort t) ->
  exists y m, cell_at 17 r = Timestamp y m /\ 1 <= m <= 12 /\
              date_of (after_sort r) = Timestamp y m.
Proof.
  intros Hp Hr. unfold before_sort in Hr. apply in_map_iff in Hr.
  destruct Hr as [r0 [<- Hr0]].
  destruct (melted_shape t r0 Hr0) as [I [c [v [-> [HL Hc]]]]].
  rewrite forallb_forall in Hp.
  destruct (date_cell_parsed c (Hp c Hc)) as [y [m [E Hm]]].
  exists y, m.
  do 15 (destruct I as [|? I]; [discriminate HL|]).
  destruct I; [|discriminate HL].
  split; [exact E|]. split; [exact Hm | exact E].
Qed.

Lemma StronglySorted_weaken {A : Type} (R R' : A -> A -> Prop) (P : A -> Prop) l :
  (forall a b, P a -> P b -> R a b -> R' a b) ->
  Forall P l -> StronglySorted R l -> StronglySorted R' l.
Proof.
  intros W F S. induction S as [|a l S IH H]; [constructor|].
  inversion F; subst. constructor; [auto|].
  rewrite Forall_forall in *. intros b Hb. apply W; auto.
Qed.

Lemma take_In {A : Type} (d : A) idx (l : list A) x :
  Permutation idx (seq 0 (length l)) -> In x (take d idx l) -> In x l.
Proof. intros P. apply Permutation_in, take_perm, P. Qed.

Lemma long_rows_sorted nargsort t :
  nargsort_spec nargsort ->
  forallb parses (month_columns t) = true ->
  StronglySorted (fun a b => date_le (date_of a) (date_of b))
    (map after_sort (take [] (date_indexer nargsort t) (before_sort t))).
Proof.
  intros Hk Hp. apply StronglySorted_map.
  destruct (Hk (map sort_key (map (cell_at 17) (before_sort t))) true)
    as [_ S].
  change (nargsort (map sort_key (map (cell_at 17) (before_sort t))) true)
    with (date_indexer nargsort t) in S.
  rewrite map_map in S.
  change 0 with ((fun r => sort_key (cell_at 17 r)) []) in S.
  rewrite <- take_map in S. apply StronglySorted_map_inv in S.
  apply (StronglySorted_weaken _ _
           (fun r => exists y m, cell_at 17 r = Timestamp y m /\ 1 <= m <= 12 /\
                                 date_of (after_sort r) = Timestamp y m)
           _) with (3 := S).
  - intros a b [y [m [Ea [Hm Fa]]]] [y' [m' [Eb [Hm' Fb]]]] H.
    rewrite Ea, Eb in H. rewrite Fa, Fb. unfold in_order, sort_key in H.
    unfold date_le. lia.
  - apply Forall_forall. intros r Hr.
    apply (take_In [] _ _ r (date_indexer_perm nargsort t Hk)) in Hr.
    exact (before_sort_dates t r Hp Hr).
Qed.

(** C4, as the code has it: the conversion leaves the LongRecords in
    ascending order of their dates, and they are the records [pd.melt]
    laid down, each completed with its derived columns, in some order.
    The order of the records of one date is the one the sort's default
    kind leaves; nothing is said of it. *)
Theorem long_table_is_in_date_order (nargsort : sorter) (t : DataFrame) :
  nargsort_spec nargsort ->
  has_columns id_vars t = true ->
  forallb parses (month_columns t) = true ->
  exists long w,
    (identify_monthly_columns ;; convert_to_long_format nargsort)
      {| self := loaded t; stdout := [] |} = (Ok true, w) /\
    df_long (self w) = Some long /\
    StronglySorted (fun a b => date_le (date_of a) (date_of b)) (rows long) /\
    Permutation (rows long) (map after_sort (before_sort t)).
Proof.
  intros Hk Hc Hp.
  exists {| columns := long_columns;
            rows := map after_sort
                        (take [] (date_indexer nargsort t) (before_sort t)) |}.
  eexists. split.
  { unfold bind. rewrite identify_run. apply convert_run; assumption. }
  split; [reflexivity|]. cbn [rows]. split.
  - apply long_rows_sorted; assumption.
  - apply Permutation_map, take_perm, date_indexer_perm, Hk.
Qed.

(** The statement of C4 at the table [year_2024], sorted by insertion. *)
Lemma long_table_is_in_date_order_witness :
  exists long w,
    (identify_monthly_columns ;; convert_to_long_format stable_argsort)
      {| self := loaded year_2024; stdout := [] |} = (Ok true, w) /\
    df_long (self w) = Some long /\
    StronglySorted (fun a b => date_le (date_of a) (date_of b)) (rows long) /\
    Permutation (rows long) (map after_sort (before_sort year_2024)).
Proof.
  exact (long_table_is_in_date_order stable_argsort year_2024
           (insertion_argsort_spec true) eq_refl eq_refl).
Defined.

(** C4 as the spec states it fails: a sort that keeps the library's
    promise may reverse the records of one date. With [twenty_rows] all
    twenty LongRecords share the date, and [reversing_argsort] returns
    them in the opposite of the order [pd.melt] gave them. *)
Lemma sort_may_reorder_ties :
  nargsort_spec reversing_argsort /\
  exists long w,
    (identify_monthly_columns ;; convert_to_long_format reversing_argsort)
      {| self := loaded twenty_rows; stdout := [] |} = (Ok true, w) /\
    df_long (self w) = Some long /\
    map carried (rows long) = rev (map carried (melted_rows twenty_rows)) /\
    ~ ties_keep_melt_order (melted_rows twenty_rows) (rows long).
Proof.
  split; [apply insertion_argsort_spec|].
  eexists. eexists. split; [vm_compute; reflexivity|].
  split; [reflexivity|]. split; [vm_compute; reflexivity|].
  intros H. specialize (H (2024, 1)).
  apply (f_equal (map (fun r => cell_at 0 r))) in H.
  vm_compute in H. discriminate H.
Qed.

(** ** When the conversion fails *)


Lemma month_cell_cleaned (I : row) c v :
  length I = 15%nat ->
  cell_at 15 (set_nth 15 (str_replace_quote (cell_at 15 (I ++ [Str c; v])))
                      (I ++ [Str c; v])) = Str (month_token c).
Proof.
  intros HL. rewrite <- HL, cell_at_app, set_nth_app, cell_at_app. reflexivity.
Qed.

Lemma unparsed_month t :
  rows t <> [] ->
  forallb parses (month_columns t) = false ->
  exists s,
    (exists c, In c (month_columns t) /\ parses c = false /\ s = month_token c) /\
    to_datetime (map (cell_at 15) (rows (melted_only t))) = Raise (ValueError s).
Proof.
  intros Hr Hp.
  assert (Hshape : forall x, In x (map (cell_at 15) (rows (melted_only t))) ->
                     exists c, In c (month_columns t) /\ x = Str (month_token c)).
  { intros x Hx. unfold melted_only in Hx. cbn [rows] in Hx.
    rewrite map_map in Hx. apply in_map_iff in Hx.
    destruct Hx as [r [<- Hr0]].
    destruct (melted_shape t r Hr0) as [I [c [v [-> [HL Hc]]]]].
    exists c. split; [exact Hc|]. apply month_cell_cleaned, HL. }
  destruct (to_datetime_fails (map (cell_at 15) (rows (melted_only t))))
    as [s [Hin [Hs Hraise]]].
  - apply Forall_forall. intros x Hx. destruct (Hshape x Hx) as [c [_ ->]].
    eauto.
  - apply Exists_exists.
    assert (Hc : exists c, In c (month_columns t) /\ parses c = false).
    { clear -Hp. induction (month_columns t) as [|c cs IH]; [discriminate|].
      simpl in Hp. destruct (parses c) eqn:E.
      - destruct (IH Hp) as [c' [H1 H2]]. exists c'. simpl. auto.
      - exists c. simpl. auto. }
    destruct Hc as [c [Hc Hpc]].
    destruct (rows t) as [|r0 rs] eqn:Er; [congruence|].
    exists (Str (month_token c)). split.
    + unfold melted_only. cbn [rows]. rewrite map_map. apply in_map_iff.
      exists (map (fun n => field t n r0) id_vars ++ [Str c; field t c r0]).
      split.
      * apply (month_cell_cleaned (map (fun n => field t n r0) id_vars)).
        reflexivity.
      * unfold melted_rows. apply in_flat_map. exists c. split; [exact Hc|].
        rewrite Er. left. reflexivity.
    + exists (month_token c). split; [reflexivity|].
      unfold parses in Hpc. destruct (strptime_b_y (month_token c));
        [discriminate | reflexivity].
  - exists s. split; [|exact Hraise].
    destruct (Hshape (Str s) Hin) as [c [Hc E]]. inversion E; subst.
    exists c. split; [exact Hc|]. split; [|reflexivity].
    unfold parses. rewrite Hs. reflexivity.
Qed.

Lemma convert_fail_run nargsort t l out s :
  has_columns id_vars t = true ->
  to_datetime (map (cell_at 15) (rows (melted_only t))) = Raise (ValueError s) ->
  convert_to_long_format nargsort
    {| self := {| df_original := Some t; df_long := l;
                  monthly_cols := month_columns t |};
       stdout := out |} =
  (Ok false,
   {| self := {| df_original := Some t; df_long := Some (melted_only t);
                 monthly_cols := month_columns t |};
      stdout := out ++ [ConvertingToLong; ErrorConverting (ValueError s)] |}).
Proof.
  intros Hc Hs.
  unfold convert_to_long_format, bind at 1, get_self.
  cbn [self df_original monthly_cols].
  unfold try_except.
  step. unfold print at 1. step.
  unfold lift at 1. rewrite (melt_ok t Hc).
  step. unfold set_df_long at 1. step.
  erewrite derive_column_run; [|reflexivity|reflexivity]. step. indexes.
  unfold the_df_long at 1. step.
  unfold lift at 1, get_column at 1. step. indexes. step.
  unfold lift at 1.
  change (map (cell_at 15)
            (map (fun r => set_cell (Some 15%nat)
                             (str_replace_quote (cell_at 15 r)) r)
                 (melted_rows t)))
    with (map (cell_at 15) (rows (melted_only t))).
  rewrite Hs. unfold bind, print, ret.
  cbn [self stdout df_original df_long monthly_cols].
  rewrite <- app_assoc. reflexivity.
Qed.

Lemma identify_run_from t out :
  identify_monthly_columns {| self := loaded t; stdout := out |} =
  (Ok (month_columns t),
   {| self := {| df_original := Some t; df_long := None;
                 monthly_cols := month_columns t |};
      stdout := out ++ [FoundMonthlyColumns (length (month_columns t))
                          (firstn 3 (month_columns t))
                          (lastn 3 (month_columns t))] |}).
Proof. reflexivity. Qed.

Lemma main_loaded nargsort t rest :
  main nargsort (Ok t) rest {| self := init; stdout := [] |} =
  (identify_monthly_columns ;;
   convert_to_long_format nargsort ;;
   clean_data ;;
   rest)
    {| self := loaded t;
       stdout := [LoadingDataset;
                  DatasetLoaded (length (rows t)) (length (columns t))] |}.
Proof. reflexivity. Qed.





(** ** Group-by sums *)

Lemma Ok_inj {A : Type} (a b : A) : Ok a = Ok b -> a = b.
Proof. intros H. injection H. auto. Qed.

Lemma group_add_total {K : Type} (cmp : K -> K -> comparison) k v (s : Series K) :
  total (map snd (group_add cmp k v s)) = total (map snd s) + v.
Proof.
  unfold total. induction s as [|[k' v'] s IH]; simpl; [lia|].
  destruct (cmp k k'); simpl; lia.
Qed.

Lemma group_add_nonneg {K : Type} (cmp : K -> K -> comparison) k v (s : Series K) :
  0 <= v -> Forall (fun kv => 0 <= snd kv) s ->
  Forall (fun kv => 0 <= snd kv) (group_add cmp k v s).
Proof.
  intros Hv. induction 1 as [|[k' v'] s H F IH]; simpl.
  - repeat constructor. exact Hv.
  - simpl in H. destruct (cmp k k'); repeat constructor; simpl; auto; lia.
Qed.

Lemma groupby_sum_from {K : Type} (cmp : K -> K -> comparison)
  (key : row -> option K) (val : row -> Z) (rs : list row) :
  forall acc : Series K,
  total (map snd
           (fold_left (fun a r => match key r with
                                  | Some k => group_add cmp k (val r) a
                                  | None => a
                                  end) rs acc)) =
  total (map snd acc)
  + total (map (fun r => match key r with Some _ => val r | None => 0 end) rs)
  /\
  ((forall r, In r rs -> 0 <= val r) ->
   Forall (fun kv => 0 <= snd kv) acc ->
   Forall (fun kv => 0 <= snd kv)
          (fold_left (fun a r => match key r with
                                 | Some k => group_add cmp k (val r) a
                                 | None => a
                                 end) rs acc)).
Proof.
  induction rs as [|r rs IH]; intros acc; simpl.
  - split; [unfold total; simpl; lia | auto].
  - destruct (key r) as [k|].
    + destruct (IH (group_add cmp k (val r) acc)) as [T N]. split.
      * rewrite T, group_add_total. unfold total. simpl. lia.
      * intros Hv Ha. apply N; [intros x Hx; apply Hv; auto|].
        apply group_add_nonneg; [apply Hv; auto | exact Ha].
    + destruct (IH acc) as [T N]. split.
      * rewrite T. unfold total. simpl. lia.
      * intros Hv Ha. apply N; [intros x Hx; apply Hv; auto | exact Ha].
Qed.

Lemma groupby_sum_total {K : Type} (cmp : K -> K -> comparison)
  (key : row -> option K) (val : row -> Z) (rs : list row) :
  (forall r, In r rs -> key r <> None) ->
  total (map snd (groupby_sum cmp key val rs)) = total (map val rs).
Proof.
  intros Hk. unfold groupby_sum.
  rewrite (proj1 (groupby_sum_from cmp key val rs [])).
  change (total (map snd [])) with 0. rewrite Z.add_0_l. f_equal.
  apply map_ext_in. intros r Hr. specialize (Hk r Hr).
  destruct (key r); congruence.
Qed.

Lemma groupby_sum_nonneg {K : Type} (cmp : K -> K -> comparison)
  (key : row -> option K) (val : row -> Z) (rs : list row) :
  (forall r, In r rs -> 0 <= val r) ->
  Forall (fun kv => 0 <= snd kv) (groupby_sum cmp key val rs).
Proof.
  intros Hv. apply (proj2 (groupby_sum_from cmp key val rs [])); auto.
Qed.

Lemma series_sort_perm {K : Type} nargsort (d : K) asc (s : Series K) :
  nargsort_spec nargsort ->
  Permutation (series_sort_values nargsort d asc s) s.
Proof.
  intros H. unfold series_sort_values. apply take_perm.
  destruct (H (map snd s) asc) as [P _]. rewrite length_map in P. exact P.
Qed.

(** ** The keys of a group-by *)

Section GroupKeys.
Context {K : Type}.
Variable cmp : K -> K -> comparison.
Hypothesis cmp_eq : forall a b, cmp a b = Eq <-> a = b.
Hypothesis cmp_gt : forall a b, cmp a b = Gt -> cmp b a = Lt.
Hypothesis cmp_lt_trans :
  forall a b c, cmp a b = Lt -> cmp b c = Lt -> cmp a c = Lt.

Local Abbreviation before := (fun a b : K * Z => cmp (fst a) (fst b) = Lt).

Lemma group_add_keys k v (s : Series K) k' :
  In k' (map fst (group_add cmp k v s)) <-> k' = k \/ In k' (map fst s).
Proof.
  induction s as [|[k0 v0] t IH]; simpl.
  - intuition.
  - destruct (cmp k k0) eqn:E; simpl.
    + apply cmp_eq in E. subst k0. intuition.
    + intuition.
    + rewrite IH. intuition.
Qed.

Lemma group_add_sorted k v (s : Series K) :
  StronglySorted before s -> StronglySorted before (group_add cmp k v s).
Proof.
  induction s as [|[k0 v0] t IH]; intros S; simpl.
  - constructor; constructor.
  - apply StronglySorted_inv in S. destruct S as [St Ft].
    destruct (cmp k k0) eqn:E.
    + constructor; [exact St | exact Ft].
    + constructor; [constructor; assumption|].
      constructor; [exact E|].
      eapply Forall_impl; [|exact Ft]. intros a Ha. simpl in *. eapply cmp_lt_trans; eassumption.
    + constructor; [apply IH, St|].
      apply Forall_forall. intros a Ha. simpl.
      assert (Hk : In (fst a) (map fst (group_add cmp k v t)))
        by (apply in_map; exact Ha).
      apply group_add_keys in Hk. destruct Hk as [-> | Hk].
      * apply cmp_gt, E.
      * apply in_map_iff in Hk. destruct Hk as [b [Eb Hb]].
        rewrite Forall_forall in Ft. specialize (Ft b Hb).
        simpl in Ft. rewrite <- Eb. exact Ft.
Qed.

Lemma groupby_sum_keys_from (key : row -> option K) (val : row -> Z) rs :
  forall acc k,
  In k (map fst (fold_left (fun acc r => match key r with
                                         | Some k => group_add cmp k (val r) acc
                                         | None => acc
                                         end) rs acc)) <->
  In k (map fst acc) \/ exists r, In r rs /\ key r = Some k.
Proof.
  induction rs as [|r rs IH]; intros acc k; simpl.
  - split; [auto | intros [H | [r [[] _]]]; exact H].
  - rewrite IH. destruct (key r) as [k0|] eqn:E.
    + rewrite group_add_keys. split.
      * intros [[-> | H] | [x [Hx Ex]]]; eauto.
      * intros [H | [x [[<- | Hx] Ex]]]; eauto.
        rewrite E in Ex. injection Ex as ->. auto.
    + split.
      * intros [H | [x [Hx Ex]]]; eauto.
      * intros [H | [x [[<- | Hx] Ex]]]; eauto. congruence.
Qed.

(** The groups are the keys that occur. *)
Lemma groupby_sum_keys (key : row -> option K) (val : row -> Z) rs k :
  In k (map fst (groupby_sum cmp key val rs)) <->
  exists r, In r rs /\ key r = Some k.
Proof.
  unfold groupby_sum. rewrite groupby_sum_keys_from. simpl. tauto.
Qed.

Lemma groupby_sum_sorted (key : row -> option K) (val : row -> Z) rs :
  StronglySorted before (groupby_sum cmp key val rs).
Proof.
  unfold groupby_sum.
  assert (H : forall acc, StronglySorted before acc ->
            StronglySorted before
              (fold_left (fun acc r => match key r with
                                       | Some k => group_add cmp k (val r) acc
                                       | None => acc
                                       end) rs acc)).
  { induction rs as [|r rs IH]; intros acc S; simpl; [exact S|].
    apply IH. destruct (key r); [apply group_add_sorted, S | exact S]. }
  apply H. constructor.
Qed.

Lemma sorted_keys_NoDup (s : Series K) :
  StronglySorted before s -> NoDup (map fst s).
Proof.
  induction 1 as [|a l S IH F]; simpl; constructor; [|exact IH].
  intros Hin. apply in_map_iff in Hin. destruct Hin as [b [Eb Hb]].
  rewrite Forall_forall in F. specialize (F b Hb). simpl in F.
  rewrite Eb in F. assert (E : cmp (fst a) (fst a) = Eq) by (apply cmp_eq; reflexivity).
  congruence.
Qed.

(** Each key makes one group. *)
Lemma groupby_sum_NoDup (key : row -> option K) (val : row -> Z) rs :
  NoDup (map fst (groupby_sum cmp key val rs)).
Proof. apply sorted_keys_NoDup, groupby_sum_sorted. Qed.

End GroupKeys.

Lemma ascii_compare_lt_trans a b c :
  Ascii.compare a b = Lt -> Ascii.compare b c = Lt -> Ascii.compare a c = Lt.
Proof. unfold Ascii.compare. rewrite !N.compare_lt_iff. apply N.lt_trans. Qed.

Lemma string_compare_lt_trans : forall a b c,
  String.compare a b = Lt -> String.compare b c = Lt -> String.compare a c = Lt.
Proof.
  induction a as [|x a IH]; intros [|y b] [|z c]; simpl; try congruence.
  destruct (Ascii.compare x y) eqn:E1; destruct (Ascii.compare y z) eqn:E2;
    try congruence.
  - apply Ascii.compare_eq_iff in E1, E2. subst.
    assert (E : Ascii.compare z z = Eq) by apply N.compare_refl.
    rewrite E. apply IH.
  - apply Ascii.compare_eq_iff in E1. subst. rewrite E2. reflexivity.
  - apply Ascii.compare_eq_iff in E2. subst. rewrite E1. reflexivity.
  - rewrite (ascii_compare_lt_trans _ _ _ E1 E2). reflexivity.
Qed.

Lemma string_compare_eq a b : String.compare a b = Eq <-> a = b.
Proof.
  split; [apply String.compare_eq_iff|]. intros <-.
  induction a as [|x a IH]; simpl; [reflexivity|].
  unfold Ascii.compare. rewrite N.compare_refl. exact IH.
Qed.

Lemma string_compare_gt a b : String.compare a b = Gt -> String.compare b a = Lt.
Proof. intros H. rewrite String.compare_antisym, H. reflexivity. Qed.

(** The groups of [df.groupby(by)[val].sum()] are the strings that occur
    in the column [by], each once. *)
Lemma groupby_str_sum_keys by_ val df s :
  groupby_str_sum by_ val df = Ok s ->
  NoDup (map fst s) /\
  forall k, In k (map fst s) <->
            exists x, In x (rows df) /\ field df by_ x = Str k.
Proof.
  unfold groupby_str_sum, field.
  destruct (Str.index_of by_ (columns df)) as [i|]; [|discriminate].
  destruct (Str.index_of val (columns df)) as [j|]; [|discriminate].
  intros H. apply Ok_inj in H. subst s. split.
  - apply groupby_sum_NoDup.
    + apply string_compare_eq.
    + apply string_compare_gt.
    + apply string_compare_lt_trans.
  - intros k. rewrite groupby_sum_keys by apply string_compare_eq.
    split; intros [x [Hx E]]; exists x; (split; [exact Hx|]).
    + destruct (cell_at i x); simpl in E; congruence.
    + rewrite E. reflexivity.
Qed.


(** ** Sums of squares *)

Lemma squares_below_square l :
  Forall (fun v => 0 <= v) l ->
  0 <= total l /\ total (map (fun v => v * v) l) <= total l * total l.
Proof.
  unfold total. induction 1 as [|v l Hv F [IH0 IH]]; simpl; [lia|].
  split; [lia | nia].
Qed.

Lemma square_below_squares l :
  total l * total l <= Z.of_nat (length l) * total (map (fun v => v * v) l).
Proof.
  unfold total. induction l as [|v l IH]; [simpl; lia|].
  cbn [length map fold_right]. rewrite Nat2Z.inj_succ.
  set (n := Z.of_nat (length l)) in *.
  set (S := fold_right Z.add 0 l) in *.
  set (A := fold_right Z.add 0 (map (fun v => v * v) l)) in *.
  assert (Hn : 0 <= n) by (subst n; lia).
  assert (HA : 0 <= A).
  { subst A. clear. induction l as [|a l IH]; simpl; [lia | nia]. }
  destruct (Z.eq_dec n 0) as [E|E].
  - assert (S = 0).
    { subst n S. destruct l; [reflexivity | simpl in E; lia]. }
    nia.
  - assert (H2 : 2 * v * S <= n * (v * v) + A).
    { assert (Hsq : 0 <= (n * v - S) * (n * v - S)) by apply Z.square_nonneg.
      assert (Hn2 : n * (2 * v * S) <= n * (n * (v * v) + A)) by nia.
      assert (0 < n) by lia.
      apply Z.mul_le_mono_pos_l with (p := n); assumption. }
    lia.
Qed.

(** ** Arithmetic of [fnum] on finite values *)

Lemma inject_Z_nonzero z : z <> 0 -> Qeq_bool (inject_Z z) 0 = false.
Proof.
  intros H. destruct (Qeq_bool (inject_Z z) 0) eqn:E; [|reflexivity].
  apply Qeq_bool_iff in E. unfold Qeq in E. simpl in E. lia.
Qed.

Lemma fdiv_of_Z v d :
  d <> 0 -> fdiv (of_Z v) (of_Z d) = Fin (inject_Z v / inject_Z d).
Proof. intros H. unfold fdiv, of_Z. rewrite inject_Z_nonzero by exact H. reflexivity. Qed.

Lemma fsum_from qs : forall a,
  fold_left fadd
    (filter (fun x => match x with FNaN => false | _ => true end) (map Fin qs))
    (Fin a) = Fin (fold_left Qplus qs a).
Proof. induction qs as [|q qs IH]; intros a; simpl; [reflexivity | apply IH]. Qed.

Lemma fsum_Fin qs : fsum (map Fin qs) = Fin (fold_left Qplus qs 0%Q).
Proof. apply fsum_from. Qed.

Lemma sum_of_squared_shares (d : Z) (vs : list Z) : forall acc,
  d <> 0 ->
  fold_left Qplus
    (map (fun v => (inject_Z v / inject_Z d) * (inject_Z v / inject_Z d))%Q vs)
    acc ==
  (acc + inject_Z (total (map (fun v => (v * v)%Z) vs))
         / (inject_Z d * inject_Z d))%Q.
Proof.
  induction vs as [|v vs IH]; intros acc Hd.
  - simpl. unfold total. simpl. field.
    intros E. apply (inject_Z_nonzero d) in Hd.
    apply Qeq_bool_iff in E. congruence.
  - cbn [map fold_left]. rewrite (IH _ Hd).
    unfold total. cbn [map fold_right]. rewrite inject_Z_plus, inject_Z_mult.
    field.
    intros E. apply (inject_Z_nonzero d) in Hd.
    apply Qeq_bool_iff in E. congruence.
Qed.

Lemma hhi_of_sums (d : Z) (vs : list Z) :
  Forall (fun v => 0 <= v) vs -> total vs = d -> 0 < d ->
  let h := fold_left Qplus
             (map (fun v => (inject_Z v / inject_Z d)
                            * (inject_Z v / inject_Z d))%Q vs) 0%Q in
  (1 / inject_Z (Z.of_nat (length vs)) <= h)%Q /\ (h <= 1)%Q.
Proof.
  intros Hv Ht Hd h. subst h.
  rewrite (sum_of_squared_shares d vs 0%Q) by lia. rewrite Qplus_0_l.
  destruct (squares_below_square vs Hv) as [_ Hup].
  pose proof (square_below_squares vs) as Hlow. rewrite Ht in *.
  set (A := total (map (fun v => v * v) vs)) in *.
  assert (Hk : 0 < Z.of_nat (length vs)).
  { destruct vs; [unfold total in Ht; simpl in Ht; lia | simpl; lia]. }
  set (k := Z.of_nat (length vs)) in *.
  assert (Hdd : (0 < inject_Z d * inject_Z d)%Q).
  { rewrite <- inject_Z_mult. change 0%Q with (inject_Z 0).
    rewrite <- Zlt_Qlt. nia. }
  assert (Hkq : (0 < inject_Z k)%Q).
  { change 0%Q with (inject_Z 0). rewrite <- Zlt_Qlt. exact Hk. }
  split.
  - apply Qle_shift_div_l; [exact Hdd|].
    unfold Qdiv. rewrite Qmult_1_l, Qmult_comm.
    apply Qle_shift_div_r; [exact Hkq|].
    rewrite <- !inject_Z_mult, <- Zle_Qle. lia.
  - apply Qle_shift_div_r; [exact Hdd|].
    rewrite Qmult_1_l, <- inject_Z_mult, <- Zle_Qle. exact Hup.
Qed.

(** ** The concentration index *)

Lemma column_sum_total df T :
  column_sum "Sales" df = Ok T -> T = total_sales df.
Proof.
  unfold column_sum, get_column, total_sales, field.
  destruct (Str.index_of "Sales" (columns df)) as [j|]; [|discriminate].
  intros H. inversion H. rewrite map_map. reflexivity.
Qed.

Lemma hhi_value (d : Z) (s : Series string) :
  d <> 0 ->
  fsum (map (fun x => fmul x x)
            (map (fun kv => fdiv (of_Z (snd kv)) (of_Z d)) s)) =
  Fin (fold_left Qplus
         (map (fun v => (inject_Z v / inject_Z d) * (inject_Z v / inject_Z d))%Q
              (map snd s)) 0%Q).
Proof.
  intros Hd. rewrite <- fsum_Fin, !map_map. f_equal.
  apply map_ext. intros kv. rewrite fdiv_of_Z by exact Hd. reflexivity.
Qed.

Lemma regional_total nargsort df by_region :
  nargsort_spec nargsort ->
  groupby_str_sum "Region" "Sales" df = Ok by_region ->
  (forall x, In x (rows df) -> exists s, field df "Region" x = Str s) ->
  total (map snd (series_sort_values nargsort "" false by_region)) =
    total_sales df.
Proof.
  intros Hk Hg Hr. unfold groupby_str_sum in Hg.
  unfold total_sales. unfold field in *.
  destruct (Str.index_of "Region" (columns df)) as [i|]; [|discriminate].
  destruct (Str.index_of "Sales" (columns df)) as [j|]; [|discriminate].
  apply Ok_inj in Hg. subst by_region.
  rewrite (total_perm _ _
             (Permutation_map snd (series_sort_perm nargsort "" false _ Hk))).
  apply groupby_sum_total. intros x Hx. destruct (Hr x Hx) as [s ->].
  discriminate.
Qed.

Lemma regional_nonneg nargsort df by_region :
  nargsort_spec nargsort ->
  groupby_str_sum "Region" "Sales" df = Ok by_region ->
  (forall x, In x (rows df) -> 0 <= cell_value (field df "Sales" x)) ->
  Forall (fun v => 0 <= v)
         (map snd (series_sort_values nargsort "" false by_region)).
Proof.
  intros Hk Hg Hs. unfold groupby_str_sum in Hg. unfold field in *.
  destruct (Str.index_of "Region" (columns df)) as [i|]; [|discriminate].
  destruct (Str.index_of "Sales" (columns df)) as [j|]; [|discriminate].
  apply Ok_inj in Hg. subst by_region. apply Forall_map.
  eapply Permutation_Forall;
    [symmetry; exact (series_sort_perm nargsort "" false _ Hk)|].
  apply groupby_sum_nonneg. exact Hs.
Qed.




(** C2: the loop of [geographic_analysis] that prints the shares divides
    the sales in millions by the grand total in units, so the shares it
    prints do not add up to 100. For the regions West (300) and East (100)
    they are 0.000075 and 0.000025, 0.0001 in all, while the share the
    function returns for the top region, computed from the sums in units,
    is 75. *)
Theorem printed_shares_of_east_and_west :
  exists r s m,
    geographic_analysis stable_argsort east_and_west = Ok r /\
    map line_key (regional_lines r) = ["West"; "East"] /\
    fsum (map line_share (regional_lines r)) = Fin s /\ s == 1 # 10000 /\
    top_region r = "West" /\
    region_market_share r = Fin m /\ m == 75.
Proof.
  eexists. eexists. eexists. split; [vm_compute; reflexivity|].
  split; [reflexivity|]. split; [vm_compute; reflexivity|].
  split; [reflexivity|]. split; [reflexivity|].
  split; [vm_compute; reflexivity | reflexivity].
Qed.

(** ** Growth rates *)

Lemma mean_finite l :
  l <> [] ->
  mean l = Fin (inject_Z (total l) / inject_Z (Z.of_nat (length l))).
Proof.
  intros H. unfold mean. apply fdiv_of_Z. destruct l; [congruence | simpl; lia].
Qed.

Lemma positive_not_zero e : Qltb 0 e = true -> Qeq_bool e 0 = false.
Proof.
  unfold Qltb. intros H. apply negb_true_iff in H.
  destruct (Qeq_bool e 0) eqn:E; [|reflexivity].
  apply Qeq_bool_iff in E.
  assert (L : Qle_bool e 0 = true) by (apply Qle_bool_iff; rewrite E; apply Qle_refl).
  congruence.
Qed.

Lemma region_growth_reported nargsort rg region x g :
  In (x, g) (region_growth nargsort rg region) ->
  is_finite g /\
  fgtb (mean (map snd (firstn 3 (region_data nargsort rg region)))) (Fin 0)
  = true.
Proof.
  unfold region_growth.
  destruct (6 <=? length (region_data nargsort rg region))%nat eqn:E6;
    [|intros []].
  apply Nat.leb_le in E6.
  destruct (fgtb (mean (map snd (firstn 3 (region_data nargsort rg region))))
                 (Fin 0)) eqn:Eg; [|intros []].
  intros [H|[]]. split; [|reflexivity].
  apply (f_equal snd) in H. cbn [snd] in H. subst g.
  set (rd := region_data nargsort rg region) in *.
  assert (Hf : map snd (firstn 3 rd) <> []).
  { intros C. apply (f_equal (@length Z)) in C.
    rewrite length_map, length_firstn in C. cbn [length] in C. lia. }
  assert (Hl : map snd (lastn 3 rd) <> []).
  { unfold lastn. intros C. apply (f_equal (@length Z)) in C.
    rewrite length_map, length_skipn in C. cbn [length] in C. lia. }
  rewrite (mean_finite _ Hf) in Eg |- *. rewrite (mean_finite _ Hl).
  unfold fgtb in Eg. unfold fsub, fneg, fadd, fdiv.
  rewrite (positive_not_zero _ Eg). exact I.
Qed.

Lemma insert_desc_perm {A : Type} (x : A * fnum) l :
  Permutation (insert_desc x l) (x :: l).
Proof.
  induction l as [|y l IH]; simpl; [reflexivity|].
  destruct (fgtb (snd x) (snd y)); [reflexivity|].
  rewrite IH. apply perm_swap.
Qed.

Lemma sort_reverse_perm {A : Type} (l : list (A * fnum)) :
  Permutation (sort_reverse l) l.
Proof.
  unfold sort_reverse.
  assert (H : forall acc, Permutation
                            (fold_left (fun a x => insert_desc x a) l acc)
                            (l ++ acc)).
  { induction l as [|x l IH]; intros acc; simpl; [reflexivity|].
    rewrite IH, insert_desc_perm. symmetry. apply Permutation_middle. }
  rewrite H, app_nil_r. reflexivity.
Qed.



(** ** The ranking of the provinces *)





(** ** The printed shares, in general *)

Lemma sum_of_printed_shares (d : Z) (vs : list Z) : forall acc,
  d <> 0 ->
  fold_left Qplus
    (map (fun v => (inject_Z v / inject_Z 1000000 / inject_Z d
                    * inject_Z 100))%Q vs)
    acc ==
  (acc + inject_Z (total vs) * (inject_Z 100
                                / (inject_Z 1000000 * inject_Z d)))%Q.
Proof.
  assert (Hm : ~ inject_Z 1000000 == 0).
  { intros E. apply Qeq_bool_iff in E.
    rewrite (inject_Z_nonzero 1000000) in E by lia. discriminate. }
  induction vs as [|v vs IH]; intros acc Hd;
    assert (Hq : ~ inject_Z d == 0)
      by (intros E; apply Qeq_bool_iff in E;
          rewrite (inject_Z_nonzero d Hd) in E; discriminate).
  - simpl. unfold total. simpl. field; repeat split; assumption.
  - cbn [map fold_left]. rewrite (IH _ Hd).
    unfold total. cbn [fold_right]. rewrite inject_Z_plus.
    field; repeat split; assumption.
Qed.

(** X10: whatever the table, as long as no record lacks its region and
    the grand total is positive, the shares that [geographic_analysis]
    prints for the regions add up to 0.0001. *)
Lemma printed_shares_sum (nargsort : sorter) (df : DataFrame)
  (r : geographic_report) :
  nargsort_spec nargsort ->
  geographic_analysis nargsort df = Ok r ->
  (forall x, In x (rows df) -> exists s, field df "Region" x = Str s) ->
  0 < total_sales df ->
  exists s, fsum (map line_share (regional_lines r)) = Fin s /\ s == 1 # 10000.
Proof.
  intros Hk H Hr Ht. unfold geographic_analysis in H.
  destruct (column_sum "Sales" df) as [T|] eqn:Ec; [|discriminate].
  destruct (groupby_str_sum "Region" "Sales" df) as [by_region|] eqn:Eg;
    [|discriminate].
  destruct (groupby_str_sum "Province" "Sales" df) as [by_province|];
    [|discriminate].
  destruct (head (series_sort_values nargsort "" false by_region)) as [top|];
    [|discriminate].
  apply Ok_inj in H. apply (f_equal regional_lines) in H.
  unfold regional_lines at 1 in H. rewrite <- H. clear H.
  apply column_sum_total in Ec. subst T.
  pose proof (regional_total nargsort df by_region Hk Eg Hr) as Hsum.
  set (S := series_sort_values nargsort "" false by_region) in *.
  assert (E : map line_share (share_lines (in_millions S) (total_sales df)) =
              map Fin
                  (map (fun v => (inject_Z v / inject_Z 1000000
                                  / inject_Z (total_sales df)
                                  * inject_Z 100))%Q
                       (map snd S))).
  { unfold share_lines, in_millions. rewrite !map_map. apply map_ext.
    intros kv. cbn [line_share fst snd]. unfold million.
    rewrite (fdiv_of_Z (snd kv) 1000000) by lia.
    unfold fdiv at 1, of_Z at 1.
    rewrite (inject_Z_nonzero (total_sales df)) by lia. reflexivity. }
  rewrite E, fsum_Fin. eexists. split; [reflexivity|].
  rewrite (sum_of_printed_shares (total_sales df) (map snd S) 0%Q) by lia.
  rewrite Hsum.
  assert (Hq : ~ inject_Z (total_sales df) == 0).
  { intros C. apply Qeq_bool_iff in C.
    rewrite (inject_Z_nonzero (total_sales df)) in C by lia. discriminate. }
  assert (Hm : ~ inject_Z 1000000 == 0).
  { intros C. apply Qeq_bool_iff in C.
    rewrite (inject_Z_nonzero 1000000) in C by lia. discriminate. }
  transitivity (inject_Z 100 / inject_Z 1000000)%Q; [|reflexivity].
  field; repeat split; assumption.
Qed.

(** ** More runs of the code *)

Example strptime_Jan24 : strptime_b_y "Jan24" = Some (2024, 1).
Proof. reflexivity. Qed.

Example strptime_upper_case : strptime_b_y "DEC99" = Some (1999, 12).
Proof. reflexivity. Qed.

Example strptime_no_month : strptime_b_y "Q124" = None.
Proof. reflexivity. Qed.

Example strptime_with_quote : strptime_b_y "Jan'24" = None.
Proof. reflexivity. Qed.

Example month_columns_of_year_2024 : month_columns year_2024 = months_2024.
Proof. reflexivity. Qed.

(** The round trip of the first WideRecord of [year_2024]: twelve
    LongRecords, dated January to December 2024, with sales 100, 0, ...,
    0. *)
Example long_records_of_X1 :
  map (fun lr => (date_of lr, sales_of lr))
      (long_records year_2024 (hd [] (rows year_2024))) =
  (Timestamp 2024 1, Num 100)
  :: map (fun m => (Timestamp 2024 (Z.of_nat m), Num 0)) (seq 2 11).
Proof. reflexivity. Qed.

(** With the insertion sort that keeps equal keys in place, the twenty
    LongRecords of [twenty_rows] come out in the order of the wide
    table; the promise of the library admits this order and the reversed
    one alike. *)
Example stable_sort_keeps_ties :
  exists long w,
    (identify_monthly_columns ;; convert_to_long_format stable_argsort)
      {| self := loaded twenty_rows; stdout := [] |} = (Ok true, w) /\
    df_long (self w) = Some long /\
    map carried (rows long) = map carried (melted_rows twenty_rows).
Proof.
  eexists. eexists. split; [vm_compute; reflexivity|].
  split; [reflexivity | vm_compute; reflexivity].
Qed.

(** A first half of the year without sales: the growth of the second half
    is reported as 0. *)
Example h1_h2_growth_of_zero_base :
  h1_h2_growth (long_table [sample_record "East" "Jan'24" (Num 0);
                            sample_record "East" "Jul'24" (Num 10)]) =
  Ok (Fin 0).
Proof. reflexivity. Qed.

(** A file that cannot be read: [load_data] prints the error and returns
    False, and [main] stops there. *)
Example main_without_a_file :
  main stable_argsort (Raise IOError) (ret tt) {| self := init; stdout := [] |} =
  (Ok tt, {| self := init; stdout := [LoadingDataset; ErrorLoading IOError] |}).
Proof. reflexivity. Qed.

(** * More of the scripts *)

(** ** [load_data] and the guards of the loader's methods *)

(** X1: [load_data] never raises. When [pd.read_excel] fails it prints the
    error, returns False and leaves the loader as it was, and [main] stops
    there: none of the later steps runs. When it succeeds it assigns
    [df_original] and nothing else: a long table and month columns of an
    earlier run stay in the loader. *)
Theorem load_data_swallows_errors (nargsort : sorter) (rest : M unit)
  (w : world) :
  (forall e,
     load_data (Raise e) w =
       (Ok false,
        {| self := self w;
           stdout := stdout w ++ [LoadingDataset; ErrorLoading e] |}) /\
     main nargsort (Raise e) rest w =
       (Ok tt,
        {| self := self w;
           stdout := stdout w ++ [LoadingDataset; ErrorLoading e] |})) /\
  (forall t,
     load_data (Ok t) w =
       (Ok true,
        {| self := {| df_original := Some t;
                      df_long := df_long (self w);
                      monthly_cols := monthly_cols (self w) |};
           stdout := stdout w
                     ++ [LoadingDataset;
                         DatasetLoaded (length (rows t))
                                       (length (columns t))] |})).
Proof.
  split.
  - intros e. unfold main, bind, load_data, try_except, bind, print, lift, ret.
    cbn [self stdout]. rewrite <- app_assoc. split; reflexivity.
  - intros t. unfold load_data, try_except, bind, print, lift, set_df_original,
      ret.
    cbn [self stdout]. rewrite <- app_assoc. reflexivity.
Qed.

(** X2: the methods on a loader that holds no table. The two that guard
    themselves print what is missing and return False without touching the
    loader; [identify_monthly_columns] has no guard and raises
    AttributeError. *)
Theorem methods_without_a_table (nargsort : sorter) (w : world) :
  df_original (self w) = None ->
  df_long (self w) = None ->
  identify_monthly_columns w = (Raise (AttributeError "columns"), w) /\
  convert_to_long_format nargsort w =
    (Ok false, {| self := self w; stdout := stdout w ++ [PleaseLoadFirst] |}) /\
  clean_data w =
    (Ok false, {| self := self w; stdout := stdout w ++ [PleaseConvertFirst] |}).
Proof.
  intros Ho Hl.
  unfold identify_monthly_columns, convert_to_long_format, clean_data,
    bind, get_self.
  rewrite Ho, Hl. repeat split.
Qed.

Lemma methods_without_a_table_witness :
  identify_monthly_columns {| self := init; stdout := [] |} =
    (Raise (AttributeError "columns"), {| self := init; stdout := [] |}) /\
  convert_to_long_format stable_argsort {| self := init; stdout := [] |} =
    (Ok false, {| self := init; stdout := [PleaseLoadFirst] |}) /\
  clean_data {| self := init; stdout := [] |} =
    (Ok false, {| self := init; stdout := [PleaseConvertFirst] |}).
Proof.
  exact (methods_without_a_table stable_argsort {| self := init; stdout := [] |}
           eq_refl eq_refl).
Defined.

(** ** When the conversion succeeds *)

Lemma index_of_absent n cols :
  existsb (String.eqb n) cols = false -> Str.index_of n cols = None.
Proof.
  induction cols as [|c cols IH]; simpl; [reflexivity|].
  destruct (String.eqb n c); simpl; [discriminate|].
  intros H. rewrite (IH H). reflexivity.
Qed.

Lemma existsb_eqb_In n cols :
  existsb (String.eqb n) cols = true <-> In n cols.
Proof.
  rewrite existsb_exists. split.
  - intros [x [Hx E]]. apply String.eqb_eq in E. subst. exact Hx.
  - intros H. exists n. split; [exact H | apply String.eqb_refl].
Qed.

Lemma indices_missing names cols :
  forallb (fun n => existsb (String.eqb n) cols) names = false ->
  exists n, In n names /\ ~ In n cols /\ indices names cols = Raise (KeyError n).
Proof.
  induction names as [|a names IH]; simpl; [discriminate|].
  destruct (existsb (String.eqb a) cols) eqn:E; simpl.
  - intros H. destruct (IH H) as [n [Hn [Hc Hi]]].
    exists n. split; [auto|]. split; [exact Hc|].
    apply existsb_eqb_In, index_of_In in E. destruct E as [i ->].
    rewrite Hi. reflexivity.
  - intros _. exists a. split; [auto|]. split.
    + intros Hin. apply existsb_eqb_In in Hin. congruence.
    + rewrite (index_of_absent a cols E). reflexivity.
Qed.

Lemma convert_key_error_run nargsort t :
  has_columns id_vars t = false ->
  exists n,
    In n id_vars /\ ~ In n (columns t) /\
    forall l mc out,
    convert_to_long_format nargsort
      {| self := {| df_original := Some t; df_long := l; monthly_cols := mc |};
         stdout := out |} =
    (Ok false,
     {| self := {| df_original := Some t; df_long := l; monthly_cols := mc |};
        stdout := out ++ [ConvertingToLong; ErrorConverting (KeyError n)] |}).
Proof.
  intros Hc. destruct (indices_missing id_vars (columns t) Hc) as [n [Hn [Ht Hi]]].
  exists n. split; [exact Hn|]. split; [exact Ht|]. intros l mc out.
  unfold convert_to_long_format, bind at 1, get_self.
  cbn [self df_original monthly_cols].
  unfold try_except.
  step. unfold print at 1. step.
  unfold lift at 1, melt. rewrite Hi.
  unfold bind, print, ret. cbn [self stdout].
  rewrite <- app_assoc. reflexivity.
Qed.

(** X3: for a table with at least one row, [identify_monthly_columns]
    followed by [convert_to_long_format] returns True exactly when the
    fifteen identifier columns are all there and every column whose name
    contains '24 reads as a month. When an identifier column is missing
    the conversion prints the KeyError, returns False and assigns no long
    table; [main] goes on, [clean_data] finds no long table and says so,
    and the steps after it run on a loader without one. *)
Theorem conversion_succeeds_iff (nargsort : sorter) (t : DataFrame)
  (rest : M unit) :
  rows t <> [] ->
  (fst (identify_and_convert nargsort t) = Ok true <->
   has_columns id_vars t = true /\ forallb parses (month_columns t) = true) /\
  (has_columns id_vars t = false ->
   exists n,
     In n id_vars /\ ~ In n (columns t) /\
     identify_and_convert nargsort t =
       (Ok false,
        {| self := {| df_original := Some t; df_long := None;
                      monthly_cols := month_columns t |};
           stdout := [found_columns t; ConvertingToLong;
                      ErrorConverting (KeyError n)] |}) /\
     main nargsort (Ok t) rest {| self := init; stdout := [] |} =
       rest {| self := {| df_original := Some t; df_long := None;
                          monthly_cols := month_columns t |};
               stdout := [LoadingDataset;
                          DatasetLoaded (length (rows t)) (length (columns t));
                          found_columns t; ConvertingToLong;
                          ErrorConverting (KeyError n); PleaseConvertFirst] |}).
Proof.
  intros Hr. split.
  - unfold identify_and_convert, bind. rewrite identify_run. split.
    + intros H.
      destruct (has_columns id_vars t) eqn:Hc.
      * split; [reflexivity|].
        destruct (forallb parses (month_columns t)) eqn:Hp; [reflexivity|].
        destruct (unparsed_month t Hr Hp) as [s [_ Hs]].
        rewrite (convert_fail_run nargsort t None _ s Hc Hs) in H.
        discriminate H.
      * destruct (convert_key_error_run nargsort t Hc) as [n [_ [_ E]]].
        rewrite E in H. discriminate H.
    + intros [Hc Hp]. rewrite (convert_run nargsort t None _ Hc Hp).
      reflexivity.
  - intros Hc.
    destruct (convert_key_error_run nargsort t Hc) as [n [Hn [Ht E]]].
    exists n. split; [exact Hn|]. split; [exact Ht|]. split.
    + unfold identify_and_convert, bind. rewrite identify_run. apply E.
    + rewrite main_loaded. unfold bind at 1. rewrite identify_run_from.
      unfold bind at 1. rewrite E. reflexivity.
Qed.

Lemma conversion_succeeds_iff_witness :
  (fst (identify_and_convert stable_argsort year_2024) = Ok true <->
   has_columns id_vars year_2024 = true /\
   forallb parses (month_columns year_2024) = true) /\
  exists n,
    In n id_vars /\ ~ In n (columns months_only) /\
    identify_and_convert stable_argsort months_only =
      (Ok false,
       {| self := {| df_original := Some months_only; df_long := None;
                     monthly_cols := month_columns months_only |};
          stdout := [found_columns months_only; ConvertingToLong;
                     ErrorConverting (KeyError n)] |}).
Proof.
  split.
  - apply (conversion_succeeds_iff stable_argsort year_2024 (ret tt)).
    discriminate.
  - destruct (conversion_succeeds_iff stable_argsort months_only (ret tt))
      as [_ H]; [discriminate|].
    destruct (H eq_refl) as [n [H1 [H2 [H3 _]]]].
    exists n. split; [exact H1|]. split; [exact H2 | exact H3].
Defined.

(** ** The time columns of the long table *)

Lemma digit_range c x : Str.digit c = Some x -> 0 <= x <= 9.
Proof.
  unfold Str.digit.
  destruct (Nat.leb 48 (nat_of_ascii c) && Nat.leb (nat_of_ascii c) 57)%bool
    eqn:E; [|discriminate].
  apply andb_prop in E. destruct E as [E1 E2].
  apply Nat.leb_le in E1, E2. intros H. inversion H. lia.
Qed.

Lemma strptime_year s y m : strptime_b_y s = Some (y, m) -> 1969 <= y <= 2068.
Proof.
  unfold strptime_b_y.
  destruct s as [|a [|b [|c [|d1 [|d2 [|? ?]]]]]]; try discriminate.
  destruct (Str.index_of _ month_abbr) as [i|]; [|discriminate].
  destruct (Str.digit d1) as [x|] eqn:E1; [|discriminate].
  destruct (Str.digit d2) as [z|] eqn:E2; [|discriminate].
  apply digit_range in E1, E2. cbv zeta.
  destruct (10 * x + z <=? 68) eqn:E;
    [apply Z.leb_le in E | apply Z.leb_gt in E];
    intros H;
    [assert (y = 2000 + (10 * x + z)) by congruence
    |assert (y = 1900 + (10 * x + z)) by congruence]; lia.
Qed.

(** X4: after a successful conversion every record of the long table has
    the twenty-two columns, and its time columns agree with one another:
    Month is the name of the month column without the quote and reads as
    the date in Date, a month from 1 to 12 of a year from 1969 to 2068;
    Month_Name is the English name of that month, Month_Num its number,
    Quarter its quarter, from 1 to 4, and Year its year. *)
Theorem long_records_time_columns (nargsort : sorter) (t : DataFrame) :
  nargsort_spec nargsort ->
  has_columns id_vars t = true ->
  forallb parses (month_columns t) = true ->
  exists long w,
    identify_and_convert nargsort t = (Ok true, w) /\
    df_long (self w) = Some long /\
    columns long = long_columns /\
    forall r, In r (rows long) ->
      length r = length long_columns /\
      exists c y m,
        In c (month_columns t) /\
        field long "Month" r = Str (month_token c) /\
        strptime_b_y (month_token c) = Some (y, m) /\
        1 <= m <= 12 /\ 1969 <= y <= 2068 /\
        field long "Date" r = Timestamp y m /\
        field long "Month_Name" r = Str (nth (Z.to_nat (m - 1)) month_name "") /\
        field long "Month_Num" r = Num m /\
        field long "Quarter" r = Num ((m - 1) / 3 + 1) /\
        1 <= (m - 1) / 3 + 1 <= 4 /\
        field long "Year" r = Num y.
Proof.
  intros Hk Hc Hp.
  exists {| columns := long_columns;
            rows := map after_sort
                        (take [] (date_indexer nargsort t) (before_sort t)) |}.
  eexists. split.
  { unfold identify_and_convert, bind. rewrite identify_run.
    apply convert_run; assumption. }
  split; [reflexivity|]. split; [reflexivity|].
  cbn [rows]. intros r Hr.
  apply in_map_iff in Hr. destruct Hr as [r0 [<- Hr0]].
  apply (take_In [] _ _ _ (date_indexer_perm nargsort t Hk)) in Hr0.
  unfold before_sort in Hr0. apply in_map_iff in Hr0.
  destruct Hr0 as [r1 [<- Hr1]].
  destruct (melted_shape t r1 Hr1) as [I [c [v [-> [HL Hin]]]]].
  rewrite (finish_row I c v HL).
  rewrite forallb_forall in Hp. specialize (Hp c Hin).
  unfold parses in Hp. unfold date_cell.
  destruct (strptime_b_y (month_token c)) as [[y m]|] eqn:E; [|discriminate].
  pose proof (strptime_month _ _ _ E) as Hm.
  pose proof (strptime_year _ _ _ E) as Hy.
  do 15 (destruct I as [|? I]; [discriminate HL|]).
  destruct I; [|discriminate HL].
  split; [reflexivity|].
  exists c, y, m. split; [exact Hin|]. split; [reflexivity|].
  split; [exact E|]. split; [exact Hm|]. split; [exact Hy|].
  split; [reflexivity|]. split; [reflexivity|]. split; [reflexivity|].
  split; [reflexivity|]. split; [|reflexivity].
  assert (0 <= (m - 1) / 3 <= 3); [|lia].
  split; [apply Z.div_pos; lia|].
  apply Z.lt_succ_r. apply Z.div_lt_upper_bound; lia.
Qed.

Lemma long_records_time_columns_witness :
  exists long w,
    identify_and_convert stable_argsort year_2024 = (Ok true, w) /\
    df_long (self w) = Some long /\
    columns long = long_columns /\
    forall r, In r (rows long) ->
      exists m, 1 <= m <= 12 /\
        field long "Date" r = Timestamp 2024 m /\
        field long "Quarter" r = Num ((m - 1) / 3 + 1).
Proof.
  destruct (long_records_time_columns stable_argsort year_2024
              (insertion_argsort_spec true) eq_refl eq_refl)
    as [long [w [H1 [H2 [H3 H4]]]]].
  exists long, w. split; [exact H1|]. split; [exact H2|]. split; [exact H3|].
  intros r Hr. destruct (H4 r Hr) as [_ [c [y [m H]]]].
  destruct H as [Hc [_ [Hs [Hm [_ [Hd [_ [_ [Hq _]]]]]]]]].
  exists m. split; [exact Hm|]. split; [|exact Hq].
  rewrite Hd. f_equal.
  assert (Hall : forallb (fun c => match strptime_b_y (month_token c) with
                                    | Some (y, _) => y =? 2024
                                    | None => false
                                    end) (month_columns year_2024) = true)
    by reflexivity.
  rewrite forallb_forall in Hall. specialize (Hall c Hc). rewrite Hs in Hall.
  apply Z.eqb_eq, Hall.
Defined.

(** ** What [clean_data] leaves alone *)

Lemma mask_rows_length rs : forall mask,
  (length (mask_rows rs mask) <= length rs)%nat.
Proof.
  unfold mask_rows. induction rs as [|r rs IH]; intros [|b mask]; simpl;
    try lia.
  specialize (IH mask). rewrite length_map in *.
  destruct b; simpl; lia.
Qed.

Lemma zero_if_negative_missing i j r :
  cell_at j (zero_if_negative i r) = NaN <-> cell_at j r = NaN.
Proof.
  unfold zero_if_negative. destruct (lt0 (cell_at i r)) eqn:E; [|tauto].
  destruct (Nat.eq_dec i j) as [<-|Hij].
  - rewrite cell_at_set_nth by (apply lt0_in_range, E).
    destruct (cell_at i r); try discriminate E. split; discriminate.
  - rewrite cell_at_set_nth_other by exact Hij. tauto.
Qed.

Lemma combine_seq_In {A : Type} (l : list A) : forall s j x,
  nth_error l j = Some x -> In ((s + j)%nat, x) (combine (seq s (length l)) l).
Proof.
  induction l as [|a l IH]; intros s [|j] x H; try discriminate.
  - inversion H. subst. rewrite Nat.add_0_r. left. reflexivity.
  - right. rewrite <- Nat.add_succ_comm. apply IH. exact H.
Qed.

Lemma isnull_sum_In df j name r :
  nth_error (columns df) j = Some name ->
  In r (rows df) -> cell_at j r = NaN ->
  exists n, In (name, n) (isnull_sum df) /\ (0 < n)%nat.
Proof.
  intros Hn Hr Hc. unfold isnull_sum.
  exists (length (filter is_nan (map (cell_at j) (rows df)))). split.
  - apply in_map_iff. exists (j, name). split; [reflexivity|].
    apply (combine_seq_In (columns df) O j name Hn).
  - assert (Hin : In NaN (filter is_nan (map (cell_at j) (rows df)))).
    { apply filter_In. split; [|reflexivity].
      rewrite <- Hc. apply in_map, Hr. }
    destruct (filter is_nan (map (cell_at j) (rows df))); [destruct Hin|].
    simpl. lia.
Qed.

Lemma sum_positive (l : list (string * nat)) p :
  In p l -> (0 < snd p)%nat ->
  (0 <? fold_right Nat.add O (map snd l))%nat = true.
Proof.
  intros Hin Hp. apply Nat.ltb_lt.
  induction l as [|a l IH]; [destruct Hin|].
  simpl. destruct Hin as [->|Hin]; [lia|]. specialize (IH Hin). lia.
Qed.

(** X5: [clean_data] reports the missing values and does nothing about
    them. The table it leaves has the columns it had and no more rows
    than before; a column has a missing value afterwards exactly when it
    had one before; and when a named column has one, the report lists the
    column with a positive count. *)
Theorem clean_data_keeps_missing_values (w : world) (df : DataFrame) (i : nat) :
  df_long (self w) = Some df ->
  Str.index_of "Sales" (columns df) = Some i ->
  exists out w',
    clean_data w = (Ok true, w') /\
    df_long (self w') = Some out /\
    columns out = columns df /\
    (length (rows out) <= length (rows df))%nat /\
    (forall j, (exists r, In r (rows out) /\ cell_at j r = NaN) <->
               (exists r, In r (rows df) /\ cell_at j r = NaN)) /\
    (forall j name r,
        nth_error (columns df) j = Some name ->
        In r (rows df) -> cell_at j r = NaN ->
        exists per n,
          In (FoundMissing per) (stdout w') /\ In (name, n) per /\ (0 < n)%nat).
Proof.
  intros Hl Hi. eexists. eexists.
  split; [apply (clean_data_run w df i Hl Hi)|].
  split; [reflexivity|].
  unfold loc_negative_sales_zero. cbn [columns drop_duplicates]. rewrite Hi.
  cbn [columns rows self stdout df_long].
  split; [reflexivity|]. split.
  { rewrite length_map. apply mask_rows_length. }
  split.
  - intros j. split.
    + intros [r [Hr Hc]]. apply in_map_iff in Hr. destruct Hr as [r0 [<- Hr0]].
      exists r0. split.
      * apply (drop_duplicates_In df). exact Hr0.
      * apply zero_if_negative_missing in Hc. exact Hc.
    + intros [r [Hr Hc]]. exists (zero_if_negative i r). split.
      * apply in_map. apply (drop_duplicates_In df). exact Hr.
      * apply zero_if_negative_missing. exact Hc.
  - intros j name r Hn Hr Hc.
    destruct (isnull_sum_In df j name r Hn Hr Hc) as [n [Hin Hpos]].
    exists (filter (fun p => (0 <? snd p)%nat) (isnull_sum df)), n.
    split; [|split; [|exact Hpos]].
    + apply in_or_app. right. unfold clean_report.
      rewrite (sum_positive _ _ Hin Hpos). right. left. reflexivity.
    + apply filter_In. split; [exact Hin|]. apply Nat.ltb_lt. exact Hpos.
Qed.

Lemma clean_data_keeps_missing_values_witness :
  exists out w',
    clean_data {| self := holding missing_regions; stdout := [] |} =
      (Ok true, w') /\
    df_long (self w') = Some out /\
    (exists r, In r (rows out) /\ cell_at 0 r = NaN) /\
    stdout w' = [CleaningDataset; FoundMissing [("Region", 2%nat)];
                 FoundNegative 1; CleaningCompleted].
Proof.
  destruct (clean_data_keeps_missing_values
              {| self := holding missing_regions; stdout := [] |}
              missing_regions 1 eq_refl eq_refl)
    as [out [w' [H1 [H2 [_ [_ [H3 _]]]]]]].
  exists out, w'. split; [exact H1|]. split; [exact H2|]. split.
  - apply H3. exists [NaN; Num 4]. split; [left|]; reflexivity.
  - change (stdout w') with (stdout (snd (Ok true, w'))). rewrite <- H1.
    reflexivity.
Defined.

(** X6: on a long table without a Sales column [clean_data] raises
    KeyError, and it raises after the duplicates were counted, reported
    and removed: what is left undone is the clipping and the closing
    message. *)
Theorem clean_data_without_sales (w : world) (df : DataFrame) :
  df_long (self w) = Some df ->
  Str.index_of "Sales" (columns df) = None ->
  exists said,
    clean_data w =
      (Raise (KeyError "Sales"),
       {| self := {| df_original := df_original (self w);
                     df_long := Some (drop_duplicates df);
                     monthly_cols := monthly_cols (self w) |};
          stdout := stdout w ++ said |}) /\
    said ++ [CleaningCompleted] = clean_report df.
Proof.
  intros Hl Hi.
  assert (Hneg : negative_count (drop_duplicates df) = O).
  { unfold negative_count, get_column. cbn [columns drop_duplicates].
    rewrite Hi. reflexivity. }
  exists ([CleaningDataset]
          ++ (if (0 <? fold_right Nat.add O (map snd (isnull_sum df)))%nat
              then [FoundMissing (filter (fun p => (0 <? snd p)%nat)
                                         (isnull_sum df))]
              else [])
          ++ (if (0 <? count_true (duplicated df))%nat
              then [FoundDuplicates (count_true (duplicated df));
                    RemovedDuplicates (length (rows (drop_duplicates df)))]
              else [])).
  split.
  - unfold clean_data, bind at 1, get_self. cbn [self]. rewrite Hl.
    step. unfold print at 1. step.
    unfold when at 1.
    destruct (0 <? fold_right Nat.add O (map snd (isnull_sum df)))%nat;
      (step; unfold print at 1 || unfold ret at 1); step;
      unfold when at 1;
      destruct (0 <? count_true (duplicated df))%nat eqn:Ed.
    all: try (apply Nat.ltb_ge in Ed;
              assert (Ed0 : count_true (duplicated df) = O) by lia;
              rewrite (drop_duplicates_same df Ed0)).
    all: unfold bind, print, set_df_long, the_df_long, lift, get_column, ret;
      cbn [self stdout df_original df_long monthly_cols columns rows
           drop_duplicates];
      rewrite ?Hl; cbn [columns]; rewrite Hi;
      rewrite <- ?app_assoc; try reflexivity.
    all: destruct w as [[o l m] out]; cbn in *; subst l;
      rewrite <- ?app_assoc; reflexivity.
  - unfold clean_report. rewrite Hneg. cbn [Nat.ltb Nat.leb].
    rewrite <- !app_assoc. reflexivity.
Qed.

Lemma clean_data_without_sales_witness :
  exists said,
    clean_data {| self := holding no_sales_column; stdout := [] |} =
      (Raise (KeyError "Sales"),
       {| self := holding {| columns := ["Region"; "Month"];
                             rows := [[Str "East"; Str "Jan24"]] |};
          stdout := said |}) /\
    said ++ [CleaningCompleted] =
      [CleaningDataset; FoundDuplicates 1; RemovedDuplicates 1;
       CleaningCompleted].
Proof.
  destruct (clean_data_without_sales
              {| self := holding no_sales_column; stdout := [] |}
              no_sales_column eq_refl eq_refl) as [said [H1 H2]].
  exists said. split; [exact H1 | exact H2].
Defined.

(** ** The value of a group *)

Section GroupValues.
Context {K : Type}.
Variable cmp : K -> K -> comparison.
Hypothesis cmp_eq : forall a b, cmp a b = Eq <-> a = b.

Local Abbreviation is_key := (fun (k : K) (kv : K * Z) =>
  match cmp k (fst kv) with Eq => true | _ => false end).

Lemma group_add_value k v (s : Series K) k' :
  total (map snd (filter (is_key k') (group_add cmp k v s))) =
  total (map snd (filter (is_key k') s))
  + match cmp k' k with Eq => v | _ => 0 end.
Proof.
  induction s as [|[k0 v0] t IH]; cbn [group_add].
  - cbn [filter fst]. destruct (cmp k' k); unfold total; simpl; lia.
  - destruct (cmp k k0) eqn:E.
    + apply cmp_eq in E. subst k0. cbn [filter fst].
      destruct (cmp k' k); unfold total in *; simpl; lia.
    + cbn [filter fst].
      destruct (cmp k' k), (cmp k' k0); unfold total in *; simpl; lia.
    + cbn [filter fst]. 
      destruct (cmp k' k0); unfold total in *; cbn [map fold_right snd];
        unfold total in IH; rewrite IH; lia.
Qed.

Lemma groupby_sum_value (key : row -> option K) (val : row -> Z) rs k :
  total (map snd (filter (is_key k) (groupby_sum cmp key val rs))) =
  total (map val (filter (fun r => match key r with
                                   | Some k' => match cmp k k' with
                                                | Eq => true
                                                | _ => false
                                                end
                                   | None => false
                                   end) rs)).
Proof.
  unfold groupby_sum.
  assert (H : forall acc,
            total (map snd (filter (is_key k)
              (fold_left (fun acc r => match key r with
                                       | Some k => group_add cmp k (val r) acc
                                       | None => acc
                                       end) rs acc))) =
            total (map snd (filter (is_key k) acc))
            + total (map val (filter (fun r => match key r with
                                               | Some k' =>
                                                   match cmp k k' with
                                                   | Eq => true
                                                   | _ => false
                                                   end
                                               | None => false
                                               end) rs))).
  { induction rs as [|r rs IH]; intros acc; cbn [fold_left filter].
    - unfold total. simpl. lia.
    - rewrite IH. destruct (key r) as [k0|].
      + rewrite group_add_value.
        destruct (cmp k k0); unfold total; cbn [map fold_right]; lia.
      + lia. }
  rewrite H. unfold total. simpl. lia.
Qed.

Lemma only_entry_of_its_key (s : Series K) k v :
  NoDup (map fst s) -> In (k, v) s ->
  total (map snd (filter (is_key k) s)) = v.
Proof.
  induction s as [|[k0 v0] t IH]; intros N Hin; [destruct Hin|].
  inversion N as [|? ? Hn N']. subst.
  assert (Hrest : forall k1, ~ In k1 (map fst t) ->
                    filter (is_key k1) t = []).
  { intros k1 Hk1. clear -Hk1 cmp_eq.
    induction t as [|[k2 v2] t IHt]; [reflexivity|].
    cbn [filter fst]. destruct (cmp k1 k2) eqn:E.
    - apply cmp_eq in E. subst. exfalso. apply Hk1. left. reflexivity.
    - apply IHt. intros C. apply Hk1. right. exact C.
    - apply IHt. intros C. apply Hk1. right. exact C. }
  destruct Hin as [E|Hin].
  - inversion E. subst. cbn [filter fst].
    assert (Ek : cmp k k = Eq) by (apply cmp_eq; reflexivity).
    rewrite Ek, (Hrest k Hn). unfold total. simpl. lia.
  - cbn [filter fst]. destruct (cmp k k0) eqn:E.
    + apply cmp_eq in E. subst k0. exfalso. apply Hn.
      apply in_map_iff. exists (k, v). split; [reflexivity | exact Hin].
    + apply IH; assumption.
    + apply IH; assumption.
Qed.

End GroupValues.

(** A group of [df.groupby(by)['Sales'].sum()] holds the sales of the
    records of its key. *)
Lemma groupby_str_sum_value by_ df s k v :
  groupby_str_sum by_ "Sales" df = Ok s ->
  In (k, v) s -> v = sales_where df by_ k.
Proof.
  intros Hg Hin. destruct (groupby_str_sum_keys _ _ _ _ Hg) as [Hnd _].
  rewrite <- (only_entry_of_its_key String.compare string_compare_eq s k v
                Hnd Hin).
  unfold groupby_str_sum in Hg. unfold sales_where, field.
  destruct (Str.index_of by_ (columns df)) as [i|]; [|discriminate].
  destruct (Str.index_of "Sales" (columns df)) as [j|]; [|discriminate].
  apply Ok_inj in Hg. subst s.
  rewrite (groupby_sum_value String.compare string_compare_eq).
  f_equal. f_equal. apply filter_ext. intros r.
  destruct (cell_at i r) as [s| | |]; cbn [str_key cell_eqb]; try reflexivity.
  destruct (String.compare k s) eqn:E.
  - apply string_compare_eq in E. subst. symmetry. apply String.eqb_refl.
  - symmetry. apply String.eqb_neq. intros C. subst.
    assert (E' : String.compare k k = Eq) by (apply string_compare_eq; reflexivity).
    congruence.
  - symmetry. apply String.eqb_neq. intros C. subst.
    assert (E' : String.compare k k = Eq) by (apply string_compare_eq; reflexivity).
    congruence.
Qed.

(** ** [geographic_analysis]: what it raises, and its top region *)

Lemma index_of_None n cols : ~ In n cols -> Str.index_of n cols = None.
Proof.
  intros H. apply index_of_absent.
  destruct (existsb (String.eqb n) cols) eqn:E; [|reflexivity].
  apply existsb_eqb_In in E. contradiction.
Qed.

Lemma no_key_no_group by_ df s :
  groupby_str_sum by_ "Sales" df = Ok s ->
  (forall x, In x (rows df) -> forall k, field df by_ x <> Str k) ->
  s = [].
Proof.
  intros Hg Hn. destruct (groupby_str_sum_keys _ _ _ _ Hg) as [_ Hk].
  destruct s as [|[k v] s]; [reflexivity|]. exfalso.
  destruct (proj1 (Hk k)) as [x [Hx E]]; [left; reflexivity|].
  exact (Hn x Hx k E).
Qed.

Lemma sorted_head {K : Type} nargsort (d : K) asc (s : Series K) :
  nargsort_spec nargsort ->
  s <> [] -> exists top, head (series_sort_values nargsort d asc s) = Some top.
Proof.
  intros Hk Hs. pose proof (series_sort_perm nargsort d asc s Hk) as P.
  destruct (series_sort_values nargsort d asc s) as [|top rest].
  - apply Permutation_nil in P. congruence.
  - exists top. reflexivity.
Qed.

(** X7: what [geographic_analysis] raises. A missing Sales, Region or
    Province column is a KeyError, looked for in that order. With the
    three columns there, the function raises IndexError, at
    [regional_sales.index[0]], exactly when no record has a region (an
    empty table, for one), and returns its report otherwise. *)
Theorem geographic_analysis_outcome (nargsort : sorter) (df : DataFrame) :
  nargsort_spec nargsort ->
  (~ In "Sales" (columns df) ->
   geographic_analysis nargsort df = Raise (KeyError "Sales")) /\
  (In "Sales" (columns df) -> ~ In "Region" (columns df) ->
   geographic_analysis nargsort df = Raise (KeyError "Region")) /\
  (In "Sales" (columns df) -> In "Region" (columns df) ->
   ~ In "Province" (columns df) ->
   geographic_analysis nargsort df = Raise (KeyError "Province")) /\
  (In "Sales" (columns df) -> In "Region" (columns df) ->
   In "Province" (columns df) ->
   ((forall x, In x (rows df) -> forall k, field df "Region" x <> Str k) ->
    geographic_analysis nargsort df = Raise IndexError) /\
   ((exists x k, In x (rows df) /\ field df "Region" x = Str k) ->
    exists r, geographic_analysis nargsort df = Ok r)).
Proof.
  intros Hk. unfold geographic_analysis, column_sum, get_column.
  split; [|split; [|split]].
  - intros Hs. rewrite (index_of_None _ _ Hs). reflexivity.
  - intros Hs Hr. destruct (index_of_In _ _ Hs) as [j Ej]. rewrite Ej.
    unfold groupby_str_sum. rewrite (index_of_None _ _ Hr). reflexivity.
  - intros Hs Hr Hp. destruct (index_of_In _ _ Hs) as [j Ej]. rewrite Ej.
    destruct (index_of_In _ _ Hr) as [i Ei].
    unfold groupby_str_sum. rewrite Ei, Ej, (index_of_None _ _ Hp).
    reflexivity.
  - intros Hs Hr Hp. destruct (index_of_In _ _ Hs) as [j Ej]. rewrite Ej.
    destruct (index_of_In _ _ Hr) as [i Ei].
    destruct (index_of_In _ _ Hp) as [p Ep].
    destruct (groupby_str_sum "Region" "Sales" df) as [by_region|] eqn:Eg;
      [|unfold groupby_str_sum in Eg; rewrite Ei, Ej in Eg; discriminate].
    destruct (groupby_str_sum "Province" "Sales" df) as [by_province|] eqn:Eq;
      [|unfold groupby_str_sum in Eq; rewrite Ep, Ej in Eq; discriminate].
    split.
    + intros Hn. rewrite (no_key_no_group _ _ _ Eg Hn).
      pose proof (series_sort_perm nargsort "" false (@nil (string * Z)) Hk)
        as P.
      apply Permutation_sym, Permutation_nil in P. rewrite P. reflexivity.
    + intros [x [k [Hx E]]].
      destruct (sorted_head nargsort "" false by_region Hk) as [top Et].
      * destruct (groupby_str_sum_keys _ _ _ _ Eg) as [_ Hkeys].
        assert (Hin : In k (map fst by_region)) by (apply Hkeys; eauto).
        intros C. rewrite C in Hin. destruct Hin.
      * rewrite Et. eexists. reflexivity.
Qed.

Lemma geographic_analysis_outcome_witness :
  geographic_analysis stable_argsort no_province_column =
    Raise (KeyError "Province") /\
  geographic_analysis stable_argsort (long_table []) = Raise IndexError /\
  exists r, geographic_analysis stable_argsort east_and_west = Ok r.
Proof.
  pose proof (geographic_analysis_outcome stable_argsort no_province_column
                (insertion_argsort_spec true)) as [_ [_ [H1 _]]].
  pose proof (geographic_analysis_outcome stable_argsort (long_table [])
                (insertion_argsort_spec true)) as [_ [_ [_ H2]]].
  pose proof (geographic_analysis_outcome stable_argsort east_and_west
                (insertion_argsort_spec true)) as [_ [_ [_ H3]]].
  split; [|split].
  - apply H1.
    + right. left. reflexivity.
    + left. reflexivity.
    + intros [C|[C|[]]]; discriminate C.
  - apply H2.
    + apply (existsb_eqb_In "Sales" long_columns). reflexivity.
    + apply (existsb_eqb_In "Region" long_columns). reflexivity.
    + apply (existsb_eqb_In "Province" long_columns). reflexivity.
    + intros x [].
  - apply H3.
    + apply (existsb_eqb_In "Sales" long_columns). reflexivity.
    + apply (existsb_eqb_In "Region" long_columns). reflexivity.
    + apply (existsb_eqb_In "Province" long_columns). reflexivity.
    + exists (sample_record "East" "Jan'24" (Num 100)), "East".
      split; [left|]; reflexivity.
Defined.







(** X9: the label of the concentration index follows the number of
    regions. When no record lacks its region, no sales value is negative
    and the grand total is positive, a table of at most three regions is
    always labelled High, and one of at most six regions is never
    labelled Low. *)
Theorem few_regions_are_concentrated (nargsort : sorter) (df : DataFrame)
  (r : geographic_report) :
  nargsort_spec nargsort ->
  geographic_analysis nargsort df = Ok r ->
  (forall x, In x (rows df) -> exists s, field df "Region" x = Str s) ->
  (forall x, In x (rows df) -> 0 <= cell_value (field df "Sales" x)) ->
  0 < total_sales df ->
  ((length (regional_lines r) <= 3)%nat -> concentration_level r = "High") /\
  ((length (regional_lines r) <= 6)%nat -> concentration_level r <> "Low").
Proof.
  intros Hk H Hr Hs Ht. unfold geographic_analysis in H.
  destruct (column_sum "Sales" df) as [T|] eqn:Ec; [|discriminate].
  destruct (groupby_str_sum "Region" "Sales" df) as [by_region|] eqn:Eg;
    [|discriminate].
  destruct (groupby_str_sum "Province" "Sales" df) as [by_province|];
    [|discriminate].
  destruct (head (series_sort_values nargsort "" false by_region)) as [top|];
    [|discriminate].
  apply Ok_inj in H. rename H into Hrep.
  pose proof (f_equal concentration_level Hrep) as Eh.
  pose proof (f_equal regional_lines Hrep) as El.
  unfold concentration_level at 1 in Eh. unfold regional_lines at 1 in El.
  rewrite <- Eh, <- El. clear Hrep Eh El.
  apply column_sum_total in Ec. subst T.
  pose proof (regional_total nargsort df by_region Hk Eg Hr) as Hsum.
  pose proof (regional_nonneg nargsort df by_region Hk Eg Hs) as Hpos.
  rewrite hhi_value by lia.
  destruct (hhi_of_sums (total_sales df)
              (map snd (series_sort_values nargsort "" false by_region))
              Hpos Hsum Ht) as [Hlow _].
  set (sorted := series_sort_values nargsort "" false by_region) in *.
  assert (Hlen : length (share_lines (in_millions sorted) (total_sales df)) =
                 length (map snd sorted)).
  { unfold share_lines, in_millions. rewrite !length_map. reflexivity. }
  rewrite Hlen.
  set (h := fold_left Qplus _ 0%Q) in *.
  set (k := Z.of_nat (length (map snd sorted))) in *.
  assert (Hn : 0 < k).
  { subst k. destruct (map snd sorted); [|simpl; lia].
    unfold total in Hsum. simpl in Hsum. lia. }
  unfold fgtb, Qltb. split.
  - intros H3. apply Nat2Z.inj_le in H3. fold k in H3.
    destruct (Qle_bool h (25 # 100)) eqn:E; [|reflexivity].
    apply Qle_bool_iff in E. exfalso.
    assert (C : (1 / inject_Z k <= 25 # 100)%Q)
      by (eapply Qle_trans; eassumption).
    destruct k as [|p|p]; try lia.
    revert C. unfold Qle. simpl. lia.
  - intros H6. apply Nat2Z.inj_le in H6. fold k in H6.
    destruct (Qle_bool h (25 # 100)); [|discriminate].
    destruct (Qle_bool h (15 # 100)) eqn:E; [|discriminate].
    apply Qle_bool_iff in E. exfalso.
    assert (C : (1 / inject_Z k <= 15 # 100)%Q)
      by (eapply Qle_trans; eassumption).
    destruct k as [|p|p]; try lia.
    revert C. unfold Qle. simpl. lia.
Qed.

Lemma few_regions_are_concentrated_witness :
  exists r,
    geographic_analysis stable_argsort east_and_west = Ok r /\
    length (regional_lines r) = 2%nat /\
    concentration_level r = "High".
Proof.
  destruct (geographic_analysis stable_argsort east_and_west) as [r|] eqn:E;
    [|vm_compute in E; discriminate E].
  destruct (few_regions_are_concentrated stable_argsort east_and_west r
              (insertion_argsort_spec true) E) as [H _].
  - intros x [<-|[<-|[]]]; eexists; reflexivity.
  - intros x [<-|[<-|[]]]; vm_compute; discriminate.
  - reflexivity.
  - assert (L : length (regional_lines r) = 2%nat).
    { assert (El : option_map (fun r => length (regional_lines r))
                     (match geographic_analysis stable_argsort east_and_west with
                      | Ok r => Some r | Raise _ => None end) = Some 2%nat)
        by (vm_compute; reflexivity).
      rewrite E in El. inversion El. reflexivity. }
    exists r. split; [reflexivity|]. split; [exact L|].
    apply H. rewrite L. lia.
Defined.

Lemma printed_shares_sum_witness :
  exists r s,
    geographic_analysis stable_argsort east_and_west = Ok r /\
    fsum (map line_share (regional_lines r)) = Fin s /\ s == 1 # 10000.
Proof.
  destruct (geographic_analysis stable_argsort east_and_west) as [r|] eqn:E;
    [|vm_compute in E; discriminate E].
  destruct (printed_shares_sum stable_argsort east_and_west r
              (insertion_argsort_spec true) E) as [s [H1 H2]].
  - intros x [<-|[<-|[]]]; eexists; reflexivity.
  - reflexivity.
  - exists r, s. split; [reflexivity|]. split; [exact H1 | exact H2].
Defined.

(** ** Labels computed from the printed share *)








(** ** The ranking of the growth rates *)

Lemma fgtb_Fin x y : fgtb (Fin x) (Fin y) = negb (Qle_bool x y).
Proof. reflexivity. Qed.

Lemma insert_desc_finite {A : Type} (x : A * fnum) l :
  is_finite (snd x) -> Forall (fun y => is_finite (snd y)) l ->
  Forall (fun y => is_finite (snd y)) (insert_desc x l).
Proof.
  intros Hx Hl. eapply Permutation_Forall.
  - symmetry. apply insert_desc_perm.
  - constructor; assumption.
Qed.

Lemma at_least_trans a b c : at_least a b -> at_least b c -> at_least a c.
Proof.
  destruct a, b, c; simpl; try tauto. intros H1 H2.
  eapply Qle_trans; eassumption.
Qed.

Lemma insert_desc_sorted {A : Type} (x : A * fnum) l :
  is_finite (snd x) -> Forall (fun y => is_finite (snd y)) l ->
  StronglySorted (fun a b => at_least (snd a) (snd b)) l ->
  StronglySorted (fun a b => at_least (snd a) (snd b)) (insert_desc x l).
Proof.
  intros Hx Hl S. induction S as [|y t St IH Ft]; cbn [insert_desc].
  - constructor; constructor.
  - inversion Hl as [|? ? Hy Ht]. subst.
    destruct (snd x) as [qx| | |] eqn:Ex; try destruct Hx.
    destruct (snd y) as [qy| | |] eqn:Ey; try destruct Hy.
    rewrite <- Ey in Ft. rewrite fgtb_Fin. destruct (Qle_bool qx qy) eqn:E; cbn [negb].
    + apply Qle_bool_iff in E.
      constructor; [apply IH, Ht|].
      eapply Permutation_Forall; [symmetry; apply insert_desc_perm|].
      constructor; [|exact Ft]. rewrite Ex, Ey. exact E.
    + assert (Hlt : (qy <= qx)%Q).
      { destruct (Qlt_le_dec qy qx) as [L|L]; [apply Qlt_le_weak, L|].
        apply Qle_bool_iff in L. congruence. }
      constructor; [constructor; assumption|].
      constructor; [rewrite Ex, Ey; exact Hlt|].
      eapply Forall_impl; [|exact Ft]. intros z Hz.
      apply (at_least_trans _ (snd y)); [rewrite Ex, Ey; exact Hlt | exact Hz].
Qed.

Lemma sort_reverse_sorted {A : Type} (l : list (A * fnum)) :
  Forall (fun y => is_finite (snd y)) l ->
  StronglySorted (fun a b => at_least (snd a) (snd b)) (sort_reverse l).
Proof.
  unfold sort_reverse.
  assert (H : forall acc,
            Forall (fun y => is_finite (snd y)) l ->
            Forall (fun y => is_finite (snd y)) acc ->
            StronglySorted (fun a b => at_least (snd a) (snd b)) acc ->
            StronglySorted (fun a b => at_least (snd a) (snd b))
              (fold_left (fun a x => insert_desc x a) l acc)).
  { induction l as [|x l IH]; intros acc Hl Ha S; [exact S|].
    inversion Hl. subst. cbn [fold_left]. apply IH.
    - assumption.
    - apply insert_desc_finite; assumption.
    - apply insert_desc_sorted; assumption. }
  intros Hl. apply H; [exact Hl | constructor | constructor].
Qed.

Lemma unique_from_spec l : forall seen,
  NoDup (unique_from seen l) /\
  forall x, In x (unique_from seen l) -> ~ In x seen.
Proof.
  induction l as [|c l IH]; intros seen; [split; [constructor | intros x []]|].
  destruct c as [s| | |]; cbn [unique_from]; try apply IH.
  destruct (existsb (String.eqb s) seen) eqn:E; [apply IH|].
  destruct (IH (s :: seen)) as [N F]. split.
  - constructor; [|exact N]. intros C. apply (F s C). left. reflexivity.
  - intros x [<-|Hx].
    + intros C. apply existsb_eqb_In in C. congruence.
    + intros C. apply (F x Hx). right. exact C.
Qed.

Lemma region_growth_key nargsort rg region x g :
  In (x, g) (region_growth nargsort rg region) -> x = region.
Proof.
  unfold region_growth.
  destruct (6 <=? _)%nat; [|intros []].
  destruct (fgtb _ _); [|intros []].
  intros [H|[]]. inversion H. reflexivity.
Qed.

Lemma region_growth_once nargsort rg regions :
  NoDup regions ->
  NoDup (map fst (flat_map (region_growth nargsort rg) regions)).
Proof.
  induction 1 as [|a l Ha N IH]; cbn [flat_map]; [constructor|].
  rewrite map_app. 
  assert (Hrest : forall x, In x (map fst (flat_map (region_growth nargsort rg) l))
                    -> In x l).
  { intros x Hx. apply in_map_iff in Hx. destruct Hx as [[k g] [<- Hin]].
    apply in_flat_map in Hin. destruct Hin as [y [Hy Hg]].
    apply region_growth_key in Hg. subst. exact Hy. }
  unfold region_growth at 1.
  destruct (6 <=? _)%nat; [|exact IH].
  destruct (fgtb _ _); [|exact IH].
  cbn [map app fst]. constructor; [|exact IH].
  intros C. apply Ha, Hrest, C.
Qed.




Lemma reported_growth nargsort df r :
  regional_performance_analysis nargsort df = Ok r ->
  exists rg regions,
    regional_growth_frame df = Ok rg /\
    growth_analysis r =
      sort_reverse (flat_map (region_growth nargsort rg) (unique regions)) /\
    growth_leaders r =
      map fst (filter (fun g => fgtb (snd g) (Fin 20)) (growth_analysis r)) /\
    declining_regions r =
      map fst (filter (fun g => fgtb (Fin (- 10)) (snd g)) (growth_analysis r)).
Proof.
  intros H. unfold regional_performance_analysis in H.
  destruct (column_sum "Sales" df) as [T|]; [|discriminate].
  destruct (groupby_str_sum "Region" "Sales" df) as [by_region|];
    [|discriminate].
  destruct (regional_growth_frame df) as [rg|]; [|discriminate].
  destruct (get_column "Region" df) as [regions|]; [|discriminate].
  destruct (head (series_sort_values nargsort "" false by_region)) as [top|];
    [|discriminate].
  apply Ok_inj in H. subst r. exists rg, regions.
  split; [reflexivity|]. split; [reflexivity|]. split; reflexivity.
Qed.

Lemma found_growth_finite nargsort rg regions :
  Forall (fun y => is_finite (snd y))
         (flat_map (region_growth nargsort rg) regions).
Proof.
  apply Forall_forall. intros [k g] Hin.
  apply in_flat_map in Hin. destruct Hin as [x [_ Hx]].
  apply (region_growth_reported _ _ _ _ _ Hx).
Qed.



Lemma above_is_a_prefix {A : Type} (c : Q) (l : list (A * fnum)) :
  StronglySorted (fun a b => at_least (snd a) (snd b)) l ->
  exists n, filter (fun g => fgtb (snd g) (Fin c)) l = firstn n l.
Proof.
  induction 1 as [|y t S IH F].
  - exists O. reflexivity.
  - cbn [filter]. destruct (fgtb (snd y) (Fin c)) eqn:E.
    + destruct IH as [n IH]. exists (Datatypes.S n). rewrite IH. reflexivity.
    + exists O. cbn [firstn].
      assert (Hn : forall z, In z t -> fgtb (snd z) (Fin c) = false).
      { intros z Hz. rewrite Forall_forall in F. specialize (F z Hz).
        destruct (snd y) as [qy| | |]; try (exfalso; exact F).
        destruct (snd z) as [qz| | |]; try (exfalso; exact F).
        cbn [at_least] in F. rewrite fgtb_Fin in *.
        apply negb_false_iff in E. apply Qle_bool_iff in E.
        apply negb_false_iff. apply Qle_bool_iff.
        eapply Qle_trans; eassumption. }
      clear -Hn. induction t as [|z t IHt]; [reflexivity|].
      cbn [filter]. rewrite (Hn z) by (left; reflexivity).
      apply IHt. intros w Hw. apply Hn. right. exact Hw.
Qed.

Lemma below_is_a_suffix {A : Type} (c : Q) (l : list (A * fnum)) :
  StronglySorted (fun a b => at_least (snd a) (snd b)) l ->
  exists m, (m <= length l)%nat /\
            filter (fun g => fgtb (Fin c) (snd g)) l = lastn m l.
Proof.
  induction 1 as [|y t S IH F].
  - exists O. split; [lia | reflexivity].
  - cbn [filter]. destruct (fgtb (Fin c) (snd y)) eqn:E.
    + exists (length (y :: t)). split; [lia|].
      unfold lastn. rewrite Nat.sub_diag. cbn [skipn]. f_equal.
      assert (Hn : forall z, In z t -> fgtb (Fin c) (snd z) = true).
      { intros z Hz. rewrite Forall_forall in F. specialize (F z Hz).
        destruct (snd y) as [qy| | |]; try (exfalso; exact F).
        destruct (snd z) as [qz| | |]; try (exfalso; exact F).
        cbn [at_least] in F. rewrite fgtb_Fin in *.
        apply negb_true_iff in E. apply negb_true_iff.
        destruct (Qle_bool c qz) eqn:C; [|reflexivity].
        apply Qle_bool_iff in C.
        assert (C' : Qle_bool c qy = true)
          by (apply Qle_bool_iff; eapply Qle_trans; eassumption).
        congruence. }
      clear -Hn. induction t as [|z t IHt]; [reflexivity|].
      cbn [filter]. rewrite (Hn z) by (left; reflexivity). f_equal.
      apply IHt. intros w Hw. apply Hn. right. exact Hw.
    + destruct IH as [m [Hm IH]]. exists m. split; [simpl; lia|].
      rewrite IH. unfold lastn. cbn [length].
      replace (Datatypes.S (length t) - m)%nat
        with (Datatypes.S (length t - m)) by lia.
      reflexivity.
Qed.

Lemma one_rate_per_region {A : Type} (l : list (string * A)) x g g' :
  NoDup (map fst l) -> In (x, g) l -> In (x, g') l -> g = g'.
Proof.
  induction l as [|[k v] l IH]; intros N H1 H2; [destruct H1|].
  inversion N as [|? ? Hn N']. subst.
  destruct H1 as [E1|H1], H2 as [E2|H2].
  - congruence.
  - inversion E1. subst. exfalso. apply Hn.
    apply in_map_iff. exists (x, g'). split; [reflexivity | exact H2].
  - inversion E2. subst. exfalso. apply Hn.
    apply in_map_iff. exists (x, g). split; [reflexivity | exact H1].
  - apply IH; assumption.
Qed.

(** X13: the growth leaders that [regional_performance_analysis] returns
    are the regions at the top of its ranking, those with a rate above 20,
    and the declining regions the ones at its bottom, those with a rate
    below -10; no region is in both lists. *)
Theorem leaders_and_decliners (nargsort : sorter) (df : DataFrame)
  (r : regional_report) :
  regional_performance_analysis nargsort df = Ok r ->
  (exists n, growth_leaders r = map fst (firstn n (growth_analysis r))) /\
  (exists m, declining_regions r = map fst (lastn m (growth_analysis r))) /\
  (forall x, In x (growth_leaders r) <->
             exists g, In (x, g) (growth_analysis r) /\
                       fgtb g (Fin 20) = true) /\
  (forall x, In x (declining_regions r) <->
             exists g, In (x, g) (growth_analysis r) /\
                       fgtb (Fin (- 10)) g = true) /\
  (forall x, In x (growth_leaders r) -> ~ In x (declining_regions r)).
Proof.
  intros H.
  destruct (reported_growth nargsort df r H)
    as [rg [regions [_ [E [El Ed]]]]].
  assert (S : StronglySorted (fun a b => at_least (snd a) (snd b))
                             (growth_analysis r)).
  { rewrite E. apply sort_reverse_sorted, found_growth_finite. }
  assert (N : NoDup (map fst (growth_analysis r))).
  { rewrite E. eapply Permutation_NoDup.
    - apply Permutation_map, Permutation_sym, sort_reverse_perm.
    - apply region_growth_once. apply unique_from_spec. }
  assert (Fn : Forall (fun y => is_finite (snd y)) (growth_analysis r)).
  { rewrite E. eapply Permutation_Forall.
    - symmetry. apply sort_reverse_perm.
    - apply found_growth_finite. }
  assert (Hl : forall x, In x (growth_leaders r) <->
                 exists g, In (x, g) (growth_analysis r) /\
                           fgtb g (Fin 20) = true).
  { intros x. rewrite El, in_map_iff. split.
    - intros [[k g] [<- Hin]]. apply filter_In in Hin. exists g. exact Hin.
    - intros [g Hg]. exists (x, g). split; [reflexivity|].
      apply filter_In. exact Hg. }
  assert (Hd : forall x, In x (declining_regions r) <->
                 exists g, In (x, g) (growth_analysis r) /\
                           fgtb (Fin (- 10)) g = true).
  { intros x. rewrite Ed, in_map_iff. split.
    - intros [[k g] [<- Hin]]. apply filter_In in Hin. exists g. exact Hin.
    - intros [g Hg]. exists (x, g). split; [reflexivity|].
      apply filter_In. exact Hg. }
  split; [|split; [|split; [exact Hl|split; [exact Hd|]]]].
  - destruct (above_is_a_prefix 20 _ S) as [n En]. exists n.
    rewrite El, En. reflexivity.
  - destruct (below_is_a_suffix (- 10) _ S) as [m [_ Em]]. exists m.
    rewrite Ed, Em. reflexivity.
  - intros x H1 H2. apply Hl in H1. apply Hd in H2.
    destruct H1 as [g [G1 G2]]. destruct H2 as [g' [G1' G2']].
    pose proof (one_rate_per_region _ _ _ _ N G1 G1'). subst g'.
    destruct g as [q| | |]; try discriminate.
    rewrite fgtb_Fin in G2, G2'.
    apply negb_true_iff in G2, G2'.
    destruct (Qlt_le_dec 20 q) as [L|L].
    + assert (C : Qle_bool (- 10) q = true).
      { apply Qle_bool_iff. apply Qlt_le_weak.
        eapply Qlt_trans; [|exact L]. reflexivity. }
      congruence.
    + apply Qle_bool_iff in L. congruence.
Qed.

Lemma leaders_and_decliners_witness :
  exists r,
    regional_performance_analysis stable_argsort three_regions = Ok r /\
    growth_leaders r = ["East"] /\ declining_regions r = ["North"] /\
    (forall x, In x (growth_leaders r) -> ~ In x (declining_regions r)).
Proof.
  destruct (regional_performance_analysis stable_argsort three_regions)
    as [r|] eqn:E; [|vm_compute in E; discriminate E].
  exists r. split; [reflexivity|].
  assert (El : option_map (fun r => (growth_leaders r, declining_regions r))
                 (match regional_performance_analysis stable_argsort
                          three_regions
                  with Ok r => Some r | Raise _ => None end) =
               Some (["East"], ["North"])) by (vm_compute; reflexivity).
  rewrite E in El. cbn [option_map] in El.
  split; [congruence|]. split; [congruence|].
  apply (leaders_and_decliners stable_argsort three_regions r E).
Defined.

(** ** [product_performance_analysis]: the diet share *)

Lemma series_get_In key d (s : Series string) v :
  NoDup (map fst s) -> In (key, v) s -> series_get key d s = v.
Proof.
  unfold series_get. induction s as [|[k0 v0] s IH]; intros N Hin;
    [destruct Hin|].
  inversion N as [|? ? Hn N']. subst. cbn [find fst].
  destruct (String.eqb k0 key) eqn:E.
  - apply String.eqb_eq in E. subst k0. destruct Hin as [Hin|Hin].
    + inversion Hin. reflexivity.
    + exfalso. apply Hn. apply in_map_iff. exists (key, v).
      split; [reflexivity | exact Hin].
  - destruct Hin as [Hin|Hin].
    + inversion Hin. subst. rewrite String.eqb_refl in E. discriminate.
    + apply IH; assumption.
Qed.

Lemma series_get_absent key d (s : Series string) :
  ~ In key (map fst s) -> series_get key d s = d.
Proof.
  unfold series_get. induction s as [|[k0 v0] s IH]; intros Hn; [reflexivity|].
  cbn [find fst]. destruct (String.eqb k0 key) eqn:E.
  - apply String.eqb_eq in E. subst. exfalso. apply Hn. left. reflexivity.
  - apply IH. intros C. apply Hn. right. exact C.
Qed.

Lemma sales_where_absent df by_ k :
  (forall x, In x (rows df) -> field df by_ x <> Str k) ->
  sales_where df by_ k = 0.
Proof.
  intros H. unfold sales_where.
  assert (E : filter (fun r => cell_eqb (field df by_ r) (Str k)) (rows df) = []).
  { induction (rows df) as [|r rs IH]; [reflexivity|].
    cbn [filter]. destruct (cell_eqb (field df by_ r) (Str k)) eqn:C.
    - apply cell_eqb_eq in C. exfalso. apply (H r); [left; reflexivity | exact C].
    - apply IH. intros x Hx. apply H. right. exact Hx. }
  rewrite E. reflexivity.
Qed.

Lemma sales_where_bounds df by_ k :
  (forall x, In x (rows df) -> 0 <= cell_value (field df "Sales" x)) ->
  0 <= sales_where df by_ k <= total_sales df.
Proof.
  intros H. unfold sales_where, total_sales, total.
  induction (rows df) as [|r rs IH]; [simpl; lia|].
  assert (0 <= cell_value (field df "Sales" r)) by (apply H; left; reflexivity).
  assert (IH' : 0 <= fold_right Z.add 0
                       (map (fun r => cell_value (field df "Sales" r))
                            (filter (fun r => cell_eqb (field df by_ r) (Str k))
                                    rs))
                <= fold_right Z.add 0
                     (map (fun r => cell_value (field df "Sales" r)) rs))
    by (apply IH; intros x Hx; apply H; right; exact Hx).
  cbn [filter]. destruct (cell_eqb (field df by_ r) (Str k));
    cbn [map fold_right]; lia.
Qed.

(** The value that [series.get] finds in the ranked sums of a column. *)
Lemma ranked_sales_get nargsort by_ df s k :
  nargsort_spec nargsort ->
  ranked_sales nargsort by_ df = Ok s ->
  series_get k 0 s = sales_where df by_ k.
Proof.
  intros Hk H. unfold ranked_sales in H.
  destruct (groupby_str_sum by_ "Sales" df) as [g|] eqn:Eg; [|discriminate].
  apply Ok_inj in H. subst s.
  pose proof (series_sort_perm nargsort "" false g Hk) as P.
  destruct (groupby_str_sum_keys _ _ _ _ Eg) as [Hnd Hkeys].
  assert (N : NoDup (map fst (series_sort_values nargsort "" false g))).
  { eapply Permutation_NoDup; [|exact Hnd].
    apply Permutation_map, Permutation_sym, P. }
  destruct (in_dec string_dec k (map fst g)) as [Hin|Hout].
  - apply in_map_iff in Hin. destruct Hin as [[k' v] [Ek Hin]].
    cbn [fst] in Ek. subst k'.
    rewrite (series_get_In k 0 _ v N)
      by (apply (Permutation_in _ (Permutation_sym P)), Hin).
    apply (groupby_str_sum_value _ _ _ _ _ Eg Hin).
  - rewrite series_get_absent.
    + symmetry. apply sales_where_absent. intros x Hx C.
      apply Hout, Hkeys. eauto.
    + intros C. apply Hout. revert C. apply Permutation_in.
      apply Permutation_map, P.
Qed.

(** X14: the diet penetration that [product_performance_analysis]
    returns is the sales of the records whose REG/DIET is exactly DIET
    over the grand total, times 100: records labelled otherwise (Diet,
    say) do not count, and with no DIET record and a grand total other
    than 0 it is 0. With no negative sales and a positive grand total it
    lies between 0 and 100. *)
Theorem diet_penetration_is_the_DIET_share (nargsort : sorter)
  (df : DataFrame) (r : product_report) :
  nargsort_spec nargsort ->
  product_performance_analysis nargsort df = Ok r ->
  diet_penetration r =
    fmul (fdiv (of_Z (sales_where df "REG/DIET" "DIET"))
               (of_Z (total_sales df)))
         hundred /\
  ((forall x, In x (rows df) -> field df "REG/DIET" x <> Str "DIET") ->
   total_sales df <> 0 ->
   exists q, diet_penetration r = Fin q /\ q == 0) /\
  ((forall x, In x (rows df) -> 0 <= cell_value (field df "Sales" x)) ->
   0 < total_sales df ->
   exists q, diet_penetration r = Fin q /\ (0 <= q)%Q /\ (q <= 100)%Q).
Proof.
  intros Hk H. unfold product_performance_analysis in H.
  destruct (column_sum "Sales" df) as [T|] eqn:Ec; [|discriminate].
  destruct (ranked_sales nargsort "KEY MANU  & KINZA" df) as [manu_sales|];
    [|discriminate].
  destruct (ranked_sales nargsort "BRAND" df) as [brand_sales|];
    [|discriminate].
  destruct (ranked_sales nargsort "CSD Flavor Segment" df) as [flavor_sales|];
    [|discriminate].
  destruct (ranked_sales nargsort "PACK TYPE" df) as [pack_type_sales|];
    [|discriminate].
  destruct (ranked_sales nargsort "REG/DIET" df) as [reg_diet_sales|] eqn:Er;
    [|discriminate].
  destruct (head manu_sales) as [manu|]; [|discriminate].
  destruct (head brand_sales) as [brand|]; [|discriminate].
  destruct (head flavor_sales) as [flavor|]; [|discriminate].
  destruct (head pack_type_sales) as [pack_type|]; [|discriminate].
  apply Ok_inj in H. apply (f_equal diet_penetration) in H.
  unfold diet_penetration at 1 in H. rewrite <- H. clear H.
  apply column_sum_total in Ec. subst T.
  rewrite (ranked_sales_get nargsort _ df _ "DIET" Hk Er).
  split; [reflexivity|]. split.
  - intros Hn Ht. rewrite (sales_where_absent _ _ _ Hn).
    rewrite (fdiv_of_Z _ _ Ht). unfold fmul, hundred, of_Z.
    eexists. split; [reflexivity|].
    assert (Hq : ~ inject_Z (total_sales df) == 0).
    { intros C. apply Qeq_bool_iff in C.
      rewrite (inject_Z_nonzero _ Ht) in C. discriminate. }
    field. exact Hq.
  - intros Hs Ht.
    pose proof (sales_where_bounds df "REG/DIET" "DIET" Hs) as [H0 H1].
    rewrite (fdiv_of_Z _ _ (Z.neq_sym _ _ (Z.lt_neq _ _ Ht))).
    unfold fmul, hundred, of_Z. eexists. split; [reflexivity|].
    set (v := sales_where df "REG/DIET" "DIET") in *.
    assert (HT : (0 < inject_Z (total_sales df))%Q)
      by (change 0%Q with (inject_Z 0); rewrite <- Zlt_Qlt; exact Ht).
    assert (HT0 : ~ inject_Z (total_sales df) == 0)
      by (intros C; rewrite C in HT; discriminate).
    assert (E : inject_Z v / inject_Z (total_sales df) * inject_Z 100 ==
                inject_Z (v * 100) / inject_Z (total_sales df))
      by (rewrite inject_Z_mult; field; exact HT0).
    rewrite E. split.
    + apply Qle_shift_div_l; [exact HT|]. rewrite Qmult_0_l.
      change 0%Q with (inject_Z 0). rewrite <- Zle_Qle. lia.
    + apply Qle_shift_div_r; [exact HT|].
      change 100%Q with (inject_Z 100).
      rewrite <- inject_Z_mult, <- Zle_Qle. lia.
Qed.

Lemma diet_penetration_is_the_DIET_share_witness :
  exists r q,
    product_performance_analysis stable_argsort colas = Ok r /\
    sales_where colas "REG/DIET" "DIET" = 30 /\
    total_sales colas = 100 /\
    diet_penetration r = Fin q /\ (0 <= q)%Q /\ (q <= 100)%Q.
Proof.
  destruct (product_performance_analysis stable_argsort colas) as [r|] eqn:E;
    [|vm_compute in E; discriminate E].
  destruct (diet_penetration_is_the_DIET_share stable_argsort colas r
              (insertion_argsort_spec true) E) as [_ [_ H]].
  destruct H as [q [H1 [H2 H3]]].
  - intros x [<-|[<-|[<-|[]]]]; vm_compute; discriminate.
  - reflexivity.
  - exists r, q. split; [reflexivity|]. split; [reflexivity|].
    split; [reflexivity|]. split; [exact H1|]. split; [exact H2 | exact H3].
Defined.
(** ** The peak and the low month *)







(** ** The quartiles of the market sizes *)

Lemma insert_ascending_perm x l : Permutation (insert_ascending x l) (x :: l).
Proof.
  induction l as [|y l IH]; simpl; [reflexivity|].
  destruct (x <=? y); [reflexivity|]. rewrite IH. apply perm_swap.
Qed.

Lemma sort_ascending_perm l : Permutation (sort_ascending l) l.
Proof.
  induction l as [|x l IH]; simpl; [reflexivity|].
  rewrite insert_ascending_perm. constructor. exact IH.
Qed.

Lemma insert_ascending_sorted x l :
  StronglySorted Z.le l -> StronglySorted Z.le (insert_ascending x l).
Proof.
  induction 1 as [|y t S IH F]; simpl.
  - constructor; constructor.
  - destruct (x <=? y) eqn:E.
    + apply Z.leb_le in E. constructor; [constructor; assumption|].
      constructor; [exact E|]. eapply Forall_impl; [|exact F].
      intros z Hz. lia.
    + apply Z.leb_gt in E. constructor; [exact IH|].
      eapply Permutation_Forall; [symmetry; apply insert_ascending_perm|].
      constructor; [lia | exact F].
Qed.

Lemma sort_ascending_sorted l : StronglySorted Z.le (sort_ascending l).
Proof.
  induction l as [|x l IH]; simpl; [constructor|].
  apply insert_ascending_sorted, IH.
Qed.

Lemma sorted_nth l : StronglySorted Z.le l ->
  forall i j, (i <= j)%nat -> (j < length l)%nat -> nth i l 0 <= nth j l 0.
Proof.
  induction 1 as [|y t S IH F]; intros i j Hij Hj; [simpl in Hj; lia|].
  destruct i as [|i], j as [|j]; try lia.
  - cbn [nth]. rewrite Forall_forall in F. apply F, nth_In.
    simpl in Hj. lia.
  - cbn [nth]. apply IH; simpl in Hj; lia.
Qed.

(** The position that a quantile reads. *)
Lemma quantile_position (n : nat) (q : Q) :
  (0 <= q)%Q -> (q <= 1)%Q ->
  0 <= Qfloor (inject_Z (Z.of_nat n) * q) <= Z.of_nat n.
Proof.
  intros H0 H1. split.
  - change 0 with (Qfloor 0). apply Qfloor_resp_le.
    apply Qmult_le_0_compat; [|exact H0].
    change 0%Q with (inject_Z 0). rewrite <- Zle_Qle. lia.
  - rewrite <- (Qfloor_Z (Z.of_nat n)) at 2. apply Qfloor_resp_le.
    apply Qle_trans with (1 * inject_Z (Z.of_nat n))%Q.
    + rewrite Qmult_comm. apply Qmult_le_compat_r; [exact H1|].
      change 0%Q with (inject_Z 0). rewrite <- Zle_Qle. lia.
    + rewrite Qmult_1_l. apply Qle_refl.
Qed.

(** A quantile lies between the neighbours of its position, and so below
    the largest value. *)
Lemma quantile_at_most sorted q M :
  StronglySorted Z.le sorted -> sorted <> [] ->
  Forall (fun v => v <= M) sorted ->
  (0 <= q)%Q -> (q <= 1)%Q ->
  (quantile sorted q <= inject_Z M)%Q.
Proof.
  intros S Hne HM H0 H1. unfold quantile.
  set (n := (length sorted - 1)%nat).
  assert (Hlen : length sorted = Datatypes.S n).
  { subst n. destruct sorted; [congruence | simpl; lia]. }
  set (h := (inject_Z (Z.of_nat n) * q)%Q).
  pose proof (quantile_position n q H0 H1) as Hpos. fold h in Hpos.
  set (lower := Z.to_nat (Qfloor h)).
  assert (Hlow : (lower <= n)%nat) by (subst lower; lia).
  set (a := nth lower sorted 0).
  set (b := nth (Datatypes.S lower) sorted a).
  assert (Hab : a <= b /\ b <= M).
  { subst a b. destruct (Nat.eq_dec lower n) as [E|E].
    - rewrite (nth_overflow sorted (nth lower sorted 0)) by lia.
      split; [lia|]. rewrite Forall_forall in HM. apply HM, nth_In. lia.
    - rewrite (nth_indep sorted (nth lower sorted 0) 0) by lia. split.
      + apply sorted_nth; [exact S | lia | lia].
      + rewrite Forall_forall in HM. apply HM, nth_In. lia. }
  destruct Hab as [Hab HbM].
  assert (Hf0 : (0 <= h - inject_Z (Qfloor h))%Q).
  { apply (proj1 (Qle_minus_iff _ _)). apply Qfloor_le. }
  assert (Hf1 : (h - inject_Z (Qfloor h) <= 1)%Q).
  { apply Qlt_le_weak. pose proof (Qlt_floor h) as L.
    rewrite inject_Z_plus in L.
    apply Qplus_lt_l with (z := inject_Z (Qfloor h)).
    setoid_replace (h - inject_Z (Qfloor h) + inject_Z (Qfloor h))%Q
      with h by ring.
    rewrite Qplus_comm. exact L. }
  apply Qle_trans with (inject_Z b); [|rewrite <- Zle_Qle; exact HbM].
  setoid_replace (inject_Z b) with (inject_Z a + inject_Z (b - a) * 1)%Q
    by (unfold Z.sub; rewrite inject_Z_plus, inject_Z_opp; ring).
  apply Qplus_le_r.
  rewrite (Qmult_comm _ (h - _)), (Qmult_comm _ 1).
  apply Qmult_le_compat_r; [exact Hf1|].
  change 0%Q with (inject_Z 0). rewrite <- Zle_Qle. lia.
Qed.

Lemma quantile_lowest sorted : quantile sorted 0 == inject_Z (nth 0 sorted 0).
Proof.
  unfold quantile.
  assert (E : inject_Z (Z.of_nat (length sorted - 1)) * 0 == 0) by ring.
  rewrite (Qfloor_comp _ _ E). change (Qfloor 0) with 0.
  cbn [Z.to_nat]. rewrite E. ring.
Qed.

Lemma quantile_highest sorted :
  quantile sorted 1 == inject_Z (nth (length sorted - 1) sorted 0).
Proof.
  unfold quantile.
  assert (E : inject_Z (Z.of_nat (length sorted - 1)) * 1 ==
              inject_Z (Z.of_nat (length sorted - 1))) by ring.
  rewrite (Qfloor_comp _ _ E), Qfloor_Z, Nat2Z.id. rewrite E. ring.
Qed.

Lemma quantile_constant sorted c q :
  sorted <> [] -> Forall (fun v => v = c) sorted ->
  (0 <= q)%Q -> (q <= 1)%Q ->
  quantile sorted q == inject_Z c.
Proof.
  intros Hne Hc H0 H1. unfold quantile.
  set (n := (length sorted - 1)%nat).
  assert (Hlen : length sorted = Datatypes.S n).
  { subst n. destruct sorted; [congruence | simpl; lia]. }
  set (h := (inject_Z (Z.of_nat n) * q)%Q).
  pose proof (quantile_position n q H0 H1) as Hpos. fold h in Hpos.
  set (lower := Z.to_nat (Qfloor h)).
  assert (Hlow : (lower <= n)%nat) by (subst lower; lia).
  rewrite Forall_forall in Hc.
  assert (Ea : nth lower sorted 0 = c) by (apply Hc, nth_In; lia).
  assert (Eb : nth (Datatypes.S lower) sorted (nth lower sorted 0) = c).
  { destruct (Nat.eq_dec lower n) as [E|E].
    - rewrite nth_overflow by lia. exact Ea.
    - apply Hc, nth_In. lia. }
  rewrite Eb, Ea, Z.sub_diag. ring.
Qed.

(** ** The bin of a value *)

Lemma searchsorted_monotone bins x y :
  (x <= y)%Q -> (searchsorted_left bins x <= searchsorted_left bins y)%nat.
Proof.
  intros Hxy. induction bins as [|b t IH]; cbn [searchsorted_left]; [lia|].
  destruct (Qle_bool x b) eqn:Ex; [lia|].
  destruct (Qle_bool y b) eqn:Ey; [|lia].
  apply Qle_bool_iff in Ey.
  assert (C : Qle_bool x b = true)
    by (apply Qle_bool_iff; eapply Qle_trans; eassumption).
  congruence.
Qed.

Lemma searchsorted_below_length bins x :
  (exists b, In b bins /\ (x <= b)%Q) ->
  (searchsorted_left bins x < length bins)%nat.
Proof.
  induction bins as [|b t IH]; intros [e [Hin Hle]]; [destruct Hin|].
  cbn [searchsorted_left length]. destruct (Qle_bool x b) eqn:E; [lia|].
  destruct Hin as [->|Hin].
  - apply Qle_bool_iff in Hle. congruence.
  - assert (searchsorted_left t x < length t)%nat by (apply IH; eauto). lia.
Qed.

Lemma searchsorted_past front e x :
  Forall (fun b => (b < x)%Q) front ->
  (x <= e)%Q ->
  searchsorted_left (front ++ [e]) x = length front.
Proof.
  induction 1 as [|b t Hb F IH]; intros He; cbn [app searchsorted_left length].
  - apply Qle_bool_iff in He. rewrite He. reflexivity.
  - destruct (Qle_bool x b) eqn:E.
    + apply Qle_bool_iff in E. exfalso. apply (Qlt_not_le _ _ Hb E).
    + rewrite (IH He). reflexivity.
Qed.

(** With at least two edges, from the smallest value up to the largest,
    a value between them falls into one of the bins. *)
Lemma bin_of_inside e0 e1 rest x :
  (e0 <= x)%Q -> (exists b, In b (e0 :: e1 :: rest) /\ (x <= b)%Q) ->
  (1 <= bin_of (e0 :: e1 :: rest) x < length (e0 :: e1 :: rest))%nat.
Proof.
  intros H0 Hb. unfold bin_of. cbn [hd].
  destruct (Qeq_bool x e0) eqn:E; [cbn [length]; lia|].
  split; [|apply searchsorted_below_length, Hb].
  cbn [searchsorted_left]. destruct (Qle_bool x e0) eqn:L; [|lia].
  apply Qle_bool_iff in L. apply Qeq_bool_neq in E. exfalso. apply E.
  apply Qle_antisym; assumption.
Qed.

Lemma bin_of_monotone e0 e1 rest x y :
  (e0 <= x)%Q -> (x <= y)%Q ->
  (exists b, In b (e0 :: e1 :: rest) /\ (y <= b)%Q) ->
  (bin_of (e0 :: e1 :: rest) x <= bin_of (e0 :: e1 :: rest) y)%nat.
Proof.
  intros H0 Hxy Hb.
  assert (Hy : (1 <= bin_of (e0 :: e1 :: rest) y)%nat).
  { apply bin_of_inside; [eapply Qle_trans; eassumption | exact Hb]. }
  unfold bin_of in *. cbn [hd] in *.
  destruct (Qeq_bool x e0) eqn:Ex; [exact Hy|].
  destruct (Qeq_bool y e0) eqn:Ey.
  - apply Qeq_bool_iff in Ey. apply Qeq_bool_neq in Ex. exfalso. apply Ex.
    apply Qle_antisym; [rewrite <- Ey; exact Hxy | exact H0].
  - apply searchsorted_monotone, Hxy.
Qed.

(** The largest value is in the last bin, the smallest in the first. *)
Lemma bin_of_largest front e0 e x :
  Forall (fun b => (b <= x)%Q) (e0 :: front) ->
  has_duplicate ((e0 :: front) ++ [e]) = false ->
  x == e ->
  bin_of ((e0 :: front) ++ [e]) x = length (e0 :: front).
Proof.
  intros Hle Hd He. unfold bin_of. cbn [app hd].
  assert (Hlt : Forall (fun b => (b < x)%Q) (e0 :: front)).
  { apply Forall_forall. intros b Hb.
    rewrite Forall_forall in Hle. specialize (Hle b Hb).
    apply Qle_lt_or_eq in Hle. destruct Hle as [L|E]; [exact L|].
    exfalso. clear -Hb Hd He E.
    assert (Eb : Qeq_bool b e = true)
      by (apply Qeq_bool_iff; rewrite E; exact He).
    revert Hb Hd. generalize (e0 :: front). intros l.
    induction l as [|c l IH]; intros Hb Hd; [destruct Hb|].
    cbn [app has_duplicate] in Hd. apply orb_false_iff in Hd.
    destruct Hd as [Hd1 Hd2]. destruct Hb as [->|Hb].
    - rewrite existsb_app in Hd1. apply orb_false_iff in Hd1.
      destruct Hd1 as [_ Hd1]. cbn [existsb] in Hd1.
      rewrite Eb in Hd1. discriminate.
    - apply IH; assumption. }
  destruct (Qeq_bool x e0) eqn:E.
  - apply Qeq_bool_iff in E. inversion Hlt as [|? ? H0 _]. subst.
    rewrite E in H0. exfalso. apply (Qlt_irrefl _ H0).
  - change (e0 :: front ++ [e]) with ((e0 :: front) ++ [e]).
    apply searchsorted_past; [exact Hlt|]. rewrite He. apply Qle_refl.
Qed.

Lemma bin_of_smallest e0 rest x : x == e0 -> bin_of (e0 :: rest) x = 1%nat.
Proof.
  intros E. unfold bin_of. cbn [hd]. apply Qeq_bool_iff in E.
  rewrite E. reflexivity.
Qed.

(** ** The market tiers *)

Lemma tier_number_of_bin ids :
  (1 <= ids < 5)%nat ->
  tier_number (Str (nth (ids - 1) tier_labels "")) = 5 - Z.of_nat ids.
Proof.
  intros H. destruct ids as [|[|[|[|[|ids]]]]]; try lia; reflexivity.
Qed.

Lemma In_nth_sorted (l : list Z) v :
  In v l -> exists i, (i < length l)%nat /\ nth i l 0 = v.
Proof. intros H. apply (In_nth l v 0 H). Qed.

(** What [pd.qcut] makes of a series whose quartiles are distinct. *)
Lemma qcut_bins (x : Series string) tiers :
  qcut x tier_labels = Ok tiers ->
  exists bins lowest highest,
    has_duplicate bins = false /\
    tiers = map (fun kv => (fst kv,
                            Str (nth (bin_of bins (inject_Z (snd kv)) - 1)
                                     tier_labels ""))) x /\
    In lowest (map snd x) /\ In highest (map snd x) /\
    (forall kv, In kv x ->
       lowest <= snd kv <= highest /\
       (1 <= bin_of bins (inject_Z (snd kv)) < 5)%nat) /\
    (forall kv kv', In kv x -> In kv' x -> snd kv <= snd kv' ->
       (bin_of bins (inject_Z (snd kv)) <= bin_of bins (inject_Z (snd kv')))%nat) /\
    bin_of bins (inject_Z lowest) = 1%nat /\
    bin_of bins (inject_Z highest) = 4%nat.
Proof.
  unfold qcut. destruct x as [|kv0 x0]; [discriminate|].
  set (x := kv0 :: x0). set (sorted := sort_ascending (map snd x)).
  cbn [map quartiles].
  set (e0 := quantile sorted 0). set (e1 := quantile sorted (1 # 4)).
  set (e2 := quantile sorted (1 # 2)). set (e3 := quantile sorted (3 # 4)).
  set (e4 := quantile sorted 1).
  destruct (has_duplicate [e0; e1; e2; e3; e4]) eqn:Hd; [discriminate|].
  intros H. apply Ok_inj in H.
  pose proof (sort_ascending_perm (map snd x)) as P. fold sorted in P.
  pose proof (sort_ascending_sorted (map snd x)) as S. fold sorted in S.
  assert (Hlen : length sorted = Datatypes.S (length x0)).
  { rewrite (Permutation_length P). subst x. simpl. rewrite length_map.
    reflexivity. }
  assert (Hne : sorted <> []) by (intros C; rewrite C in Hlen; discriminate).
  set (lowest := nth 0 sorted 0).
  set (highest := nth (length sorted - 1) sorted 0).
  assert (Hin : forall i, (i < length sorted)%nat ->
                  In (nth i sorted 0) (map snd x)).
  { intros i Hi. apply (Permutation_in _ P). apply nth_In, Hi. }
  assert (Hrange : forall v, In v (map snd x) -> lowest <= v <= highest).
  { intros v Hv. apply (Permutation_in _ (Permutation_sym P)) in Hv.
    destruct (In_nth_sorted sorted v Hv) as [i [Hi <-]].
    split; apply sorted_nth; try exact S; lia. }
  assert (HM : Forall (fun v => v <= highest) sorted).
  { apply Forall_forall. intros v Hv. apply Hrange.
    apply (Permutation_in _ P), Hv. }
  assert (E0 : e0 == inject_Z lowest) by apply quantile_lowest.
  assert (E4 : e4 == inject_Z highest) by apply quantile_highest.
  assert (Hedge : forall q, (0 <= q)%Q -> (q <= 1)%Q ->
                    (quantile sorted q <= inject_Z highest)%Q).
  { intros q H0 H1. apply quantile_at_most; assumption. }
  assert (Hx : forall v, In v (map snd x) ->
                 (e0 <= inject_Z v)%Q /\
                 exists b, In b [e0; e1; e2; e3; e4] /\ (inject_Z v <= b)%Q).
  { intros v Hv. destruct (Hrange v Hv) as [Hl Hh]. split.
    - rewrite E0, <- Zle_Qle. exact Hl.
    - exists e4. split; [simpl; tauto|]. rewrite E4, <- Zle_Qle. exact Hh. }
  exists [e0; e1; e2; e3; e4], lowest, highest.
  split; [exact Hd|]. split.
  { rewrite <- H. apply map_ext_in. intros kv Hkv.
    destruct (Hx (snd kv) (in_map snd _ _ Hkv)) as [H0 Hb].
    pose proof (bin_of_inside e0 e1 [e2; e3; e4] _ H0 Hb) as Hbin.
    cbn [length] in Hbin.
    destruct (bin_of [e0; e1; e2; e3; e4] (inject_Z (snd kv)))
      as [|[|[|[|[|n]]]]]; try lia; reflexivity. }
  split; [apply Hin; lia|]. split; [apply Hin; lia|]. split.
  { intros kv Hkv. split; [apply Hrange, in_map, Hkv|].
    destruct (Hx (snd kv) (in_map snd _ _ Hkv)) as [H0 Hb].
    apply (bin_of_inside e0 e1 [e2; e3; e4] _ H0 Hb). }
  split.
  { intros kv kv' Hkv Hkv' Hle.
    destruct (Hx (snd kv) (in_map snd _ _ Hkv)) as [H0 _].
    destruct (Hx (snd kv') (in_map snd _ _ Hkv')) as [_ Hb].
    apply (bin_of_monotone e0 e1 [e2; e3; e4]); [exact H0 | | exact Hb].
    rewrite <- Zle_Qle. exact Hle. }
  split.
  - apply bin_of_smallest. symmetry. exact E0.
  - apply (bin_of_largest [e1; e2; e3] e0 e4).
    + repeat constructor.
      * rewrite E0, <- Zle_Qle. apply Hrange, Hin. lia.
      * apply Hedge; discriminate.
      * apply Hedge; discriminate.
      * apply Hedge; discriminate.
    + exact Hd.
    + symmetry. exact E4.
Qed.

Lemma equal_edges_are_duplicates sorted c :
  sorted <> [] -> Forall (fun v => v = c) sorted ->
  has_duplicate (map (quantile sorted) quartiles) = true.
Proof.
  intros Hne Hc. cbn [map quartiles has_duplicate existsb].
  assert (E : Qeq_bool (quantile sorted 0) (quantile sorted (1 # 4)) = true).
  { apply Qeq_bool_iff.
    rewrite (quantile_constant sorted c 0 Hne Hc) by discriminate.
    rewrite (quantile_constant sorted c (1 # 4) Hne Hc) by discriminate.
    reflexivity. }
  rewrite E. reflexivity.
Qed.

(** X16: the market tiers of [create_derived_features] need distinct
    quartiles. When all markets of the table sell the same (a table of
    one market, for one, or of none), [pd.qcut] raises ValueError, which
    nothing catches. *)
Theorem market_tiers_need_distinct_sales (nargsort : sorter) (df : DataFrame) :
  nargsort_spec nargsort ->
  In "MARKET" (columns df) -> In "Sales" (columns df) ->
  (forall x y a b, In x (rows df) -> In y (rows df) ->
     field df "MARKET" x = Str a -> field df "MARKET" y = Str b ->
     sales_where df "MARKET" a = sales_where df "MARKET" b) ->
  market_tiers nargsort df = Raise (ValueError "Bin edges must be unique") /\
  market_tier_column nargsort df =
    Raise (ValueError "Bin edges must be unique").
Proof.
  intros Hk Hm Hs Hsame.
  assert (H : market_tiers nargsort df =
              Raise (ValueError "Bin edges must be unique")).
  { unfold market_tiers.
    destruct (groupby_str_sum "MARKET" "Sales" df) as [by_market|] eqn:Eg.
    2:{ unfold groupby_str_sum in Eg.
        destruct (index_of_In _ _ Hm) as [i Ei].
        destruct (index_of_In _ _ Hs) as [j Ej].
        rewrite Ei, Ej in Eg. discriminate. }
    pose proof (series_sort_perm nargsort "" false by_market Hk) as P.
    destruct (groupby_str_sum_keys _ _ _ _ Eg) as [_ Hkeys].
    remember (series_sort_values nargsort "" false by_market) as S eqn:ES.
    destruct S as [|kv0 S0]; [reflexivity|]. clear ES.
    assert (Hall : Forall (fun v => v = snd kv0) (map snd (kv0 :: S0))).
    { apply Forall_forall. intros v Hv. apply in_map_iff in Hv.
      destruct Hv as [[k v'] [<- Hin]]. cbn [snd].
      assert (H0 : In kv0 by_market).
      { apply (Permutation_in _ P). left. reflexivity. }
      apply (Permutation_in _ P) in Hin.
      destruct kv0 as [k0 v0]. cbn [snd].
      rewrite (groupby_str_sum_value _ _ _ _ _ Eg Hin).
      rewrite (groupby_str_sum_value _ _ _ _ _ Eg H0).
      destruct (proj1 (Hkeys k)) as [x [Hx Ex]];
        [apply in_map_iff; exists (k, v'); split; [reflexivity | exact Hin]|].
      destruct (proj1 (Hkeys k0)) as [y [Hy Ey]];
        [apply in_map_iff; exists (k0, v0); split; [reflexivity | exact H0]|].
      apply (Hsame x y k k0 Hx Hy Ex Ey). }
    unfold qcut.
    rewrite (equal_edges_are_duplicates
               (sort_ascending (map snd (kv0 :: S0))) (snd kv0)).
    - reflexivity.
    - intros C. pose proof (sort_ascending_perm (map snd (kv0 :: S0))) as PS.
      rewrite C in PS. apply Permutation_nil in PS. discriminate.
    - eapply Permutation_Forall; [|exact Hall].
      symmetry. apply sort_ascending_perm. }
  split; [exact H|]. unfold market_tier_column. rewrite H. reflexivity.
Qed.

Lemma market_tiers_need_distinct_sales_witness :
  market_tiers stable_argsort (market_table [("A", 5); ("A", 7)]) =
    Raise (ValueError "Bin edges must be unique") /\
  market_tiers stable_argsort (market_table [("A", 5); ("B", 5); ("C", 5)]) =
    Raise (ValueError "Bin edges must be unique").
Proof.
  split.
  - apply (market_tiers_need_distinct_sales stable_argsort
             (market_table [("A", 5); ("A", 7)])
             (insertion_argsort_spec true)).
    + left. reflexivity.
    + right. left. reflexivity.
    + intros x y a b [<-|[<-|[]]] [<-|[<-|[]]] Ea Eb;
        inversion Ea; inversion Eb; reflexivity.
  - apply (market_tiers_need_distinct_sales stable_argsort
             (market_table [("A", 5); ("B", 5); ("C", 5)])
             (insertion_argsort_spec true)).
    + left. reflexivity.
    + right. left. reflexivity.
    + intros x y a b [<-|[<-|[<-|[]]]] [<-|[<-|[<-|[]]]] Ea Eb;
        inversion Ea; inversion Eb; reflexivity.
Defined.

Lemma series_map_In (tiers : list (string * cell)) m t :
  NoDup (map fst tiers) -> In (m, t) tiers -> series_map tiers (Str m) = t.
Proof.
  unfold series_map. induction tiers as [|[k0 v0] s IH]; intros N Hin;
    [destruct Hin|].
  inversion N as [|? ? Hn N']. subst. cbn [find fst].
  destruct (String.eqb k0 m) eqn:E.
  - apply String.eqb_eq in E. subst k0. destruct Hin as [Hin|Hin].
    + inversion Hin. reflexivity.
    + exfalso. apply Hn. apply in_map_iff. exists (m, t).
      split; [reflexivity | exact Hin].
  - destruct Hin as [Hin|Hin].
    + inversion Hin. subst. rewrite String.eqb_refl in E. discriminate.
    + apply IH; assumption.
Qed.

Lemma Forall2_with_map {A B : Type} (P : A -> B -> Prop) (f : A -> B) l :
  (forall x, In x l -> P x (f x)) -> Forall2 P l (map f l).
Proof.
  induction l as [|a l IH]; intros H; [constructor|].
  cbn [map]. constructor; [apply H; left; reflexivity|].
  apply IH. intros x Hx. apply H. right. exact Hx.
Qed.

(** X17: when [pd.qcut] succeeds, the market tiers follow the sales.
    Every market of the table gets one of the four tiers; a market that
    sells no less than another is in no lower a tier; the markets that
    sell the most are in Tier 1 and those that sell the least in Tier 4;
    and the new column gives every record the tier of its market, a
    record without a market a missing value. *)
Theorem market_tiers_follow_sales (nargsort : sorter) (df : DataFrame)
  (tiers : list (string * cell)) :
  nargsort_spec nargsort ->
  market_tiers nargsort df = Ok tiers ->
  NoDup (map fst tiers) /\
  (forall m, In m (map fst tiers) <->
             exists x, In x (rows df) /\ field df "MARKET" x = Str m) /\
  (forall m t, In (m, t) tiers -> 1 <= tier_number t <= 4) /\
  (forall m t m' t', In (m, t) tiers -> In (m', t') tiers ->
     sales_where df "MARKET" m <= sales_where df "MARKET" m' ->
     tier_number t' <= tier_number t) /\
  (forall m t, In (m, t) tiers ->
     (forall m', In m' (map fst tiers) ->
        sales_where df "MARKET" m' <= sales_where df "MARKET" m) ->
     t = Str "Tier 1") /\
  (forall m t, In (m, t) tiers ->
     (forall m', In m' (map fst tiers) ->
        sales_where df "MARKET" m <= sales_where df "MARKET" m') ->
     t = Str "Tier 4") /\
  exists column,
    market_tier_column nargsort df = Ok column /\
    Forall2 (fun x c =>
               (forall m, field df "MARKET" x = Str m -> In (m, c) tiers) /\
               ((forall m, field df "MARKET" x <> Str m) -> c = NaN))
            (rows df) column.
Proof.
  intros Hk H. pose proof H as Hmt. unfold market_tiers in H.
  destruct (groupby_str_sum "MARKET" "Sales" df) as [by_market|] eqn:Eg;
    [|discriminate].
  pose proof (series_sort_perm nargsort "" false by_market Hk) as P.
  destruct (groupby_str_sum_keys _ _ _ _ Eg) as [Hnd Hkeys].
  set (S := series_sort_values nargsort "" false by_market) in *.
  destruct (qcut_bins S tiers H)
    as [bins [lowest [highest [Hd [Et [Hlo [Hhi [Hin [Hmono [Hb1 Hb4]]]]]]]]]].
  assert (Hval : forall kv, In kv S -> snd kv = sales_where df "MARKET" (fst kv)).
  { intros [k v] Hkv. apply (Permutation_in _ P) in Hkv.
    apply (groupby_str_sum_value _ _ _ _ _ Eg Hkv). }
  assert (Hfst : map fst tiers = map fst S).
  { rewrite Et, map_map. reflexivity. }
  assert (Hentry : forall m t, In (m, t) tiers ->
            exists kv, In kv S /\ fst kv = m /\
              t = Str (nth (bin_of bins (inject_Z (snd kv)) - 1) tier_labels "")).
  { intros m t Hmt'. rewrite Et in Hmt'. apply in_map_iff in Hmt'.
    destruct Hmt' as [kv [E Hkv]]. inversion E. exists kv. auto. }
  assert (N : NoDup (map fst tiers)).
  { rewrite Hfst. eapply Permutation_NoDup; [|exact Hnd].
    apply Permutation_map, Permutation_sym, P. }
  assert (Hmarkets : forall m, In m (map fst tiers) <->
            exists x, In x (rows df) /\ field df "MARKET" x = Str m).
  { intros m. rewrite Hfst, <- Hkeys. split; apply Permutation_in.
    - apply Permutation_map, P.
    - apply Permutation_map, Permutation_sym, P. }
  split; [exact N|]. split; [exact Hmarkets|]. split; [|split; [|split; [|split]]].
  - intros m t Hmt'. destruct (Hentry m t Hmt') as [kv [Hkv [_ ->]]].
    destruct (Hin kv Hkv) as [_ Hbin].
    rewrite (tier_number_of_bin _ Hbin). lia.
  - intros m t m' t' H1 H2 Hle.
    destruct (Hentry m t H1) as [kv [Hkv [Ek ->]]].
    destruct (Hentry m' t' H2) as [kv' [Hkv' [Ek' ->]]].
    destruct (Hin kv Hkv) as [_ Hbin]. destruct (Hin kv' Hkv') as [_ Hbin'].
    rewrite (tier_number_of_bin _ Hbin), (tier_number_of_bin _ Hbin').
    assert (Hs : snd kv <= snd kv').
    { rewrite (Hval kv Hkv), (Hval kv' Hkv'), Ek, Ek'. exact Hle. }
    pose proof (Hmono kv kv' Hkv Hkv' Hs). lia.
  - intros m t H1 Hmax. destruct (Hentry m t H1) as [kv [Hkv [Ek ->]]].
    assert (E : snd kv = highest).
    { apply Z.le_antisymm; [apply (Hin kv Hkv)|].
      apply in_map_iff in Hhi. destruct Hhi as [kv' [<- Hkv']].
      rewrite (Hval kv Hkv), (Hval kv' Hkv'), Ek. apply Hmax.
      rewrite Hfst. apply in_map, Hkv'. }
    rewrite E, Hb4. reflexivity.
  - intros m t H1 Hmin. destruct (Hentry m t H1) as [kv [Hkv [Ek ->]]].
    assert (E : snd kv = lowest).
    { apply Z.le_antisymm; [|apply (Hin kv Hkv)].
      apply in_map_iff in Hlo. destruct Hlo as [kv' [<- Hkv']].
      rewrite (Hval kv Hkv), (Hval kv' Hkv'), Ek. apply Hmin.
      rewrite Hfst. apply in_map, Hkv'. }
    rewrite E, Hb1. reflexivity.
  - unfold market_tier_column. rewrite Hmt. unfold get_column.
    unfold groupby_str_sum in Eg. unfold field in *.
    destruct (Str.index_of "MARKET" (columns df)) as [i|]; [|discriminate].
    eexists. split; [reflexivity|]. rewrite map_map.
    apply Forall2_with_map. intros x Hx. split.
    + intros m Em. rewrite Em.
      assert (Hm : In m (map fst tiers)).
      { apply Hmarkets. exists x. split; [exact Hx | exact Em]. }
      apply in_map_iff in Hm. destruct Hm as [[m' t] [Em' Hmt']].
      cbn [fst] in Em'. subst m'.
      rewrite (series_map_In tiers m t N Hmt'). exact Hmt'.
    + intros Hn. destruct (cell_at i x) as [s| | |]; try reflexivity.
      exfalso. apply (Hn s). reflexivity.
Qed.

Lemma market_tiers_follow_sales_witness :
  exists tiers,
    market_tiers stable_argsort five_markets = Ok tiers /\
    map fst tiers = ["E"; "D"; "C"; "B"; "A"] /\
    NoDup (map fst tiers) /\
    (forall m t, In (m, t) tiers -> 1 <= tier_number t <= 4).
Proof.
  destruct (market_tiers stable_argsort five_markets) as [tiers|] eqn:E;
    [|vm_compute in E; discriminate E].
  destruct (market_tiers_follow_sales stable_argsort five_markets tiers
              (insertion_argsort_spec true) E) as [H1 [_ [H2 _]]].
  exists tiers. split; [reflexivity|]. split; [|split; [exact H1 | exact H2]].
  assert (El : option_map (map fst)
                 (match market_tiers stable_argsort five_markets with
                  | Ok t => Some t | Raise _ => None end) =
               Some ["E"; "D"; "C"; "B"; "A"]) by (vm_compute; reflexivity).
  rewrite E in El. inversion El. reflexivity.
Defined.

(** ** Groups by two keys *)

Section PairCompare.
Context {A B : Type}.
Variable ca : A -> A -> comparison.
Variable cb : B -> B -> comparison.
Hypothesis ca_eq : forall a b, ca a b = Eq <-> a = b.
Hypothesis ca_gt : forall a b, ca a b = Gt -> ca b a = Lt.
Hypothesis ca_lt_trans :
  forall a b c, ca a b = Lt -> ca b c = Lt -> ca a c = Lt.
Hypothesis cb_eq : forall a b, cb a b = Eq <-> a = b.
Hypothesis cb_gt : forall a b, cb a b = Gt -> cb b a = Lt.
Hypothesis cb_lt_trans :
  forall a b c, cb a b = Lt -> cb b c = Lt -> cb a c = Lt.

Lemma pair_compare_eq x y : pair_compare ca cb x y = Eq <-> x = y.
Proof.
  unfold pair_compare. destruct x as [a b], y as [a' b']. cbn [fst snd].
  split.
  - destruct (ca a a') eqn:E; try discriminate.
    intros H. apply ca_eq in E. apply cb_eq in H. congruence.
  - intros H. inversion H. subst.
    assert (E : ca a' a' = Eq) by (apply ca_eq; reflexivity).
    rewrite E. apply cb_eq. reflexivity.
Qed.

Lemma pair_compare_gt x y :
  pair_compare ca cb x y = Gt -> pair_compare ca cb y x = Lt.
Proof.
  unfold pair_compare. destruct x as [a b], y as [a' b']. cbn [fst snd].
  destruct (ca a a') eqn:E; try discriminate.
  - intros H. apply ca_eq in E. subst a'.
    assert (E : ca a a = Eq) by (apply ca_eq; reflexivity).
    rewrite E. apply cb_gt, H.
  - intros _. rewrite (ca_gt _ _ E). reflexivity.
Qed.

Lemma pair_compare_lt_trans x y z :
  pair_compare ca cb x y = Lt -> pair_compare ca cb y z = Lt ->
  pair_compare ca cb x z = Lt.
Proof.
  unfold pair_compare. destruct x as [a b], y as [a' b'], z as [a'' b''].
  cbn [fst snd].
  destruct (ca a a') eqn:E1; try discriminate;
    destruct (ca a' a'') eqn:E2; try discriminate; intros H1 H2.
  - apply ca_eq in E1, E2. subst.
    assert (E : ca a'' a'' = Eq) by (apply ca_eq; reflexivity).
    rewrite E. eapply cb_lt_trans; eassumption.
  - apply ca_eq in E1. subst. rewrite E2. reflexivity.
  - apply ca_eq in E2. subst. rewrite E1. reflexivity.
  - rewrite (ca_lt_trans _ _ _ E1 E2). reflexivity.
Qed.

End PairCompare.

Lemma Z_compare_gt a b : Z.compare a b = Gt -> Z.compare b a = Lt.
Proof. intros H. apply Z.compare_gt_iff in H. apply Z.compare_lt_iff. lia. Qed.

Lemma Z_compare_lt_trans a b c :
  Z.compare a b = Lt -> Z.compare b c = Lt -> Z.compare a c = Lt.
Proof. rewrite !Z.compare_lt_iff. lia. Qed.

(** The groups of [df.groupby([a, b])['Sales'].sum()]: one for each pair
    of labels that occurs, holding the sales of its records. *)
Section PairGroups.
Context {K : Type}.
Variable cmp : K -> K -> comparison.
Variable key : cell -> option K.
Hypothesis cmp_eq : forall a b, cmp a b = Eq <-> a = b.
Hypothesis cmp_gt : forall a b, cmp a b = Gt -> cmp b a = Lt.
Hypothesis cmp_lt_trans :
  forall a b c, cmp a b = Lt -> cmp b c = Lt -> cmp a c = Lt.

Lemma groupby_pair_sum_keys a b df s :
  groupby_pair_sum cmp key a b df = Ok s ->
  NoDup (map fst s) /\
  forall x y, In (x, y) (map fst s) <->
              exists r, In r (rows df) /\ field df a r = Str x /\
                        key (field df b r) = Some y.
Proof.
  unfold groupby_pair_sum, field.
  destruct (Str.index_of a (columns df)) as [i|]; [|discriminate].
  destruct (Str.index_of b (columns df)) as [j|]; [|discriminate].
  destruct (Str.index_of "Sales" (columns df)) as [k|]; [|discriminate].
  intros H. apply Ok_inj in H. subst s. split.
  - apply groupby_sum_NoDup.
    + apply pair_compare_eq; [apply string_compare_eq | exact cmp_eq].
    + apply pair_compare_gt;
        first [apply string_compare_eq | apply string_compare_gt
              | exact cmp_gt].
    + apply pair_compare_lt_trans;
        first [apply string_compare_eq | apply string_compare_lt_trans
              | exact cmp_lt_trans].
  - intros x y.
    rewrite groupby_sum_keys
      by (apply pair_compare_eq; [apply string_compare_eq | exact cmp_eq]).
    split; intros [r [Hr E]]; exists r; (split; [exact Hr|]).
    + destruct (cell_at i r) as [s| | |]; cbn [str_key] in E; try discriminate.
      destruct (key (cell_at j r)) as [y'|]; [|discriminate].
      inversion E. subst. split; reflexivity.
    + destruct E as [E1 E2]. rewrite E1, E2. reflexivity.
Qed.

Lemma groupby_pair_sum_value a b df s x y v :
  groupby_pair_sum cmp key a b df = Ok s ->
  In ((x, y), v) s ->
  v = total (map (fun r => cell_value (field df "Sales" r))
                 (filter (fun r => match str_key (field df a r),
                                         key (field df b r) with
                                   | Some x', Some y' =>
                                       match pair_compare String.compare cmp
                                               (x, y) (x', y') with
                                       | Eq => true
                                       | _ => false
                                       end
                                   | _, _ => false
                                   end)
                         (rows df))).
Proof.
  intros Hg Hin. destruct (groupby_pair_sum_keys _ _ _ _ Hg) as [Hnd _].
  assert (Hpe : forall p q : string * K,
            pair_compare String.compare cmp p q = Eq <-> p = q)
    by (apply pair_compare_eq; [apply string_compare_eq | exact cmp_eq]).
  rewrite <- (only_entry_of_its_key (pair_compare String.compare cmp) Hpe
                s (x, y) v Hnd Hin).
  unfold groupby_pair_sum in Hg. unfold field.
  destruct (Str.index_of a (columns df)) as [i|]; [|discriminate].
  destruct (Str.index_of b (columns df)) as [j|]; [|discriminate].
  destruct (Str.index_of "Sales" (columns df)) as [k|]; [|discriminate].
  apply Ok_inj in Hg. subst s.
  rewrite (groupby_sum_value (pair_compare String.compare cmp) Hpe).
  f_equal. f_equal. apply filter_ext. intros r.
  destruct (str_key (cell_at i r)), (key (cell_at j r)); reflexivity.
Qed.

End PairGroups.

(** ** The pivoted frame *)

Lemma distinct_spec l : forall seen,
  NoDup (distinct seen l) /\
  forall x, In x (distinct seen l) <-> In x l /\ ~ In x seen.
Proof.
  induction l as [|s l IH]; intros seen; cbn [distinct].
  - split; [constructor|]. intros x. simpl. tauto.
  - destruct (existsb (String.eqb s) seen) eqn:E.
    + destruct (IH seen) as [N F]. split; [exact N|]. intros x.
      rewrite F. apply existsb_eqb_In in E. split.
      * intros [H1 H2]. split; [right; exact H1 | exact H2].
      * intros [[<-|H1] H2]; [contradiction | auto].
    + destruct (IH (s :: seen)) as [N F]. split.
      * constructor; [|exact N]. intros C. apply F in C.
        apply (proj2 C). left. reflexivity.
      * intros x. cbn [In]. rewrite F. cbn [In].
        assert (Hs : ~ In s seen).
        { intros C. apply existsb_eqb_In in C. congruence. }
        split.
        -- intros [<-|[H1 H2]]; [auto|]. split; [right; exact H1|].
           intros C. apply H2. right. exact C.
        -- intros [[<-|H1] H2]; [left; reflexivity|].
           destruct (string_dec s x) as [->|Hne]; [left; reflexivity|].
           right. split; [exact H1|]. intros [C|C]; [congruence | contradiction].
Qed.

Section Pivot.
Context {K : Type}.
Variable cmp : K -> K -> comparison.
Variable eqb : K -> K -> bool.
Hypothesis cmp_eq : forall a b, cmp a b = Eq <-> a = b.
Hypothesis eqb_eq : forall a b, eqb a b = true <-> a = b.

Lemma pivot_index_In (s : Series (string * K)) x :
  In x (pivot_index s) <-> exists y, In (x, y) (map fst s).
Proof.
  unfold pivot_index. rewrite (proj2 (distinct_spec _ [])). split.
  - intros [H _]. apply in_map_iff in H. destruct H as [[[x' y] v] [<- Hin]].
    exists y. apply in_map_iff. exists ((x', y), v). split; [reflexivity | exact Hin].
  - intros [y H]. split; [|intros []]. apply in_map_iff in H.
    destruct H as [[k v] [E Hin]]. cbn [fst] in E. subst k.
    apply in_map_iff. exists ((x, y), v). split; [reflexivity | exact Hin].
Qed.

Lemma in_pivot_columns_iff (s : Series (string * K)) y :
  in_pivot_columns eqb s y = true <-> exists x, In (x, y) (map fst s).
Proof.
  unfold in_pivot_columns. rewrite existsb_exists. split.
  - intros [[[x y'] v] [Hin E]]. cbn [fst snd] in E. apply eqb_eq in E. subst y'.
    exists x. apply in_map_iff. exists ((x, y), v). split; [reflexivity | exact Hin].
  - intros [x H]. apply in_map_iff in H. destruct H as [[k v] [E Hin]].
    cbn [fst] in E. subst k. exists ((x, y), v). split; [exact Hin|].
    apply eqb_eq. reflexivity.
Qed.

Lemma pivot_cell_total (s : Series (string * K)) x y :
  NoDup (map fst s) ->
  pivot_cell eqb s x y =
  total (map snd (filter (fun kv =>
                            match pair_compare String.compare cmp (x, y) (fst kv)
                            with Eq => true | _ => false end) s)).
Proof.
  assert (Hpe : forall p q : string * K,
            pair_compare String.compare cmp p q = Eq <-> p = q)
    by (apply pair_compare_eq; [apply string_compare_eq | exact cmp_eq]).
  unfold pivot_cell. induction s as [|[[x0 y0] v0] s IH]; intros N;
    [reflexivity|].
  inversion N as [|? ? Hn N']. subst. cbn [find filter fst snd].
  destruct (pair_compare String.compare cmp (x, y) (x0, y0)) eqn:E.
  - apply Hpe in E. inversion E. subst x0 y0.
    rewrite String.eqb_refl. rewrite (proj2 (eqb_eq y y) eq_refl). cbn [andb snd].
    assert (Hrest : filter (fun kv => match pair_compare String.compare cmp
                                              (x, y) (fst kv)
                                      with Eq => true | _ => false end) s = []).
    { clear -Hn Hpe. induction s as [|[k v] s IHs]; [reflexivity|].
      cbn [filter fst]. destruct (pair_compare String.compare cmp (x, y) k) eqn:E.
      - apply Hpe in E. subst k. exfalso. apply Hn. left. reflexivity.
      - apply IHs. intros C. apply Hn. right. exact C.
      - apply IHs. intros C. apply Hn. right. exact C. }
    rewrite Hrest. unfold total. simpl. lia.
  - assert (Hb : (String.eqb x0 x && eqb y0 y)%bool = false).
    { destruct (String.eqb x0 x && eqb y0 y)%bool eqn:B; [|reflexivity].
      apply andb_prop in B. destruct B as [B1 B2].
      apply String.eqb_eq in B1. apply eqb_eq in B2. subst.
      rewrite (proj2 (Hpe (x, y) (x, y)) eq_refl) in E. discriminate. }
    rewrite Hb. apply IH, N'.
  - assert (Hb : (String.eqb x0 x && eqb y0 y)%bool = false).
    { destruct (String.eqb x0 x && eqb y0 y)%bool eqn:B; [|reflexivity].
      apply andb_prop in B. destruct B as [B1 B2].
      apply String.eqb_eq in B1. apply eqb_eq in B2. subst.
      rewrite (proj2 (Hpe (x, y) (x, y)) eq_refl) in E. discriminate. }
    rewrite Hb. apply IH, N'.
Qed.

Variable key : cell -> option K.
Variable to_cell : K -> cell.
Hypothesis cmp_gt : forall a b, cmp a b = Gt -> cmp b a = Lt.
Hypothesis cmp_lt_trans :
  forall a b c, cmp a b = Lt -> cmp b c = Lt -> cmp a c = Lt.
Hypothesis key_spec : forall c y, key c = Some y <-> c = to_cell y.

(** A cell of the pivoted frame holds the sales of the records of its
    row label and its column label. *)
Lemma pivot_cell_sales b df s x y :
  groupby_pair_sum cmp key "Region" b df = Ok s ->
  pivot_cell eqb s x y = sales_of_pair df b x (to_cell y).
Proof.
  intros Hg.
  destruct (groupby_pair_sum_keys cmp key cmp_eq cmp_gt cmp_lt_trans _ _ _ _ Hg)
    as [Hnd _].
  rewrite (pivot_cell_total s x y Hnd).
  assert (Hpe : forall p q : string * K,
            pair_compare String.compare cmp p q = Eq <-> p = q)
    by (apply pair_compare_eq; [apply string_compare_eq | exact cmp_eq]).
  unfold groupby_pair_sum in Hg. unfold sales_of_pair, field.
  destruct (Str.index_of "Region" (columns df)) as [i|]; [|discriminate].
  destruct (Str.index_of b (columns df)) as [j|]; [|discriminate].
  destruct (Str.index_of "Sales" (columns df)) as [k|]; [|discriminate].
  apply Ok_inj in Hg. subst s.
  rewrite (groupby_sum_value (pair_compare String.compare cmp) Hpe).
  f_equal. f_equal. apply filter_ext. intros r.
  apply Bool.eq_iff_eq_true.
  rewrite andb_true_iff, !cell_eqb_eq, <- key_spec.
  destruct (cell_at i r) as [x'| | |]; cbn [str_key];
    try (split; [discriminate | intros [C _]; discriminate C]).
  destruct (key (cell_at j r)) as [y'|];
    [|split; [discriminate | intros [_ C]; discriminate C]].
  destruct (pair_compare String.compare cmp (x, y) (x', y')) eqn:E.
  - apply Hpe in E. inversion E. subst. tauto.
  - split; [discriminate|]. intros [C1 C2]. inversion C1. inversion C2. subst.
    rewrite (proj2 (Hpe (x, y) (x, y)) eq_refl) in E. discriminate.
  - split; [discriminate|]. intros [C1 C2]. inversion C1. inversion C2. subst.
    rewrite (proj2 (Hpe (x, y) (x, y)) eq_refl) in E. discriminate.
Qed.

End Pivot.

(** ** [seasonal_geographic_patterns]: the seasons it needs *)

Lemma str_key_spec c y : str_key c = Some y <-> c = Str y.
Proof. destruct c; simpl; split; intros H; inversion H; reflexivity. Qed.

Lemma num_key_spec c y : num_key c = Some y <-> c = Num y.
Proof. destruct c; simpl; split; intros H; inversion H; reflexivity. Qed.

Lemma season_in_columns df s x :
  groupby_pair_sum String.compare str_key "Region" "Season" df = Ok s ->
  in_pivot_columns String.eqb s x = true <-> has_season df x.
Proof.
  intros Hg.
  destruct (groupby_pair_sum_keys String.compare str_key string_compare_eq
              string_compare_gt string_compare_lt_trans _ _ _ _ Hg)
    as [_ Hkeys].
  rewrite (in_pivot_columns_iff String.eqb String.eqb_eq). unfold has_season.
  split.
  - intros [a Ha]. apply Hkeys in Ha. destruct Ha as [r [Hr [E1 E2]]].
    exists r, a. apply str_key_spec in E2. auto.
  - intros [r [a [Hr [E1 E2]]]]. exists a. apply Hkeys. exists r.
    split; [exact Hr|]. split; [exact E1|]. apply str_key_spec, E2.
Qed.

Lemma seasonal_lines_all_seasons pivot regions :
  in_pivot_columns String.eqb pivot "Winter" = true ->
  in_pivot_columns String.eqb pivot "Spring" = true ->
  in_pivot_columns String.eqb pivot "Summer" = true ->
  in_pivot_columns String.eqb pivot "Fall" = true ->
  exists lines, seasonal_lines pivot regions = Ok lines.
Proof.
  intros Hw Hsp Hsu Hf.
  induction regions as [|region rest [lines IH]]; [exists []; reflexivity|].
  cbn [seasonal_lines]. unfold loc. rewrite Hw, Hsp, Hsu, Hf, IH.
  eexists. reflexivity.
Qed.

(** X18: [seasonal_geographic_patterns] needs every season in the table.
    With its four columns there and some record with a region and a
    season, it raises KeyError for the first of Winter, Spring, Summer and
    Fall of which the table has no record (for a region), and returns its
    report when the table has records of all four. *)
Theorem seasonal_patterns_need_every_season (df : DataFrame) :
  In "Region" (columns df) -> In "Season" (columns df) ->
  In "Sales" (columns df) -> In "Ramadan_Period" (columns df) ->
  (exists s, has_season df s) ->
  (~ has_season df "Winter" ->
   seasonal_geographic_patterns df = Raise (KeyError "Winter")) /\
  (has_season df "Winter" -> ~ has_season df "Spring" ->
   seasonal_geographic_patterns df = Raise (KeyError "Spring")) /\
  (has_season df "Winter" -> has_season df "Spring" ->
   ~ has_season df "Summer" ->
   seasonal_geographic_patterns df = Raise (KeyError "Summer")) /\
  (has_season df "Winter" -> has_season df "Spring" ->
   has_season df "Summer" -> ~ has_season df "Fall" ->
   seasonal_geographic_patterns df = Raise (KeyError "Fall")) /\
  (has_season df "Winter" -> has_season df "Spring" ->
   has_season df "Summer" -> has_season df "Fall" ->
   exists r, seasonal_geographic_patterns df = Ok r).
Proof.
  intros Hr Hse Hsa Hra [s0 Hs0].
  destruct (index_of_In _ _ Hr) as [i Ei].
  destruct (index_of_In _ _ Hse) as [j Ej].
  destruct (index_of_In _ _ Hsa) as [k Ek].
  destruct (index_of_In _ _ Hra) as [l El].
  unfold seasonal_geographic_patterns.
  destruct (groupby_pair_sum String.compare str_key "Region" "Season" df)
    as [s|] eqn:Eg;
    [|unfold groupby_pair_sum in Eg; rewrite Ei, Ej, Ek in Eg; discriminate].
  destruct (groupby_pair_sum Z.compare num_key "Region" "Ramadan_Period" df)
    as [s'|] eqn:Eg';
    [|unfold groupby_pair_sum in Eg'; rewrite Ei, El, Ek in Eg'; discriminate].
  pose proof (season_in_columns df s) as Hcol.
  assert (Hidx : exists region rest, pivot_index s = region :: rest).
  { destruct (pivot_index s) as [|region rest] eqn:E; [|eauto]. exfalso.
    destruct Hs0 as [r [a [Hin [E1 E2]]]].
    assert (Ha : In a (pivot_index s)).
    { apply pivot_index_In.
      destruct (groupby_pair_sum_keys String.compare str_key string_compare_eq
                  string_compare_gt string_compare_lt_trans _ _ _ _ Eg)
        as [_ Hkeys].
      exists s0. apply Hkeys. exists r. split; [exact Hin|].
      split; [exact E1 | apply str_key_spec, E2]. }
    rewrite E in Ha. destruct Ha. }
  destruct Hidx as [region [rest Eidx]].
  assert (Hno : forall x, ~ has_season df x ->
                  in_pivot_columns String.eqb s x = false).
  { intros x Hx. destruct (in_pivot_columns String.eqb s x) eqn:E;
      [|reflexivity].
    exfalso. apply Hx, (Hcol x Eg), E. }
  split; [|split; [|split; [|split]]].
  - intros Hw. rewrite Eidx. cbn [seasonal_lines]. unfold loc.
    rewrite (Hno _ Hw). reflexivity.
  - intros Hw Hsp. rewrite Eidx. cbn [seasonal_lines]. unfold loc.
    rewrite (proj2 (Hcol _ Eg) Hw), (Hno _ Hsp). reflexivity.
  - intros Hw Hsp Hsu. rewrite Eidx. cbn [seasonal_lines]. unfold loc.
    rewrite (proj2 (Hcol _ Eg) Hw), (proj2 (Hcol _ Eg) Hsp), (Hno _ Hsu).
    reflexivity.
  - intros Hw Hsp Hsu Hf. rewrite Eidx. cbn [seasonal_lines]. unfold loc.
    rewrite (proj2 (Hcol _ Eg) Hw), (proj2 (Hcol _ Eg) Hsp),
      (proj2 (Hcol _ Eg) Hsu), (Hno _ Hf).
    reflexivity.
  - intros Hw Hsp Hsu Hf.
    destruct (seasonal_lines_all_seasons s (pivot_index s)
                (proj2 (Hcol _ Eg) Hw) (proj2 (Hcol _ Eg) Hsp)
                (proj2 (Hcol _ Eg) Hsu) (proj2 (Hcol _ Eg) Hf))
      as [lines Elines].
    rewrite Elines. eexists. reflexivity.
Qed.

Lemma has_season_found df s x a :
  In x (rows df) -> field df "Region" x = Str a ->
  field df "Season" x = Str s -> has_season df s.
Proof. intros H1 H2 H3. exists x, a. auto. Qed.

Lemma no_season_found df s :
  forallb (fun x => negb (cell_eqb (field df "Season" x) (Str s))) (rows df)
  = true ->
  ~ has_season df s.
Proof.
  intros H [x [a [Hx [_ E]]]]. rewrite forallb_forall in H.
  specialize (H x Hx). rewrite E in H. cbn [cell_eqb] in H.
  rewrite String.eqb_refl in H. discriminate.
Qed.

Lemma seasonal_patterns_need_every_season_witness :
  seasonal_geographic_patterns (with_seasons half_year) =
    Raise (KeyError "Fall") /\
  exists r, seasonal_geographic_patterns (with_seasons year_of_two_regions)
            = Ok r.
Proof.
  assert (Hcols : forall n, In n ["Region"; "Season"; "Sales"; "Ramadan_Period"] ->
                    In n (columns (with_seasons half_year)) /\
                    In n (columns (with_seasons year_of_two_regions))).
  { intros n Hn. split; apply existsb_eqb_In;
      repeat (destruct Hn as [<-|Hn]; [reflexivity|]); destruct Hn. }
  assert (Hs : forall df s,
                 existsb (fun x => match field df "Region" x with
                                   | Str _ => cell_eqb (field df "Season" x) (Str s)
                                   | _ => false
                                   end) (rows df) = true ->
                 has_season df s).
  { intros df s H. apply existsb_exists in H. destruct H as [x [Hx E]].
    destruct (field df "Region" x) as [a| | |] eqn:Ea; try discriminate.
    apply cell_eqb_eq in E. exact (has_season_found df s x a Hx Ea E). }
  split.
  - destruct (seasonal_patterns_need_every_season (with_seasons half_year))
      as [_ [_ [_ [H _]]]].
    + apply Hcols. simpl. tauto.
    + apply Hcols. simpl. tauto.
    + apply Hcols. simpl. tauto.
    + apply Hcols. simpl. tauto.
    + exists "Winter". apply Hs. reflexivity.
    + apply H.
      * apply Hs. reflexivity.
      * apply Hs. reflexivity.
      * apply Hs. reflexivity.
      * apply no_season_found. reflexivity.
  - destruct (seasonal_patterns_need_every_season
                (with_seasons year_of_two_regions)) as [_ [_ [_ [_ H]]]].
    + apply Hcols. simpl. tauto.
    + apply Hcols. simpl. tauto.
    + apply Hcols. simpl. tauto.
    + apply Hcols. simpl. tauto.
    + exists "Winter". apply Hs. reflexivity.
    + apply H; apply Hs; reflexivity.
Defined.

(** ** [seasonal_geographic_patterns]: the shares of the seasons *)

Lemma seasonal_lines_Ok pivot regions lines :
  seasonal_lines pivot regions = Ok lines ->
  forall l, In l lines <->
    exists region,
      In region regions /\
      0 < pivot_cell String.eqb pivot region "Winter"
          + pivot_cell String.eqb pivot region "Spring"
          + pivot_cell String.eqb pivot region "Summer"
          + pivot_cell String.eqb pivot region "Fall" /\
      l = {| line_region := region;
             winter_share :=
               percent (pivot_cell String.eqb pivot region "Winter")
                       (pivot_cell String.eqb pivot region "Winter"
                        + pivot_cell String.eqb pivot region "Spring"
                        + pivot_cell String.eqb pivot region "Summer"
                        + pivot_cell String.eqb pivot region "Fall");
             spring_share :=
               percent (pivot_cell String.eqb pivot region "Spring")
                       (pivot_cell String.eqb pivot region "Winter"
                        + pivot_cell String.eqb pivot region "Spring"
                        + pivot_cell String.eqb pivot region "Summer"
                        + pivot_cell String.eqb pivot region "Fall");
             summer_share :=
               percent (pivot_cell String.eqb pivot region "Summer")
                       (pivot_cell String.eqb pivot region "Winter"
                        + pivot_cell String.eqb pivot region "Spring"
                        + pivot_cell String.eqb pivot region "Summer"
                        + pivot_cell String.eqb pivot region "Fall");
             fall_share :=
               percent (pivot_cell String.eqb pivot region "Fall")
                       (pivot_cell String.eqb pivot region "Winter"
                        + pivot_cell String.eqb pivot region "Spring"
                        + pivot_cell String.eqb pivot region "Summer"
                        + pivot_cell String.eqb pivot region "Fall") |}.
Proof.
  revert lines. induction regions as [|region rest IH]; intros lines H.
  - apply Ok_inj in H. subst lines. intros l. split; [intros [] |].
    intros [region [[] _]].
  - cbn [seasonal_lines] in H. unfold loc in H.
    destruct (in_pivot_columns String.eqb pivot "Winter"); [|discriminate].
    destruct (in_pivot_columns String.eqb pivot "Spring"); [|discriminate].
    destruct (in_pivot_columns String.eqb pivot "Summer"); [|discriminate].
    destruct (in_pivot_columns String.eqb pivot "Fall"); [|discriminate].
    destruct (seasonal_lines pivot rest) as [lines0|]; [|discriminate].
    specialize (IH lines0 eq_refl). apply Ok_inj in H. intros l.
    set (t := pivot_cell String.eqb pivot region "Winter"
              + pivot_cell String.eqb pivot region "Spring"
              + pivot_cell String.eqb pivot region "Summer"
              + pivot_cell String.eqb pivot region "Fall") in *.
    destruct (0 <? t) eqn:Et; subst lines.
    + apply Z.ltb_lt in Et. split.
      * intros [<-|Hl].
        -- exists region. split; [left; reflexivity|]. split; [exact Et|].
           reflexivity.
        -- apply IH in Hl. destruct Hl as [x [Hx Hrest]]. exists x.
           split; [right; exact Hx | exact Hrest].
      * intros [x [[<-|Hx] [Hpos ->]]]; [left; reflexivity|].
        right. apply IH. exists x. split; [exact Hx|]. split; [exact Hpos|].
        reflexivity.
    + apply Z.ltb_ge in Et. split.
      * intros Hl. apply IH in Hl. destruct Hl as [x [Hx Hrest]]. exists x.
        split; [right; exact Hx | exact Hrest].
      * intros [x [[<-|Hx] [Hpos ->]]]; [fold t in Hpos; lia|].
        apply IH. exists x. split; [exact Hx|]. split; [exact Hpos|].
        reflexivity.
Qed.

Lemma shares_add_up (a b c d : Z) :
  0 < a + b + c + d ->
  exists qa qb qc qd,
    percent a (a + b + c + d) = Fin qa /\
    percent b (a + b + c + d) = Fin qb /\
    percent c (a + b + c + d) = Fin qc /\
    percent d (a + b + c + d) = Fin qd /\
    qa + qb + qc + qd == 100.
Proof.
  intros Hpos. unfold percent. rewrite !fdiv_of_Z by lia.
  unfold fmul, hundred, of_Z.
  do 4 eexists. repeat (split; [reflexivity|]).
  assert (Hq : ~ inject_Z (a + b + c + d) == 0).
  { intros C. apply Qeq_bool_iff in C.
    rewrite (inject_Z_nonzero (a + b + c + d)) in C by lia. discriminate. }
  transitivity (inject_Z (a + b + c + d) / inject_Z (a + b + c + d)
                * inject_Z 100)%Q.
  - rewrite !inject_Z_plus. field. rewrite <- !inject_Z_plus. exact Hq.
  - field. exact Hq.
Qed.

(** X19: the seasonal lines that [seasonal_geographic_patterns] prints.
    A region is printed when the table has a record of it with a season
    and its sales over the four seasons are positive; each of its four
    shares is its sales in that season over its sales in the four
    seasons, in percent, and the four shares add up to 100. *)
Theorem seasonal_shares_add_up (df : DataFrame) (r : seasonal_report) :
  seasonal_geographic_patterns df = Ok r ->
  (forall region,
     In region (map line_region (seasonal_performance r)) <->
     has_a_season df region /\ 0 < seasons_total df region) /\
  forall l, In l (seasonal_performance r) ->
    winter_share l =
      percent (season_sales df (line_region l) "Winter")
              (seasons_total df (line_region l)) /\
    spring_share l =
      percent (season_sales df (line_region l) "Spring")
              (seasons_total df (line_region l)) /\
    summer_share l =
      percent (season_sales df (line_region l) "Summer")
              (seasons_total df (line_region l)) /\
    fall_share l =
      percent (season_sales df (line_region l) "Fall")
              (seasons_total df (line_region l)) /\
    exists qa qb qc qd,
      winter_share l = Fin qa /\ spring_share l = Fin qb /\
      summer_share l = Fin qc /\ fall_share l = Fin qd /\
      qa + qb + qc + qd == 100.
Proof.
  intros H. unfold seasonal_geographic_patterns in H.
  destruct (groupby_pair_sum String.compare str_key "Region" "Season" df)
    as [s|] eqn:Eg; [|discriminate].
  destruct (seasonal_lines s (pivot_index s)) as [lines|] eqn:El;
    [|discriminate].
  destruct (groupby_pair_sum Z.compare num_key "Region" "Ramadan_Period" df)
    as [s'|]; [|discriminate].
  apply Ok_inj in H. apply (f_equal seasonal_performance) in H.
  unfold seasonal_performance at 1 in H. rewrite <- H. clear H.
  pose proof (seasonal_lines_Ok s (pivot_index s) lines El) as Hl.
  assert (Hcell : forall region x,
            pivot_cell String.eqb s region x = season_sales df region x).
  { intros region x.
    apply (pivot_cell_sales String.compare String.eqb string_compare_eq
             String.eqb_eq str_key Str string_compare_gt
             string_compare_lt_trans str_key_spec "Season" df s region x Eg). }
  assert (Hidx : forall region,
            In region (pivot_index s) <-> has_a_season df region).
  { intros region. rewrite pivot_index_In.
    destruct (groupby_pair_sum_keys String.compare str_key string_compare_eq
                string_compare_gt string_compare_lt_trans _ _ _ _ Eg)
      as [_ Hkeys].
    unfold has_a_season. split.
    - intros [y Hy]. apply Hkeys in Hy. destruct Hy as [x [Hx [E1 E2]]].
      exists x, y. split; [exact Hx|]. split; [exact E1|].
      apply str_key_spec, E2.
    - intros [x [y [Hx [E1 E2]]]]. exists y. apply Hkeys. exists x.
      split; [exact Hx|]. split; [exact E1|]. apply str_key_spec, E2. }
  assert (Htot : forall region,
            pivot_cell String.eqb s region "Winter"
            + pivot_cell String.eqb s region "Spring"
            + pivot_cell String.eqb s region "Summer"
            + pivot_cell String.eqb s region "Fall" = seasons_total df region).
  { intros region. rewrite !Hcell. reflexivity. }
  split.
  - intros region. rewrite in_map_iff. split.
    + intros [l [<- Hin]]. apply Hl in Hin.
      destruct Hin as [x [Hx [Hpos ->]]]. cbn [line_region].
      split; [apply Hidx, Hx|]. rewrite <- Htot. exact Hpos.
    + intros [Hreg Hpos]. eexists. split; [|apply Hl; exists region].
      2:{ split; [apply Hidx, Hreg|]. split; [rewrite Htot; exact Hpos|].
          reflexivity. }
      reflexivity.
  - intros l Hin. apply Hl in Hin. destruct Hin as [x [Hx [Hpos ->]]].
    cbn [line_region winter_share spring_share summer_share fall_share].
    rewrite Htot, !Hcell.
    repeat (split; [reflexivity|]).
    rewrite Htot in Hpos. unfold seasons_total in *.
    apply shares_add_up. exact Hpos.
Qed.

Lemma seasonal_shares_add_up_witness :
  exists r,
    seasonal_geographic_patterns (with_seasons year_of_two_regions) = Ok r /\
    map line_region (seasonal_performance r) = ["East"; "West"] /\
    forall l, In l (seasonal_performance r) ->
      exists qa qb qc qd,
        winter_share l = Fin qa /\ spring_share l = Fin qb /\
        summer_share l = Fin qc /\ fall_share l = Fin qd /\
        qa + qb + qc + qd == 100.
Proof.
  destruct (seasonal_geographic_patterns (with_seasons year_of_two_regions))
    as [r|] eqn:E; [|vm_compute in E; discriminate E].
  exists r. split; [reflexivity|]. split.
  - assert (El : option_map (fun r => map line_region (seasonal_performance r))
                   (match seasonal_geographic_patterns
                            (with_seasons year_of_two_regions)
                    with Ok r => Some r | Raise _ => None end) =
                 Some ["East"; "West"]) by (vm_compute; reflexivity).
    rewrite E in El. inversion El. reflexivity.
  - intros l Hl.
    destruct (seasonal_shares_add_up (with_seasons year_of_two_regions) r E)
      as [_ H].
    apply (H l Hl).
Defined.

(** ** [seasonal_geographic_patterns]: the impact of Ramadan *)

Lemma pivot_cell_no_column {K : Type} (eqb : K -> K -> bool)
  (s : Series (string * K)) x y :
  in_pivot_columns eqb s y = false -> pivot_cell eqb s x y = 0.
Proof.
  unfold in_pivot_columns, pivot_cell. induction s as [|kv s IH];
    [reflexivity|].
  cbn [existsb find]. intros H. apply orb_false_iff in H.
  destruct H as [H1 H2]. rewrite H1, andb_false_r. apply IH, H2.
Qed.

Lemma impact_of_sales (R N : Z) :
  0 < N ->
  exists q,
    fmul (fdiv (fsub (fdiv (of_Z R) (of_Z 1)) (fdiv (of_Z N) (of_Z 11)))
               (fdiv (of_Z N) (of_Z 11)))
         hundred = Fin q /\
    q == inject_Z (11 * R - N) / inject_Z N * 100 /\
    (0 <= R -> (- (100) <= q)%Q).
Proof.
  intros HN. rewrite !fdiv_of_Z by lia.
  assert (HNq : (0 < inject_Z N)%Q)
    by (change 0%Q with (inject_Z 0); rewrite <- Zlt_Qlt; exact HN).
  assert (HN0 : ~ inject_Z N == 0) by (intros C; rewrite C in HNq; discriminate).
  assert (Hd : Qeq_bool (inject_Z N / inject_Z 11) 0 = false).
  { destruct (Qeq_bool (inject_Z N / inject_Z 11) 0) eqn:E; [|reflexivity].
    apply Qeq_bool_iff in E. exfalso. apply HN0.
    setoid_replace (inject_Z N)
      with (inject_Z N / inject_Z 11 * inject_Z 11)%Q
      by (field; discriminate).
    rewrite E. ring. }
  unfold fsub, fneg, fadd, fdiv. rewrite Hd. unfold fmul, hundred, of_Z.
  eexists. split; [reflexivity|].
  assert (E : (inject_Z R / inject_Z 1 + - (inject_Z N / inject_Z 11))
              / (inject_Z N / inject_Z 11) * inject_Z 100 ==
              inject_Z (11 * R - N) / inject_Z N * 100).
  { unfold Z.sub. rewrite inject_Z_plus, inject_Z_mult, inject_Z_opp.
    change (inject_Z 100) with 100%Q.
    field; repeat split; first [exact HN0 | discriminate]. }
  split; [exact E|]. intros HR. rewrite E.
  setoid_replace (inject_Z (11 * R - N) / inject_Z N * 100)%Q
    with (inject_Z ((11 * R - N) * 100) / inject_Z N)%Q
    by (rewrite (inject_Z_mult _ 100); change (inject_Z 100) with 100%Q;
        field; exact HN0).
  apply Qle_shift_div_l; [exact HNq|].
  change (- (100))%Q with (inject_Z (- 100)).
  rewrite <- inject_Z_mult, <- Zle_Qle. nia.
Qed.

Lemma one_entry_per_key (f : string -> list (string * fnum)) regions :
  (forall x, f x = [] \/ exists g, f x = [(x, g)]) ->
  NoDup regions -> NoDup (map fst (flat_map f regions)).
Proof.
  intros Hf. induction 1 as [|a l Ha N IH]; cbn [flat_map]; [constructor|].
  assert (Hrest : forall x, In x (map fst (flat_map f l)) -> In x l).
  { intros x Hx. apply in_map_iff in Hx. destruct Hx as [[k g] [<- Hin]].
    apply in_flat_map in Hin. destruct Hin as [y [Hy Hg]].
    destruct (Hf y) as [E|[g' E]]; rewrite E in Hg; [destruct Hg|].
    destruct Hg as [Hg|[]]. inversion Hg. subst. exact Hy. }
  destruct (Hf a) as [E|[g E]]; rewrite E; [exact IH|].
  cbn [app map fst]. constructor; [|exact IH].
  intros C. apply Ha, Hrest, C.
Qed.

(** X20: the Ramadan impact that [seasonal_geographic_patterns] reports.
    The list is ranked from the highest impact to the lowest and names a
    region at most once; a region is in it exactly when the table has a
    record of it with a Ramadan period and its sales outside the period
    are positive. With R its sales in the period and N those outside, its
    impact is 100 * (11 R - N) / N, the period's sales against an eleventh
    of the others, whatever the number of months in the table; it is at
    least -100 when R is not negative. The highest impact returned is
    that of the first region of the list, None and 0 when the list is
    empty. *)
Theorem ramadan_impact_is_against_an_eleventh (df : DataFrame)
  (r : seasonal_report) :
  seasonal_geographic_patterns df = Ok r ->
  StronglySorted (fun a b => at_least (snd a) (snd b)) (ramadan_impact r) /\
  NoDup (map fst (ramadan_impact r)) /\
  (forall region,
     In region (map fst (ramadan_impact r)) <->
     has_a_period df region /\ 0 < other_sales df region) /\
  (forall region g, In (region, g) (ramadan_impact r) ->
     exists q,
       g = Fin q /\
       q == inject_Z (11 * ramadan_sales df region - other_sales df region)
            / inject_Z (other_sales df region) * 100 /\
       (0 <= ramadan_sales df region -> (- (100) <= q)%Q)) /\
  (ramadan_impact r = [] ->
   ramadan_highest_impact r = None /\ ramadan_highest_impact_pct r = Fin 0) /\
  (forall first rest, ramadan_impact r = first :: rest ->
   ramadan_highest_impact r = Some (fst first) /\
   ramadan_highest_impact_pct r = snd first).
Proof.
  intros H. unfold seasonal_geographic_patterns in H.
  destruct (groupby_pair_sum String.compare str_key "Region" "Season" df)
    as [s0|]; [|discriminate].
  destruct (seasonal_lines s0 (pivot_index s0)) as [lines|]; [|discriminate].
  destruct (groupby_pair_sum Z.compare num_key "Region" "Ramadan_Period" df)
    as [s|] eqn:Eg; [|discriminate].
  apply Ok_inj in H. subst r.
  cbn [ramadan_impact ramadan_highest_impact ramadan_highest_impact_pct].
  set (found := flat_map (ramadan_impact_of s) (pivot_index s)).
  assert (Hcell : forall region y,
            (if in_pivot_columns Z.eqb s y then pivot_cell Z.eqb s region y
             else 0) = sales_of_pair df "Ramadan_Period" region (Num y)).
  { intros region y.
    rewrite <- (pivot_cell_sales Z.compare Z.eqb Z.compare_eq_iff Z.eqb_eq
                  num_key Num Z_compare_gt Z_compare_lt_trans num_key_spec
                  "Ramadan_Period" df s region y Eg).
    destruct (in_pivot_columns Z.eqb s y) eqn:E; [reflexivity|].
    symmetry. apply pivot_cell_no_column, E. }
  assert (Hone : forall region,
            (0 < other_sales df region /\
             exists g, ramadan_impact_of s region = [(region, g)] /\
               exists q, g = Fin q /\
                 q == inject_Z (11 * ramadan_sales df region
                                - other_sales df region)
                      / inject_Z (other_sales df region) * 100 /\
                 (0 <= ramadan_sales df region -> (- (100) <= q)%Q)) \/
            (other_sales df region <= 0 /\ ramadan_impact_of s region = [])).
  { intros region. unfold ramadan_impact_of. rewrite !Hcell.
    fold (ramadan_sales df region). fold (other_sales df region).
    destruct (0 <? other_sales df region) eqn:E.
    - apply Z.ltb_lt in E. left. split; [exact E|].
      eexists. split; [reflexivity|].
      apply (impact_of_sales (ramadan_sales df region) (other_sales df region) E).
    - apply Z.ltb_ge in E. right. split; [exact E | reflexivity]. }
  assert (Hidx : forall region,
            In region (pivot_index s) <-> has_a_period df region).
  { intros region. rewrite pivot_index_In.
    destruct (groupby_pair_sum_keys Z.compare num_key Z.compare_eq_iff
                Z_compare_gt Z_compare_lt_trans _ _ _ _ Eg) as [_ Hkeys].
    unfold has_a_period. split.
    - intros [y Hy]. apply Hkeys in Hy. destruct Hy as [x [Hx [E1 E2]]].
      exists x, y. split; [exact Hx|]. split; [exact E1|].
      apply num_key_spec, E2.
    - intros [x [y [Hx [E1 E2]]]]. exists y. apply Hkeys. exists x.
      split; [exact Hx|]. split; [exact E1|]. apply num_key_spec, E2. }
  assert (Hfound : forall region g, In (region, g) found <->
            In region (pivot_index s) /\
            ramadan_impact_of s region = [(region, g)]).
  { intros region g. unfold found. rewrite in_flat_map. split.
    - intros [x [Hx Hin]].
      destruct (Hone x) as [[_ [g' [E _]]]|[_ E]]; rewrite E in Hin;
        [|destruct Hin].
      destruct Hin as [Hin|[]]. inversion Hin. subst. auto.
    - intros [Hx E]. exists region. split; [exact Hx|]. rewrite E.
      left. reflexivity. }
  assert (Hfin : Forall (fun y => is_finite (snd y)) found).
  { apply Forall_forall. intros [k g] Hin. apply Hfound in Hin.
    destruct Hin as [_ E]. destruct (Hone k) as [[_ [g' [E' [q [-> _]]]]]|[_ E']];
      rewrite E' in E; [|discriminate].
    inversion E. exact I. }
  split; [apply sort_reverse_sorted, Hfin|]. split.
  { eapply Permutation_NoDup.
    - apply Permutation_map, Permutation_sym, sort_reverse_perm.
    - apply one_entry_per_key; [|apply distinct_spec].
      intros x. destruct (Hone x) as [[_ [g [E _]]]|[_ E]]; eauto. }
  split.
  { intros region. rewrite in_map_iff. split.
    - intros [[k g] [<- Hin]]. cbn [fst].
      apply (Permutation_in _ (sort_reverse_perm _)) in Hin.
      apply Hfound in Hin. destruct Hin as [Hx E]. split; [apply Hidx, Hx|].
      destruct (Hone k) as [[Hpos _]|[_ E']]; [exact Hpos|].
      rewrite E' in E. discriminate.
    - intros [Hreg Hpos].
      destruct (Hone region) as [[_ [g [E _]]]|[Hle _]]; [|lia].
      exists (region, g). split; [reflexivity|].
      apply (Permutation_in _ (Permutation_sym (sort_reverse_perm _))).
      apply Hfound. split; [apply Hidx, Hreg | exact E]. }
  split.
  { intros region g Hin.
    apply (Permutation_in _ (sort_reverse_perm _)) in Hin.
    apply Hfound in Hin. destruct Hin as [_ E].
    destruct (Hone region) as [[_ [g' [E' Hq]]]|[_ E']]; rewrite E' in E;
      [|discriminate].
    inversion E. subst g'. exact Hq. }
  split.
  - intros E. rewrite E. split; reflexivity.
  - intros first rest E. rewrite E. split; reflexivity.
Qed.

Lemma ramadan_impact_is_against_an_eleventh_witness :
  exists r,
    seasonal_geographic_patterns (with_seasons year_of_two_regions) = Ok r /\
    map fst (ramadan_impact r) = ["East"; "West"] /\
    ramadan_sales (with_seasons year_of_two_regions) "East" = 22 /\
    other_sales (with_seasons year_of_two_regions) "East" = 110 /\
    ramadan_highest_impact r = Some "East" /\
    forall region g, In (region, g) (ramadan_impact r) ->
      exists q, g = Fin q /\ (- (100) <= q)%Q.
Proof.
  destruct (seasonal_geographic_patterns (with_seasons year_of_two_regions))
    as [r|] eqn:E; [|vm_compute in E; discriminate E].
  exists r. split; [reflexivity|].
  assert (El : option_map (fun r => (map fst (ramadan_impact r),
                                     ramadan_highest_impact r))
                 (match seasonal_geographic_patterns
                          (with_seasons year_of_two_regions)
                  with Ok r => Some r | Raise _ => None end) =
               Some (["East"; "West"], Some "East"))
    by (vm_compute; reflexivity).
  rewrite E in El. cbn [option_map] in El.
  split; [congruence|]. split; [reflexivity|]. split; [reflexivity|].
  split; [congruence|].
  destruct (ramadan_impact_is_against_an_eleventh
              (with_seasons year_of_two_regions) r E) as [_ [_ [H0 [H _]]]].
  intros region g Hin. destruct (H region g Hin) as [q [Hq [_ Hb]]].
  exists q. split; [exact Hq|]. apply Hb.
  assert (Hr : In region ["East"; "West"]).
  { assert (Hm : In region (map fst (ramadan_impact r)))
      by (apply in_map_iff; exists (region, g); auto).
    assert (Em : map fst (ramadan_impact r) = ["East"; "West"]) by congruence.
    rewrite Em in Hm. exact Hm. }
  destruct Hr as [<-|[<-|[]]]; vm_compute; discriminate.
Defined.

(** ** The two halves of the year *)

Section GroupFilter.
Context {K : Type}.
Variable cmp : K -> K -> comparison.
Hypothesis cmp_eq : forall a b, cmp a b = Eq <-> a = b.
Variable p : K -> bool.

Lemma group_add_filtered k v (s : Series K) :
  total (map snd (filter (fun kv => p (fst kv)) (group_add cmp k v s))) =
  total (map snd (filter (fun kv => p (fst kv)) s)) + (if p k then v else 0).
Proof.
  induction s as [|[k0 v0] t IH]; cbn [group_add].
  - cbn [filter fst]. destruct (p k); unfold total; simpl; lia.
  - destruct (cmp k k0) eqn:E.
    + apply cmp_eq in E. subst k0. cbn [filter fst].
      destruct (p k); unfold total in *; simpl; lia.
    + cbn [filter fst].
      destruct (p k), (p k0); unfold total in *; simpl; lia.
    + cbn [filter fst].
      destruct (p k0); unfold total in *; cbn [map fold_right snd];
        rewrite IH; lia.
Qed.

(** Summing the groups of some keys is summing the records of those
    keys. *)
Lemma groupby_sum_filtered (key : row -> option K) (val : row -> Z) rs :
  total (map snd (filter (fun kv => p (fst kv)) (groupby_sum cmp key val rs))) =
  total (map val (filter (fun r => match key r with
                                   | Some k => p k
                                   | None => false
                                   end) rs)).
Proof.
  unfold groupby_sum.
  assert (H : forall acc,
            total (map snd (filter (fun kv => p (fst kv))
              (fold_left (fun acc r => match key r with
                                       | Some k => group_add cmp k (val r) acc
                                       | None => acc
                                       end) rs acc))) =
            total (map snd (filter (fun kv => p (fst kv)) acc))
            + total (map val (filter (fun r => match key r with
                                               | Some k => p k
                                               | None => false
                                               end) rs))).
  { induction rs as [|r rs IH]; intros acc; cbn [fold_left filter].
    - unfold total. simpl. lia.
    - rewrite IH. destruct (key r) as [k0|].
      + rewrite group_add_filtered.
        destruct (p k0); unfold total; cbn [map fold_right]; lia.
      + lia. }
  rewrite H. unfold total. simpl. lia.
Qed.

End GroupFilter.

Lemma date_compare_eq (a b : Z * Z) :
  pair_compare Z.compare Z.compare a b = Eq <-> a = b.
Proof. apply pair_compare_eq; apply Z.compare_eq_iff. Qed.

(** X21: the growth of the second half of the year in
    [time_series_analysis] compares the sales of the records of July to
    December with those of January to June, whatever their years: with H1
    and H2 these two sums, it is 100 * (H2 - H1) / H1 when H1 is positive
    and 0 otherwise; the two sums make up the sales of the dated records;
    and the growth is at least -100 when H2 is not negative. *)
Theorem half_year_growth_of_the_records (df : DataFrame) (g : fnum) :
  h1_h2_growth df = Ok g ->
  g = (if 0 <? half_sales df true
       then fmul (fdiv (of_Z (half_sales df false - half_sales df true))
                       (of_Z (half_sales df true)))
                 hundred
       else Fin 0) /\
  half_sales df true + half_sales df false = dated_sales df /\
  (0 < half_sales df true ->
   exists q,
     g = Fin q /\
     q == inject_Z (half_sales df false - half_sales df true)
          / inject_Z (half_sales df true) * 100 /\
     (0 <= half_sales df false -> (- (100) <= q)%Q)).
Proof.
  intros H. unfold h1_h2_growth in H.
  destruct (monthly_total df) as [monthly|] eqn:Em; [|discriminate].
  apply Ok_inj in H. unfold monthly_total in Em.
  unfold half_sales, dated_sales, field.
  destruct (Str.index_of "Date" (columns df)) as [i|]; [|discriminate].
  destruct (Str.index_of "Sales" (columns df)) as [j|]; [|discriminate].
  apply Ok_inj in Em. subst monthly.
  set (val := fun r => cell_value (cell_at j r)) in *.
  set (key := fun r => date_key (cell_at i r)) in *.
  assert (E1 : fold_right Z.add 0
                 (map snd (filter (fun kv => snd (fst kv) <=? 6)
                    (groupby_sum (pair_compare Z.compare Z.compare) key val
                                 (rows df)))) =
               total (map val (filter (fun r => match cell_at i r with
                                                | Timestamp _ m => m <=? 6
                                                | _ => false
                                                end) (rows df)))).
  { fold (total (map snd (filter (fun kv => snd (fst kv) <=? 6)
                    (groupby_sum (pair_compare Z.compare Z.compare) key val
                                 (rows df))))).
    rewrite (groupby_sum_filtered (pair_compare Z.compare Z.compare)
               date_compare_eq (fun k => snd k <=? 6)).
    f_equal. f_equal. apply filter_ext. intros r. subst key. cbn beta.
    destruct (cell_at i r); reflexivity. }
  assert (E2 : fold_right Z.add 0
                 (map snd (filter (fun kv => 6 <? snd (fst kv))
                    (groupby_sum (pair_compare Z.compare Z.compare) key val
                                 (rows df)))) =
               total (map val (filter (fun r => match cell_at i r with
                                                | Timestamp _ m => 6 <? m
                                                | _ => false
                                                end) (rows df)))).
  { fold (total (map snd (filter (fun kv => 6 <? snd (fst kv))
                    (groupby_sum (pair_compare Z.compare Z.compare) key val
                                 (rows df))))).
    rewrite (groupby_sum_filtered (pair_compare Z.compare Z.compare)
               date_compare_eq (fun k => 6 <? snd k)).
    f_equal. f_equal. apply filter_ext. intros r. subst key. cbn beta.
    destruct (cell_at i r); reflexivity. }
  rewrite E1, E2 in H. clear E1 E2.
  set (H1 := total (map val (filter (fun r => match cell_at i r with
                                              | Timestamp _ m => m <=? 6
                                              | _ => false
                                              end) (rows df)))) in *.
  set (H2 := total (map val (filter (fun r => match cell_at i r with
                                              | Timestamp _ m => 6 <? m
                                              | _ => false
                                              end) (rows df)))) in *.
  split; [symmetry; exact H|]. split.
  - subst H1 H2. unfold total. clear H.
    induction (rows df) as [|r rs IH]; [reflexivity|].
    cbn [filter]. destruct (cell_at i r) as [s|z|y m|]; try exact IH.
    destruct (m <=? 6) eqn:L; destruct (6 <? m) eqn:G;
      cbn [map fold_right] in *; lia.
  - intros Hpos. assert (E : (0 <? H1) = true) by (apply Z.ltb_lt; exact Hpos).
    rewrite E in H. subst g. rewrite fdiv_of_Z by lia.
    unfold fmul, hundred, of_Z. eexists. split; [reflexivity|].
    split; [reflexivity|]. intros H0.
    assert (HNq : (0 < inject_Z H1)%Q)
      by (change 0%Q with (inject_Z 0); rewrite <- Zlt_Qlt; exact Hpos).
    assert (HN0 : ~ inject_Z H1 == 0)
      by (intros C; rewrite C in HNq; discriminate).
    setoid_replace (inject_Z (H2 - H1) / inject_Z H1 * inject_Z 100)%Q
      with (inject_Z ((H2 - H1) * 100) / inject_Z H1)%Q
      by (rewrite (inject_Z_mult _ 100); field; exact HN0).
    apply Qle_shift_div_l; [exact HNq|].
    change (- (100))%Q with (inject_Z (- 100)).
    rewrite <- inject_Z_mult, <- Zle_Qle. nia.
Qed.

Lemma half_year_growth_of_the_records_witness :
  exists g q,
    h1_h2_growth four_months = Ok g /\
    half_sales four_months true = 28 /\ half_sales four_months false = 0 /\
    g = Fin q /\ q == - (100).
Proof.
  destruct (h1_h2_growth four_months) as [g|] eqn:E;
    [|vm_compute in E; discriminate E].
  destruct (half_year_growth_of_the_records four_months g E) as [_ [_ H]].
  destruct H as [q [H1 [H2 _]]]; [reflexivity|].
  exists g, q. split; [reflexivity|]. split; [reflexivity|].
  split; [reflexivity|]. split; [exact H1|]. rewrite H2. reflexivity.
Defined.

(** ** From the month columns to the seasons *)

(** On a long table the two statements add their columns on the right. *)
Lemma add_season_columns_long rs :
  add_season_columns (long_table rs) =
  Ok {| columns := long_columns ++ ["Season"; "Ramadan_Period"];
        rows := map with_season_cells rs |}.
Proof.
  unfold add_season_columns, get_column, long_table. cbn [columns rows].
  assert (E1 : Str.index_of "Month_Num" long_columns = Some 19%nat)
    by reflexivity.
  rewrite E1.
  rewrite (map_map (cell_at 19) season).
  rewrite (set_column_from long_columns rs "Season"
             (fun r => season (cell_at 19 r))).
  assert (E2 : Str.index_of "Season" long_columns = None) by reflexivity.
  rewrite E2. cbn [columns rows set_cell].
  assert (E3 : Str.index_of "Month_Num" (long_columns ++ ["Season"])
               = Some 19%nat) by reflexivity.
  rewrite E3.
  rewrite (map_map (cell_at 19) ramadan_period).
  rewrite (set_column_from (long_columns ++ ["Season"]) _ "Ramadan_Period"
             (fun r => ramadan_period (cell_at 19 r))).
  assert (E4 : Str.index_of "Ramadan_Period" (long_columns ++ ["Season"])
               = None) by reflexivity.
  rewrite E4. cbn [set_cell]. rewrite map_map.
  f_equal.
Qed.

Lemma season_cells_of_a_long_record t r c rs :
  let d := {| columns := long_columns ++ ["Season"; "Ramadan_Period"];
              rows := rs |} in
  let x := with_season_cells (long_record t r c) in
  field d "Region" x = field t "Region" r /\
  field d "Sales" x = field t c r /\
  field d "Month_Num" x = dt_month (date_cell c) /\
  field d "Season" x = season (dt_month (date_cell c)) /\
  field d "Ramadan_Period" x = ramadan_period (dt_month (date_cell c)).
Proof. repeat split. Qed.

Lemma season_of_a_month m :
  1 <= m <= 12 ->
  exists s, season (Num m) = Str s /\
            In s ["Winter"; "Spring"; "Summer"; "Fall"].
Proof.
  intros H.
  assert (C : m = 1 \/ m = 2 \/ m = 3 \/ m = 4 \/ m = 5 \/ m = 6 \/ m = 7 \/
              m = 8 \/ m = 9 \/ m = 10 \/ m = 11 \/ m = 12) by lia.
  repeat (destruct C as [-> | C]); try subst m;
    eexists; (split; [reflexivity|]); simpl; auto.
Qed.

Lemma ramadan_of_a_month m :
  ramadan_period (Num m) = Num (if m =? 10 then 1 else 0).
Proof.
  destruct (m =? 10) eqn:E.
  - apply Z.eqb_eq in E. subst m. reflexivity.
  - apply Z.eqb_neq in E. unfold ramadan_period.
    destruct m as [|p|p]; try reflexivity.
    do 4 (destruct p as [p|p|]; try reflexivity). exfalso. apply E. reflexivity.
Qed.

(** X22: the seasons of a converted table come from its month columns.
    When the Season and Ramadan_Period statements of
    [create_derived_features] run on the long table of a successful
    conversion, every record gets the season of its month, one of the four
    and never missing, and the period 1 exactly in October; and the table
    has a record with a region of a season exactly when the wide table has
    a record with a region and a month column of that season. *)
Theorem seasons_come_from_the_month_columns (nargsort : sorter)
  (t : DataFrame) :
  nargsort_spec nargsort ->
  has_columns id_vars t = true ->
  forallb parses (month_columns t) = true ->
  exists long w d,
    identify_and_convert nargsort t = (Ok true, w) /\
    df_long (self w) = Some long /\
    add_season_columns long = Ok d /\
    length (rows d) = length (rows long) /\
    (forall x, In x (rows d) ->
       exists m s,
         1 <= m <= 12 /\
         field d "Month_Num" x = Num m /\
         field d "Season" x = Str s /\
         season (Num m) = Str s /\
         In s ["Winter"; "Spring"; "Summer"; "Fall"] /\
         field d "Ramadan_Period" x = Num (if m =? 10 then 1 else 0)) /\
    (forall s, has_season d s <-> has_a_region t /\ covers_season t s).
Proof.
  intros Hk Hc Hp.
  set (rs := map after_sort (take [] (date_indexer nargsort t) (before_sort t))).
  exists (long_table rs). eexists.
  exists {| columns := long_columns ++ ["Season"; "Ramadan_Period"];
            rows := map with_season_cells rs |}.
  split.
  { unfold identify_and_convert, bind. rewrite identify_run.
    apply convert_run; assumption. }
  split; [reflexivity|]. split; [apply add_season_columns_long|].
  split; [cbn [rows long_table]; apply length_map|].
  assert (Hrows : forall r, In r rs <->
                    exists r0 c, In r0 (rows t) /\ In c (month_columns t) /\
                                 r = long_record t r0 c).
  { intros r. pose proof (long_rows_perm nargsort t Hk) as P. fold rs in P.
    split.
    - intros H. apply (Permutation_in _ P) in H. apply in_flat_map in H.
      destruct H as [r0 [H0 H]]. unfold long_records in H.
      apply in_map_iff in H. destruct H as [c [<- Hin]]. eauto.
    - intros [r0 [c [H0 [Hin ->]]]].
      apply (Permutation_in _ (Permutation_sym P)). apply in_flat_map.
      exists r0. split; [exact H0|]. unfold long_records.
      apply in_map. exact Hin. }
  assert (Hmonth : forall c, In c (month_columns t) ->
                     exists y m, strptime_b_y (month_token c) = Some (y, m) /\
                                 1 <= m <= 12 /\
                                 dt_month (date_cell c) = Num m).
  { intros c Hin. rewrite forallb_forall in Hp. specialize (Hp c Hin).
    unfold parses in Hp. unfold date_cell.
    destruct (strptime_b_y (month_token c)) as [[y m]|] eqn:E; [|discriminate].
    exists y, m. split; [reflexivity|].
    split; [exact (strptime_month _ _ _ E) | reflexivity]. }
  split.
  - cbn [rows]. intros x Hx. apply in_map_iff in Hx.
    destruct Hx as [r [<- Hr]]. apply Hrows in Hr.
    destruct Hr as [r0 [c [H0 [Hin ->]]]].
    destruct (season_cells_of_a_long_record t r0 c (map with_season_cells rs))
      as [_ [_ [E1 [E2 E3]]]].
    destruct (Hmonth c Hin) as [y [m [Es [Hm Ed]]]].
    destruct (season_of_a_month m Hm) as [s [Hs Hin4]].
    exists m, s. split; [exact Hm|].
    split; [rewrite E1; exact Ed|].
    split; [rewrite E2, Ed; exact Hs|].
    split; [exact Hs|]. split; [exact Hin4|].
    rewrite E3, Ed. apply ramadan_of_a_month.
  - intros s. split.
    + intros [x [a [Hx [Ea Es]]]]. cbn [rows] in Hx. apply in_map_iff in Hx.
      destruct Hx as [r [<- Hr]]. apply Hrows in Hr.
      destruct Hr as [r0 [c [H0 [Hin ->]]]].
      destruct (season_cells_of_a_long_record t r0 c (map with_season_cells rs))
        as [E0 [_ [_ [E2 _]]]].
      destruct (Hmonth c Hin) as [y [m [Ey [Hm Ed]]]].
      split.
      * exists r0, a. split; [exact H0|]. rewrite <- E0. exact Ea.
      * exists c, y, m. split; [exact Hin|]. split; [exact Ey|].
        rewrite <- Ed, <- E2. exact Es.
    + intros [[r0 [a [H0 Ea]]] [c [y [m [Hin [Ey Es]]]]]].
      destruct (season_cells_of_a_long_record t r0 c (map with_season_cells rs))
        as [E0 [_ [_ [E2 _]]]].
      exists (with_season_cells (long_record t r0 c)), a.
      split.
      * cbn [rows]. apply in_map. apply Hrows. eauto.
      * split; [rewrite E0; exact Ea|].
        rewrite E2. unfold date_cell. rewrite Ey. exact Es.
Qed.

Lemma seasons_come_from_the_month_columns_witness :
  exists long w d,
    identify_and_convert stable_argsort year_2024 = (Ok true, w) /\
    df_long (self w) = Some long /\
    add_season_columns long = Ok d /\
    length (rows d) = length (rows long) /\
    (has_season d "Fall" <->
     has_a_region year_2024 /\ covers_season year_2024 "Fall").
Proof.
  destruct (seasons_come_from_the_month_columns stable_argsort year_2024
              (insertion_argsort_spec true) eq_refl eq_refl)
    as [long [w [d [H1 [H2 [H3 [H4 [_ H5]]]]]]]].
  exists long, w, d. split; [exact H1|]. split; [exact H2|].
  split; [exact H3|]. split; [exact H4|]. apply H5.
Defined.
